(** * MaterializeMySQLSyncThread: the binlog event translator, the row buffers
      and the flush path of src/Databases/MySQL/MaterializeMySQLSyncThread.cpp

    The development follows the source file top-down: error codes and the
    exception channel, machine integers, [Field] and the column classes the
    writer dispatches on, [writeFieldsToColumn], the two event writers
    ([onWriteOrDeleteData], [onUpdateData]), the [Buffers] accounting, the
    flush, [onEvent], the read deadline of the synchronization loop and the
    preflight check. *)

From Stdlib Require Import ZArith String List Lia Bool.
From stdpp Require Import gmap strings list fin_maps.

Open Scope string_scope.
Open Scope list_scope.
Open Scope Z_scope.

(** ** Exceptions *)

(** The codes of [namespace ErrorCodes] the file throws or tests, and the
    codes collaborators throw into it. *)
Inductive ErrorCode :=
| SYNTAX_ERROR
| LOGICAL_ERROR
| NOT_IMPLEMENTED
| ILLEGAL_MYSQL_VARIABLE
| NOT_FOUND_COLUMN_IN_BLOCK
| UNKNOWN_TABLE
| OTHER_ERROR (n : Z).

(** What travels up a [throw]: a [DB::Exception] (the only class the
    handler in [onEvent] catches), another C++ exception such as
    [std::out_of_range], or a point where C++ gives no meaning to the
    program (an index past the end of a vector, a [Field] read as a type
    it does not hold); the model stops there. *)
Inductive Thrown :=
| Exception (message : string) (code : ErrorCode)
| StdException (what : string)
| Undefined (what : string).

Inductive Result (A : Type) :=
| Ok (a : A)
| Throw (e : Thrown).
Arguments Ok {A} a.
Arguments Throw {A} e.

#[global] Instance Result_ret : MRet Result := fun A a => Ok a.
#[global] Instance Result_bind : MBind Result := fun A B f m =>
  match m with
  | Ok a => f a
  | Throw e => Throw e
  end.

(** Code that mutates an object through a reference and may throw: the
    object is threaded through, and is still there after a throw, in the
    state the throw left it. *)
Definition M (St A : Type) : Type := St -> Result A * St.

#[global] Instance M_ret {St} : MRet (M St) := fun A a s => (Ok a, s).
#[global] Instance M_bind {St} : MBind (M St) := fun A B f m s =>
  match m s with
  | (Ok a, s') => f a s'
  | (Throw e, s') => (Throw e, s')
  end.

Definition throw {St A} (e : Thrown) : M St A := fun s => (Throw e, s).
Definition lift {St A} (r : Result A) : M St A := fun s => (r, s).
Definition gets {St A} (f : St -> A) : M St A := fun s => (Ok (f s), s).
Definition modify {St} (f : St -> St) : M St unit := fun s => (Ok tt, f s).

Definition ErrorCode_eqb (a b : ErrorCode) : bool :=
  match a, b with
  | SYNTAX_ERROR, SYNTAX_ERROR
  | LOGICAL_ERROR, LOGICAL_ERROR
  | NOT_IMPLEMENTED, NOT_IMPLEMENTED
  | ILLEGAL_MYSQL_VARIABLE, ILLEGAL_MYSQL_VARIABLE
  | NOT_FOUND_COLUMN_IN_BLOCK, NOT_FOUND_COLUMN_IN_BLOCK
  | UNKNOWN_TABLE, UNKNOWN_TABLE => true
  | OTHER_ERROR n, OTHER_ERROR m => n =? m
  | _, _ => false
  end.

(** ** Machine integers *)

(** [static_cast] to an unsigned and to a signed integer of [w] bits. *)
Definition to_unsigned (w : Z) (x : Z) : Z := x mod 2 ^ w.
Definition to_signed (w : Z) (x : Z) : Z := (x + 2 ^ (w - 1)) mod 2 ^ w - 2 ^ (w - 1).

Definition to_UInt64 : Z -> Z := to_unsigned 64.
Definition to_Int32 : Z -> Z := to_signed 32.
Definition to_UInt32 : Z -> Z := to_unsigned 32.

(** ** Field *)

(** The variants of [Field] a parsed row carries. Float64 payloads are kept
    as their 64-bit patterns. *)
Inductive Field :=
| Field_Null
| Field_UInt64 (v : Z)
| Field_Int64 (v : Z)
| Field_Float64 (bits : Z)
| Field_String (s : string).

#[global] Instance Field_eq_dec : EqDecision Field.
Proof. solve_decision. Defined.

(** One row of an event: [DB::get<const Tuple &>(rows_data[index])]. *)
Abbreviation Tuple := (list Field).

Definition Field_isNull (f : Field) : bool :=
  match f with Field_Null => true | _ => false end.

(** [row_data[column_index]]; [std::vector::operator[]] past the end is
    undefined. *)
Definition Tuple_at (row_data : Tuple) (column_index : nat) : Result Field :=
  match row_data !! column_index with
  | Some value => Ok value
  | None => Throw (Undefined "Tuple::operator[]")
  end.

(** [value.get<UInt64>()]: the two 64-bit integer variants share their
    storage, signedness disregarded. *)
Definition Field_get_UInt64 (value : Field) : Result Z :=
  match value with
  | Field_UInt64 v => Ok (to_UInt64 v)
  | Field_Int64 v => Ok (to_UInt64 v)
  | _ => Throw (Undefined "Field::get<UInt64>")
  end.

Definition Field_get_Float64 (value : Field) : Result Z :=
  match value with
  | Field_Float64 bits => Ok bits
  | _ => Throw (Undefined "Field::get<Float64>")
  end.

Definition Field_get_String (value : Field) : Result string :=
  match value with
  | Field_String s => Ok s
  | _ => Throw (Undefined "Field::get<String>")
  end.

(** [value.get<Int32>()] on an integer variant: the stored 64 bits narrowed
    to [Int32]. *)
Definition Field_get_Int32 (value : Field) : Result Z :=
  match value with
  | Field_UInt64 v => Ok (to_Int32 v)
  | Field_Int64 v => Ok (to_Int32 v)
  | _ => Throw (Undefined "Field::get<Int32>")
  end.

(** ** Columns *)

(** Element types of [ColumnVector<T>]: [ColumnInt8] is
    [ColumnVector Int8] and so on. Float payloads are bit patterns. *)
Inductive NumberType :=
| Int8 | Int16 | Int32 | Int64
| UInt8 | UInt16 | UInt32 | UInt64
| Float32 | Float64.

#[global] Instance NumberType_eq_dec : EqDecision NumberType.
Proof. solve_decision. Defined.

(** The column classes [writeFieldsToColumn] tells apart with
    [typeid_cast], by the contents of their containers; [ColumnOther]
    stands for every other class (decimals, arrays, ...), of which only the
    number of rows is kept. *)
Inductive IColumn :=
| ColumnVector (T : NumberType) (data : list Z)
| ColumnString (data : list string)
| ColumnFixedString (n : nat) (data : list string)
| ColumnNullable (nested : IColumn) (null_map : list Z)
| ColumnOther (rows : nat).

(** [IColumn::size]; a nullable column answers with the size of its
    nested column. *)
Fixpoint IColumn_size (c : IColumn) : nat :=
  match c with
  | ColumnVector _ data => length data
  | ColumnString data => length data
  | ColumnFixedString _ data => length data
  | ColumnNullable nested _ => IColumn_size nested
  | ColumnOther rows => rows
  end.

(** [static_cast<to_type>(x)] of a [UInt64] to an integer type. *)
Definition static_cast_integer (to_type : NumberType) (x : Z) : Z :=
  match to_type with
  | Int8 => to_signed 8 x
  | Int16 => to_signed 16 x
  | Int32 => to_signed 32 x
  | Int64 => to_signed 64 x
  | UInt8 => to_unsigned 8 x
  | UInt16 => to_unsigned 16 x
  | UInt32 => to_unsigned 32 x
  | UInt64 => to_unsigned 64 x
  | Float32 | Float64 => x
  end.

(** The [for (size_t index = 0; index < rows_data.size(); ++index)] loops:
    the body runs on each row in order, the first throw ends the loop. *)
Fixpoint for_rows {St : Type} (body : nat -> Tuple -> St -> Result St)
    (index : nat) (rows_data : list Tuple) (s : St) : Result St :=
  match rows_data with
  | [] => Ok s
  | row_data :: rest =>
      s' ← body index row_data s;
      for_rows body (S index) rest s'
  end.

(** The column a loop appends to, as the container of its casted class,
    and the null map beside it ([null_map_column], looked at only under
    [assert_nullable]). *)
Record Target (A : Type) := mkTarget { target_data : list A; target_null_map : list Z }.
Arguments mkTarget {A} _ _.
Arguments target_data {A} _.
Arguments target_null_map {A} _.

Definition insertValue {A : Type} (x : A) (t : Target A) : Target A :=
  mkTarget (target_data t ++ [x]) (target_null_map t).

(** The lambda [write_data_to_null_map]: [false] when the row is masked out
    or was a null (then written as a default with null-map entry 1). *)
Definition write_data_to_null_map {A : Type} (assert_nullable : bool) (default : A)
    (mask : list bool) (field : Field) (row_index : nat) (t : Target A)
    : Result (bool * Target A) :=
  masked ← (match mask with
            | [] => Ok false
            | _ => match mask !! row_index with
                   | Some b => Ok (negb b)
                   | None => Throw (StdException "vector::_M_range_check")
                   end
            end);
  if (masked : bool) then Ok (false, t)
  else if assert_nullable then
    if Field_isNull field
    then Ok (false, mkTarget (target_data t ++ [default]) (target_null_map t ++ [1]))
    else Ok (true, mkTarget (target_data t) (target_null_map t ++ [0]))
  else Ok (true, t).

(** The common shape of the bodies of the per-class loops: fetch the
    field, consult [write_data_to_null_map], convert and insert. *)
Definition write_step {A : Type} (assert_nullable : bool) (default : A)
    (convert : Field -> Result A) (column_index : nat) (mask : list bool)
    (index : nat) (row_data : Tuple) (t : Target A) : Result (Target A) :=
  value ← Tuple_at row_data column_index;
  '(go, t') ← write_data_to_null_map assert_nullable default mask value index t;
  if (go : bool) then x ← convert value; Ok (insertValue x t') else Ok t'.

Definition write_loop {A : Type} (assert_nullable : bool) (default : A)
    (convert : Field -> Result A)
    (rows_data : list Tuple) (column_index : nat) (mask : list bool)
    (t : Target A) : Result (Target A) :=
  for_rows (write_step assert_nullable default convert column_index mask) 0%nat rows_data t.

(** [num & 0x800000 ? num | 0xFF000000 : num] on an [Int32] [num]: the
    literal [0xFF000000] is an [unsigned int], so both arms are taken to
    [unsigned int] and [insertValue] brings the result back to [Int32]. *)
Definition int24_extend (num : Z) : Z :=
  to_Int32 (if negb (Z.land num 0x800000 =? 0)
            then Z.lor (to_UInt32 num) 0xFF000000
            else to_UInt32 num).

(** The body of the [ColumnInt32] branch, after the null map. *)
Definition Int32_of_field (value : Field) : Result Z :=
  match value with
  | Field_UInt64 _ => Field_get_Int32 value
  | Field_Int64 _ => num ← Field_get_Int32 value; Ok (int24_extend num)
  | _ => Throw (Exception "LOGICAL ERROR: it is a bug." LOGICAL_ERROR)
  end.

(** NUL bytes: the default of a [FixedString(n)]. *)
Definition zero_bytes (n : nat) : string :=
  string_of_list_ascii (repeat Ascii.zero n).

Section SyncThread.

(** Collaborators of the writer that the file only calls: the narrowing
    [static_cast<Float32>] of a [Float64], what [ColumnFixedString(n)]
    stores (or throws) for given bytes, and [IColumn::byteSize]. *)
Variable Float32_of_Float64 : Z -> Z.
Variable ColumnFixedString_insertData : nat -> string -> Result string.
Variable IColumn_byteSize : IColumn -> Z.

(** [static_cast<to_type>(value.get<from_type>())] for the nine calls of
    [write_data_to_column]: [from_type] is [Float64] for the two float
    columns and [UInt64] for the others. *)
Definition convert_number (to_type : NumberType) (value : Field) : Result Z :=
  match to_type with
  | Float32 => x ← Field_get_Float64 value; Ok (Float32_of_Float64 x)
  | Float64 => Field_get_Float64 value
  | _ => x ← Field_get_UInt64 value; Ok (static_cast_integer to_type x)
  end.

(** [writeFieldsToColumn<assert_nullable>]. A nullable column sends the
    call to its nested column with its own null map; otherwise the class of
    the column picks the loop. The result is the column written and the
    null map handed in, written where [assert_nullable] holds. *)
Fixpoint writeFieldsToColumn (assert_nullable : bool) (column_to : IColumn)
    (rows_data : list Tuple) (column_index : nat) (mask : list bool)
    (null_map_column : list Z) : Result (IColumn * list Z) :=
  match column_to with
  | ColumnNullable nested null_map =>
      '(nested', null_map') ← writeFieldsToColumn true nested rows_data column_index mask null_map;
      Ok (ColumnNullable nested' null_map', null_map_column)
  | ColumnVector Int32 data =>
      t ← write_loop assert_nullable 0 Int32_of_field rows_data column_index mask
            (mkTarget data null_map_column);
      Ok (ColumnVector Int32 (target_data t), target_null_map t)
  | ColumnVector T data =>
      t ← write_loop assert_nullable 0 (convert_number T) rows_data column_index mask
            (mkTarget data null_map_column);
      Ok (ColumnVector T (target_data t), target_null_map t)
  | ColumnString data =>
      t ← write_loop assert_nullable "" Field_get_String rows_data column_index mask
            (mkTarget data null_map_column);
      Ok (ColumnString (target_data t), target_null_map t)
  | ColumnFixedString n data =>
      t ← write_loop assert_nullable (zero_bytes n)
            (fun value => s ← Field_get_String value; ColumnFixedString_insertData n s)
            rows_data column_index mask (mkTarget data null_map_column);
      Ok (ColumnFixedString n (target_data t), target_null_map t)
  | ColumnOther _ =>
      Throw (Exception "Unsupported data type from MySQL." NOT_IMPLEMENTED)
  end.

(** ** Block *)

(** [ColumnWithTypeAndName]: the [ColumnPtr] (null once moved from) and the
    name; the data type is the class of the column. *)
Record ColumnWithTypeAndName := mkColumn { column : option IColumn; name : string }.

Abbreviation Block := (list ColumnWithTypeAndName).

Definition Block_columns (b : Block) : Z := Z.of_nat (length b).

(** [Block::rows]: the size of the first column that is there. *)
Fixpoint Block_rows (b : Block) : nat :=
  match b with
  | [] => 0%nat
  | elem :: rest =>
      match column elem with
      | Some c => IColumn_size c
      | None => Block_rows rest
      end
  end.

(** [Block::bytes]: the sum of [elem.column->byteSize()], in [size_t]. *)
Fixpoint Block_bytes_sum (b : Block) : Result Z :=
  match b with
  | [] => Ok 0
  | elem :: rest =>
      match column elem with
      | Some c => n ← Block_bytes_sum rest; Ok (to_UInt64 (IColumn_byteSize c + n))
      | None => Throw (Undefined "null ColumnPtr")
      end
  end.

Definition Block_bytes : M Block Z := fun b => (Block_bytes_sum b, b).

(** [IColumn::mutate(std::move(buffer.getByPosition(position).column))]:
    the column leaves the block, whose pointer is null until
    [set_column] puts a column back. [getByPosition] is unchecked. *)
Definition take_column (position : nat) : M Block IColumn := fun buffer =>
  match buffer !! position with
  | Some elem =>
      match column elem with
      | Some c => (Ok c, <[position := mkColumn None (name elem)]> buffer)
      | None => (Throw (Undefined "null ColumnPtr"), buffer)
      end
  | None => (Throw (Undefined "Block::getByPosition"), buffer)
  end.

(** [buffer.getByPosition(position).column = std::move(col)]. *)
Definition set_column (position : nat) (c : IColumn) : M Block unit := fun buffer =>
  match buffer !! position with
  | Some elem => (Ok tt, <[position := mkColumn (Some c) (name elem)]> buffer)
  | None => (Throw (Undefined "Block::getByPosition"), buffer)
  end.

(** [for (size_t column = 0; column < bound; ++column)]. *)
Fixpoint for_range {St : Type} (body : nat -> M St unit) (from count : nat) : M St unit :=
  match count with
  | O => mret tt
  | S count' => _ ← body from; for_range body (S from) count'
  end.

(** [buffer.columns() - k] in [size_t]. *)
Definition columns_minus (buffer : Block) (k : Z) : nat :=
  Z.to_nat (to_UInt64 (Block_columns buffer - k)).

(** [assert_cast<ColumnInt8 &>] and [assert_cast<ColumnUInt64 &>]. *)
Definition assert_cast (T : NumberType) (c : IColumn) : Result (list Z) :=
  match c with
  | ColumnVector T' data =>
      if bool_decide (T' = T) then Ok data else Throw (Undefined "assert_cast")
  | _ => Throw (Undefined "assert_cast")
  end.

(** ** The event writers *)

(** [fillSignAndVersionColumnsData]: both trailer columns are moved out,
    cast, extended by [fill_size] entries and put back. *)
Definition fillSignAndVersionColumnsData (sign_value : Z) (version_value : Z)
    (fill_size : nat) : M Block unit :=
  sign_position ← gets (fun data => columns_minus data 2);
  version_position ← gets (fun data => columns_minus data 1);
  sign_mutable_column ← take_column sign_position;
  version_mutable_column ← take_column version_position;
  sign_column_data ← lift (assert_cast Int8 sign_mutable_column);
  version_column_data ← lift (assert_cast UInt64 version_mutable_column);
  _ ← set_column sign_position
        (ColumnVector Int8 (sign_column_data ++ repeat sign_value fill_size));
  set_column version_position
    (ColumnVector UInt64 (version_column_data ++ repeat version_value fill_size)).

(** The body of the loop over the user columns shared by both writers: the
    column is moved out of the block, written with the given mask and moved
    back. *)
Definition write_user_column (rows_data : list Tuple) (mask : list bool) (column : nat)
    : M Block unit :=
  col_to ← take_column column;
  '(col_to', _) ← lift (writeFieldsToColumn false col_to rows_data column mask []);
  set_column column col_to'.

(** [for (size_t column = 0; column < buffer.columns() - 2; ++column)]. *)
Definition write_user_columns (rows_data : list Tuple) (mask : list bool) : M Block unit :=
  bound ← gets (fun buffer => columns_minus buffer 2);
  for_range (write_user_column rows_data mask) 0%nat bound.

(** [onWriteOrDeleteData<sign>]; the result is [buffer.bytes() - prev_bytes]. *)
Definition onWriteOrDeleteData (sign : Z) (rows_data : list Tuple) (version : Z)
    : M Block Z :=
  prev_bytes ← Block_bytes;
  _ ← write_user_columns rows_data [];
  _ ← fillSignAndVersionColumnsData sign version (length rows_data);
  bytes ← Block_bytes;
  mret (to_UInt64 (bytes - prev_bytes)).

(** [differenceSortingKeys]: [true] at the first sorting column where the
    two images differ. *)
Fixpoint differenceSortingKeys (row_old_data row_new_data : Tuple)
    (sorting_columns_index : list nat) : Result bool :=
  match sorting_columns_index with
  | [] => Ok false
  | sorting_column_index :: rest =>
      old ← Tuple_at row_old_data sorting_column_index;
      new ← Tuple_at row_new_data sorting_column_index;
      if bool_decide (old ≠ new) then Ok true
      else differenceSortingKeys row_old_data row_new_data rest
  end.

(** The first loop of [onUpdateData] over [index += 2]: the entry of a
    post-image is [true], the entry of a pre-image says whether the sorting
    key changed. The loop runs on an even number of rows. *)
Fixpoint writeable_rows_mask (rows_data : list Tuple) (sorting_columns_index : list nat)
    : Result (list bool) :=
  match rows_data with
  | row_old_data :: row_new_data :: rest =>
      changed ← differenceSortingKeys row_old_data row_new_data sorting_columns_index;
      mask ← writeable_rows_mask rest sorting_columns_index;
      Ok (changed :: true :: mask)
  | _ => Ok []
  end.

(** The last loop of [onUpdateData] over [index += 2]: what goes to the
    sign column for each pair; the version column gets as many entries. *)
Fixpoint update_signs (mask : list bool) : list Z :=
  match mask with
  | changed :: _ :: rest =>
      (if negb changed then [1] else [-1; 1]) ++ update_signs rest
  | _ => []
  end.

(** [onUpdateData]. *)
Definition onUpdateData (rows_data : list Tuple) (version : Z)
    (sorting_columns_index : list nat) : M Block Z :=
  if negb (Nat.eqb (length rows_data mod 2) 0)
  then throw (Exception "LOGICAL ERROR: It is a bug." LOGICAL_ERROR)
  else
    prev_bytes ← Block_bytes;
    mask ← lift (writeable_rows_mask rows_data sorting_columns_index);
    _ ← write_user_columns rows_data mask;
    sign_position ← gets (fun buffer => columns_minus buffer 2);
    version_position ← gets (fun buffer => columns_minus buffer 1);
    sign_mutable_column ← take_column sign_position;
    version_mutable_column ← take_column version_position;
    sign_column_data ← lift (assert_cast Int8 sign_mutable_column);
    version_column_data ← lift (assert_cast UInt64 version_mutable_column);
    let signs := update_signs mask in
    _ ← set_column sign_position (ColumnVector Int8 (sign_column_data ++ signs));
    _ ← set_column version_position
          (ColumnVector UInt64 (version_column_data ++ repeat version (length signs)));
    bytes ← Block_bytes;
    mret (to_UInt64 (bytes - prev_bytes)).


(** ** The target store, as far as the file calls it *)

(** [Block::getPositionByName] and [Block::getByName] throw on a name the
    block does not have; [operator bool] is [!data.empty()]. *)
Fixpoint Block_find (b : Block) (n : string) (position : nat) : option (nat * ColumnWithTypeAndName) :=
  match b with
  | [] => None
  | elem :: rest =>
      if bool_decide (name elem = n) then Some (position, elem)
      else Block_find rest n (S position)
  end.

Definition not_found_column (n : string) : Thrown :=
  Exception ("Not found column " +:+ n +:+ " in block") NOT_FOUND_COLUMN_IN_BLOCK.

Definition Block_getPositionByName (b : Block) (n : string) : Result nat :=
  match Block_find b n 0%nat with
  | Some (position, _) => Ok position
  | None => Throw (not_found_column n)
  end.

Definition Block_getByName (b : Block) (n : string) : Result ColumnWithTypeAndName :=
  match Block_find b n 0%nat with
  | Some (_, elem) => Ok elem
  | None => Throw (not_found_column n)
  end.

Definition Block_bool (b : Block) : bool :=
  match b with [] => false | _ => true end.

(** What the file asks of the [StorageInMemoryMetadata] of a table. *)
Record StorageInMemoryMetadata := mkStorage {
  getSampleBlock : Block;
  getColumnsRequiredForSortingKey : list string;
  getAllPhysical : list string;
  getOrdinary : list string
}.

(** [Context], as far as the file sets it. *)
Record Context := mkContext {
  current_database : string;
  insert_allow_materialized_columns : bool;
  secondary_query : bool
}.

(** [createQueryContext]. *)
Definition createQueryContext (global_context : Context) : Context :=
  mkContext (current_database global_context) true true.

(** Modelled from the spec: the replication position of
    MySQLReplication.h, a binlog file name and an offset in it. *)
Record Position := mkPosition { binlog_name : string; binlog_pos : Z }.

(** What reaches the store, in order: a query handed to [executeQuery]
    under a context, a block copied into the sink of an INSERT, and the
    position a metadata transaction made durable. *)
Inductive Effect :=
| ExecuteQuery (query_context : Context) (query : string)
| CopyData (table : string) (insert_columns : list string) (block : Block)
| CommitPosition (position : Position).

Record Store := mkStore {
  catalog : gmap (string * string) StorageInMemoryMetadata;
  journal : list Effect
}.

(** [BlockIO]: whether the query opened an output stream, and into what. *)
Record BlockIO := mkBlockIO { out : bool }.

(** The collaborators of the thread: how the store answers a query (its
    result and the tables after it; a throw of [setCurrentDatabase] counts
    as a throw of the query), whether copying a block into a table's sink
    throws, and [backQuoteIfNeed]. *)
Variable executeQuery_outcome :
  string -> Context -> gmap (string * string) StorageInMemoryMetadata ->
  Result (BlockIO * gmap (string * string) StorageInMemoryMetadata).
Variable copyData_outcome : string -> Block -> option Thrown.
Variable backQuoteIfNeed : string -> string.

(** [executeQuery(query, context, true)]. *)
Definition executeQuery (query : string) (query_context : Context) : M Store BlockIO :=
  fun store =>
    let store' := mkStore (catalog store) (journal store ++ [ExecuteQuery query_context query]) in
    match executeQuery_outcome query query_context (catalog store) with
    | Ok (res, tables) => (Ok res, mkStore tables (journal store'))
    | Throw e => (Throw e, store')
    end.

(** [tryToExecuteQuery]: the handler logs and rethrows. *)
Definition tryToExecuteQuery (query_to_execute : string) (query_context : Context)
    (database : string) (comment : string) : M Store BlockIO :=
  let query_context :=
    if negb (String.eqb database "")
    then mkContext database (insert_allow_materialized_columns query_context)
           (secondary_query query_context)
    else query_context in
  executeQuery ("/*" +:+ comment +:+ "*/ " +:+ query_to_execute) query_context.

(** The sink [getTableOutput] returns: the table and the columns of its
    INSERT. *)
Record BlockOutputStream := mkSink { sink_table : string; sink_columns : list string }.

(** [DatabaseCatalog::instance().getTable(StorageID(database, table_name))]. *)
Definition getTable (database table_name : string) : M Store StorageInMemoryMetadata := fun store =>
  match catalog store !! (database, table_name) with
  | Some storage => (Ok storage, store)
  | None => (Throw (Exception ("Table " +:+ table_name +:+ " doesn't exist") UNKNOWN_TABLE), store)
  end.

(** [getTableOutput]. *)
Definition getTableOutput (database_name table_name : string) (query_context : Context)
    (insert_materialized : bool) : M Store BlockOutputStream :=
  storage ← getTable database_name table_name;
  let insert_columns_names :=
    if insert_materialized then getAllPhysical storage else getOrdinary storage in
  let insert_columns_str := String.concat ", " insert_columns_names in
  let comment := "Materialize MySQL step 1: execute dump data" in
  res ← tryToExecuteQuery
          ("INSERT INTO " +:+ backQuoteIfNeed table_name +:+ "(" +:+ insert_columns_str +:+ ")" +:+ " VALUES")
          query_context database_name comment;
  if out res then mret (mkSink table_name insert_columns_names)
  else throw (Exception "LOGICAL ERROR: It is a bug." LOGICAL_ERROR).

(** [copyData(input, *out)] of a [OneBlockInputStream]. *)
Definition copyData (input : Block) (sink : BlockOutputStream) : M Store unit := fun store =>
  match copyData_outcome (sink_table sink) input with
  | Some e => (Throw e, store)
  | None =>
      (Ok tt, mkStore (catalog store)
                (journal store ++ [CopyData (sink_table sink) (sink_columns sink) input]))
  end.

(** ** Buffers, metadata and the state of the thread *)

Abbreviation BufferAndSortingColumns := (Block * list nat)%type.

Record Buffers := mkBuffers {
  database : string;
  data : gmap string BufferAndSortingColumns;
  max_block_rows : Z;
  max_block_bytes : Z;
  total_blocks_rows : Z;
  total_blocks_bytes : Z
}.

(** Modelled from the spec: the record of MaterializeMetadata.h, as far as
    the file reads and writes it: the replication position and the
    [version: u64] counter. *)
Record MaterializeMetadata := mkMetadata {
  binlog_file : string;
  binlog_position : Z;
  version : Z
}.

(** The objects [onEvent] and the flush work on: the buffers, the metadata,
    the store, and the position the client reports. *)
Record SyncState := mkSync {
  buffers : Buffers;
  metadata : MaterializeMetadata;
  store : Store;
  client_position : Position
}.

Definition set_buffers (f : Buffers -> Buffers) (s : SyncState) : SyncState :=
  mkSync (f (buffers s)) (metadata s) (store s) (client_position s).
Definition set_metadata (f : MaterializeMetadata -> MaterializeMetadata) (s : SyncState) : SyncState :=
  mkSync (buffers s) (f (metadata s)) (store s) (client_position s).
Definition set_store (f : Store -> Store) (s : SyncState) : SyncState :=
  mkSync (buffers s) (metadata s) (f (store s)) (client_position s).
Definition set_data (f : gmap string BufferAndSortingColumns -> gmap string BufferAndSortingColumns)
    (b : Buffers) : Buffers :=
  mkBuffers (database b) (f (data b)) (max_block_rows b) (max_block_bytes b)
    (total_blocks_rows b) (total_blocks_bytes b).

(** Code that works on the store alone, run inside the thread. *)
Definition on_store {A} (m : M Store A) : M SyncState A := fun s =>
  let '(r, store') := m (store s) in (r, set_store (fun _ => store') s).

(** Code that works on [buffer->first], the block of the buffer a
    [BufferAndSortingColumnsPtr] points to inside [data]. *)
Definition on_block {A} (table_name : string) (m : M Block A) : M SyncState A := fun s =>
  match data (buffers s) !! table_name with
  | Some (block, sorting) =>
      let '(r, block') := m block in
      (r, set_buffers (set_data (insert table_name (block', sorting))) s)
  | None => (Throw (Undefined "null BufferAndSortingColumnsPtr"), s)
  end.

(** [buffer->second]. *)
Definition sorting_columns (table_name : string) : M SyncState (list nat) := fun s =>
  match data (buffers s) !! table_name with
  | Some (_, sorting) => (Ok sorting, s)
  | None => (Throw (Undefined "null BufferAndSortingColumnsPtr"), s)
  end.

(** The loop of [getTableDataBuffer] over the names of the sorting key: each
    position found is appended to the entry already in [data]. *)
Fixpoint push_sorting_columns (table_name : string) (required_for_sorting_key : list string)
    : M SyncState unit :=
  match required_for_sorting_key with
  | [] => mret tt
  | required_name :: rest =>
      position ← on_block table_name
                   (fun block => (Block_getPositionByName block required_name, block));
      _ ← modify (set_buffers (set_data (fun d =>
             match d !! table_name with
             | Some (block, sorting) => <[table_name := (block, sorting ++ [position])]> d
             | None => d
             end)));
      push_sorting_columns table_name rest
  end.

(** [Buffers::getTableDataBuffer]; the pointer it returns is the entry of
    [table_name] in [data]. *)
Definition getTableDataBuffer (table_name : string) : M SyncState unit := fun s =>
  match data (buffers s) !! table_name with
  | Some _ => (Ok tt, s)
  | None =>
      (storage ← on_store (getTable (database (buffers s)) table_name);
       _ ← modify (set_buffers (set_data (insert table_name (getSampleBlock storage, []))));
       push_sorting_columns table_name (getColumnsRequiredForSortingKey storage)) s
  end.

(** [Buffers::add], in [size_t]. *)
Definition Buffers_add (block_rows block_bytes written_rows written_bytes : Z) (b : Buffers)
    : Buffers :=
  mkBuffers (database b) (data b)
    (Z.max block_rows (max_block_rows b))
    (Z.max block_bytes (max_block_bytes b))
    (to_UInt64 (total_blocks_rows b + written_rows))
    (to_UInt64 (total_blocks_bytes b + written_bytes)).

(** [Buffers::checkThresholds]. *)
Definition checkThresholds (check_block_rows check_block_bytes check_total_rows check_total_bytes : Z)
    (b : Buffers) : bool :=
  (check_block_rows <=? max_block_rows b) || (check_block_bytes <=? max_block_bytes b)
  || (check_total_rows <=? total_blocks_rows b) || (check_total_bytes <=? total_blocks_bytes b).

(** The loop of [Buffers::commit] over [data]. *)
Fixpoint commit_loop (database : string) (context : Context)
    (tables : list (string * BufferAndSortingColumns)) : M Store unit :=
  match tables with
  | [] => mret tt
  | (table_name, (block, _)) :: rest =>
      let query_context := createQueryContext context in
      sink ← getTableOutput database table_name query_context true;
      _ ← copyData block sink;
      commit_loop database context rest
  end.

(** [Buffers::commit]: the handler clears [data] and rethrows. [data] is a
    [std::unordered_map], visited in an order of its own; the model visits
    it in the order of [map_to_list]. *)
Definition commit (context : Context) : M SyncState unit := fun s =>
  let b := buffers s in
  match on_store (commit_loop (database b) context (map_to_list (data b))) s with
  | (Ok _, s') => (Ok tt, set_buffers (fun _ => mkBuffers (database b) ∅ 0 0 0 0) s')
  | (Throw e, s') => (Throw e, set_buffers (set_data (fun _ => ∅)) s')
  end.

(** Modelled from the spec: [MaterializeMetadata::transaction], which is
    declared in MaterializeMetadata.h. It persists the new position
    atomically with the side effects of the body: either the body succeeded
    and the new position is durable, or neither change is visible in the
    store. *)
Definition transaction (position : Position) (body : M SyncState unit) : M SyncState unit :=
  fun s =>
    match body s with
    | (Ok _, s') =>
        (Ok tt,
         set_metadata (fun m => mkMetadata (binlog_name position) (binlog_pos position) (version m))
           (set_store (fun st => mkStore (catalog st) (journal st ++ [CommitPosition position])) s'))
    | (Throw e, s') => (Throw e, set_store (fun _ => store s) s')
    end.

(** The members of [MaterializeMySQLSyncThread] set by its constructor. *)
Variable global_context : Context.
Variable database_name : string.
Variable mysql_database_name : string.

Definition query_prefix : string :=
  "EXTERNAL DDL FROM MySQL(" +:+ backQuoteIfNeed database_name +:+ ", "
    +:+ backQuoteIfNeed mysql_database_name +:+ ") ".

(** [flushBuffersData]. *)
Definition flushBuffersData : M SyncState unit := fun s =>
  transaction (client_position s) (commit global_context) s.

(** Modelled from the spec: the events of MySQLReplication.h, a tagged
    variant over write, update and delete of a table's rows, query of a
    schema, heartbeat, and any other. The rows of an update are a sequence
    with pre-images at even and post-images at odd indices. *)
Inductive BinlogEvent :=
| WriteRowsEvent (table : string) (rows : list Tuple)
| UpdateRowsEvent (table : string) (rows : list Tuple)
| DeleteRowsEvent (table : string) (rows : list Tuple)
| QueryEvent (schema : string) (query : string)
| HeartbeatEvent
| OtherEvent (dump : string).

(** [++metadata.version]. *)
Definition increment_version : M SyncState Z := fun s =>
  let v := to_UInt64 (version (metadata s) + 1) in
  (Ok v, set_metadata (fun m => mkMetadata (binlog_file m) (binlog_position m) v) s).

(** [buffers.add(buffer->first.rows(), buffer->first.bytes(), written_rows, bytes)]. *)
Definition account (table_name : string) (written_rows : nat) (bytes : Z) : M SyncState unit :=
  block_rows ← on_block table_name (gets Block_rows);
  block_bytes ← on_block table_name Block_bytes;
  modify (set_buffers (Buffers_add (Z.of_nat block_rows) block_bytes (Z.of_nat written_rows) bytes)).

(** The handler of the query branch of [onEvent]: it catches
    [DB::Exception] only, logs, and rethrows unless the code is
    [SYNTAX_ERROR]. *)
Definition catch_syntax_error (m : M SyncState unit) : M SyncState unit := fun s =>
  match m s with
  | (Throw (Exception message code), s') =>
      if negb (ErrorCode_eqb code SYNTAX_ERROR)
      then (Throw (Exception message code), s')
      else (Ok tt, s')
  | other => other
  end.

(** [MaterializeMySQLSyncThread::onEvent]. *)
Definition onEvent (receive_event : BinlogEvent) : M SyncState unit :=
  match receive_event with
  | WriteRowsEvent table rows =>
      _ ← getTableDataBuffer table;
      v ← increment_version;
      bytes ← on_block table (onWriteOrDeleteData 1 rows v);
      account table (length rows) bytes
  | UpdateRowsEvent table rows =>
      _ ← getTableDataBuffer table;
      v ← increment_version;
      sorting ← sorting_columns table;
      bytes ← on_block table (onUpdateData rows v sorting);
      account table (length rows) bytes
  | DeleteRowsEvent table rows =>
      _ ← getTableDataBuffer table;
      v ← increment_version;
      bytes ← on_block table (onWriteOrDeleteData (-1) rows v);
      account table (length rows) bytes
  | QueryEvent schema query =>
      _ ← flushBuffersData;
      catch_syntax_error
        (let query_context := createQueryContext global_context in
         let comment := "Materialize MySQL step 2: execute MySQL DDL for sync data" in
         let event_database :=
           if String.eqb schema mysql_database_name then database_name else "" in
         _ ← on_store (tryToExecuteQuery (query_prefix +:+ query) query_context event_database comment);
         mret tt)
  | HeartbeatEvent => mret tt
  | OtherEvent _ => mret tt
  end.

(** ** One turn of the loop of [synchronization] *)

Record MaterializeMySQLSettings := mkSettings {
  max_rows_in_buffer : Z;
  max_bytes_in_buffer : Z;
  max_rows_in_buffers : Z;
  max_bytes_in_buffers : Z;
  max_flush_data_time : Z
}.

(** [std::max(UInt64(1), max_flush_time - watch.elapsedMilliseconds())]:
    both operands of the subtraction are [UInt64]. *)
Definition read_deadline (max_flush_time elapsed : Z) : Z :=
  Z.max 1 (to_UInt64 (max_flush_time - elapsed)).

(** The body of [while (!isCancelled())]. The two readings of the watch
    and the answer of [client.readOneBinlogEvent] (the event, if any, and
    the position the client is at afterwards) come from outside; the result
    says whether the watch was restarted. *)
Definition synchronization_turn (settings : MaterializeMySQLSettings)
    (elapsed_at_read : Z) (readOneBinlogEvent : Z -> option BinlogEvent * Position)
    (elapsed_after_event : Z) : M SyncState bool :=
  let max_flush_time := max_flush_data_time settings in
  let '(binlog_event, position) :=
    readOneBinlogEvent (read_deadline max_flush_time elapsed_at_read) in
  _ ← modify (fun s => mkSync (buffers s) (metadata s) (store s) position);
  _ ← match binlog_event with
      | Some event => onEvent event
      | None => mret tt
      end;
  over ← gets (fun s =>
            (max_flush_time <? elapsed_after_event)
            || checkThresholds (max_rows_in_buffer settings) (max_bytes_in_buffer settings)
                 (max_rows_in_buffers settings) (max_bytes_in_buffers settings) (buffers s));
  if (over : bool) then
    empty ← gets (fun s => bool_decide (data (buffers s) = ∅));
    _ ← (if (empty : bool) then mret tt else flushBuffersData);
    mret true
  else mret false.

(** ** The preflight check *)

(** [column->getDataAt(index).toString()] on the string columns the two
    headers ask for. *)
Definition IColumn_getDataAt (c : option IColumn) (index : nat) : Result string :=
  match c with
  | Some (ColumnString data) =>
      match data !! index with
      | Some s => Ok s
      | None => Throw (Undefined "IColumn::getDataAt")
      end
  | _ => Throw (Undefined "IColumn::getDataAt")
  end.

(** The initial [variables_error_message], a [std::unordered_map] from the
    name of a variable to the text of its requirement. *)
Definition variables_error_message : gmap string string :=
  list_to_map
    [("log_bin", "log_bin = 'ON'");
     ("binlog_format", "binlog_format='ROW'");
     ("binlog_row_image", "binlog_row_image='FULL'");
     ("default_authentication_plugin", "default_authentication_plugin='mysql_native_password'")].

(** [find] then [erase]. *)
Definition erase_variable (variable_name : string) (messages : gmap string string)
    : gmap string string :=
  delete variable_name messages.

(** The loop over the rows of [variables_block]. *)
Fixpoint erase_found (variable_name_column : option IColumn) (index count : nat)
    (messages : gmap string string) : Result (gmap string string) :=
  match count with
  | O => Ok messages
  | S count' =>
      variable_name ← IColumn_getDataAt variable_name_column index;
      erase_found variable_name_column (S index) count' (erase_variable variable_name messages)
  end.

(** The text of the exception: the entries left, separated by commas. The
    map is gone through in an order of its own, for which that of
    [map_to_list] stands; no statement below depends on which it is. *)
Definition illegal_variables_message (messages : gmap string string) : string :=
  "Illegal MySQL variables, the MaterializeMySQL engine requires "
    +:+ String.concat ", " ((map_to_list messages).*2).

(** [checkVariableAndGetVersion], given what the two [read()] calls
    return. *)
Definition checkVariableAndGetVersion (variables_block version_block : Block) : Result string :=
  if negb (Block_bool variables_block) || negb (Nat.eqb (Block_rows variables_block) 4)
  then
    elem ← Block_getByName variables_block "Variable_name";
    messages ← erase_found (column elem) 0%nat (Block_rows variables_block) variables_error_message;
    Throw (Exception (illegal_variables_message messages) ILLEGAL_MYSQL_VARIABLE)
  else
    if negb (Block_bool version_block) || negb (Nat.eqb (Block_rows version_block) 1)
    then Throw (Exception "LOGICAL ERROR: cannot get mysql version." LOGICAL_ERROR)
    else
      match version_block !! 0%nat with
      | Some elem => IColumn_getDataAt (column elem) 0%nat
      | None => Throw (Undefined "Block::getByPosition")
      end.

(** ** The rows of a block, and the specification's conversion table *)

(** What a reader finds in one cell of a column. *)
Inductive Cell :=
| CNull
| CNumber (z : Z)
| CString (s : string)
| COpaque.

(** The cells of a column, top to bottom; a nullable column shows a null
    where its null map is set. *)
Fixpoint IColumn_cells (c : IColumn) : list Cell :=
  match c with
  | ColumnVector _ data => CNumber <$> data
  | ColumnString data => CString <$> data
  | ColumnFixedString _ data => CString <$> data
  | ColumnNullable nested null_map =>
      zip_with (fun cell n => if n =? 0 then cell else CNull) (IColumn_cells nested) null_map
  | ColumnOther rows => replicate rows COpaque
  end.

Definition cell_at (elem : ColumnWithTypeAndName) (i : nat) : Cell :=
  default COpaque (c ← column elem; IColumn_cells c !! i).

(** Row [i] of a block, one cell per column, and all its rows. *)
Definition Block_row (b : Block) (i : nat) : list Cell := (fun elem => cell_at elem i) <$> b.
Definition Block_table (b : Block) : list (list Cell) := Block_row b <$> seq 0 (Block_rows b).

(** The per-type conversion table of the specification: the cell a source
    field becomes in a target column, and [None] where the table has no
    entry. *)
Fixpoint spec_materialize (target : IColumn) (f : Field) : option Cell :=
  match target with
  | ColumnNullable nested _ =>
      match f with
      | Field_Null => Some CNull
      | _ => spec_materialize nested f
      end
  | ColumnVector Int32 _ =>
      match f with
      | Field_UInt64 v => Some (CNumber (to_Int32 v))
      | Field_Int64 v => Some (CNumber (int24_extend (to_Int32 v)))
      | _ => None
      end
  | ColumnVector Float32 _ =>
      match f with
      | Field_Float64 bits => Some (CNumber (Float32_of_Float64 bits))
      | _ => None
      end
  | ColumnVector Float64 _ =>
      match f with
      | Field_Float64 bits => Some (CNumber bits)
      | _ => None
      end
  | ColumnVector T _ =>
      match f with
      | Field_UInt64 v => Some (CNumber (static_cast_integer T (to_UInt64 v)))
      | _ => None
      end
  | ColumnString _ =>
      match f with
      | Field_String s => Some (CString s)
      | _ => None
      end
  | ColumnFixedString n _ =>
      match f with
      | Field_String s =>
          match ColumnFixedString_insertData n s with
          | Ok stored => Some (CString stored)
          | Throw _ => None
          end
      | _ => None
      end
  | ColumnOther _ => None
  end.

(** A column the writer has a branch for, as the store hands it out: not
    of another class, and if nullable, wrapping a column that is neither
    nullable nor of another class, with one null-map entry per row. *)
Definition is_plain (c : IColumn) : bool :=
  match c with
  | ColumnNullable _ _ | ColumnOther _ => false
  | _ => true
  end.

Definition IColumn_supported (c : IColumn) : bool :=
  match c with
  | ColumnNullable nested null_map =>
      is_plain nested && Nat.eqb (IColumn_size nested) (length null_map)
  | ColumnOther _ => false
  | _ => true
  end.

(** A buffer the writers can fill: every column is there, supported and of
    the same height, the last two are the [Int8] sign and the [UInt64]
    version, and the number of columns fits [size_t]. *)
Definition column_ready (rows : nat) (elem : ColumnWithTypeAndName) : bool :=
  match column elem with
  | Some c => IColumn_supported c && Nat.eqb (IColumn_size c) rows
  | None => false
  end.

Definition trailers_ready (b : Block) : bool :=
  match drop (length b - 2) b with
  | [sign; version] =>
      match column sign, column version with
      | Some (ColumnVector Int8 _), Some (ColumnVector UInt64 _) => true
      | _, _ => false
      end
  | _ => false
  end.

Definition Block_ready (b : Block) : bool :=
  forallb (column_ready (Block_rows b)) b && trailers_ready b
  && (Block_columns b <? 2 ^ 64).

(** The user columns of a buffer: all but the two trailers. *)
Definition user_columns (b : Block) : Block := take (length b - 2) b.

(** A row the conversion table can place in every user column. *)
Definition row_fits (b : Block) (row : Tuple) : bool :=
  forallb (fun '(ci, elem) =>
      match column elem, row !! ci with
      | Some c, Some f => bool_decide (is_Some (spec_materialize c f))
      | _, _ => false
      end)
    (imap (fun ci elem => (ci, elem)) (user_columns b)).

(** The row of cells the specification appends for a source row with its
    sign and version. *)
Definition spec_row (b : Block) (row : Tuple) (sign version : Z) : list Cell :=
  imap (fun ci elem =>
      default COpaque (c ← column elem; f ← row !! ci; spec_materialize c f))
    (user_columns b)
  ++ [CNumber sign; CNumber version].

(** [sorting_changed] of the specification: some sorting index where the
    pre-image and the post-image differ. *)
Definition spec_sorting_changed (pre post : Tuple) (sorting_indices : list nat) : bool :=
  existsb (fun i => bool_decide (pre !! i ≠ post !! i)) sorting_indices.

(** The rows the specification emits for the pairs of an update event. *)
Definition spec_update_rows (b : Block) (sorting_indices : list nat) (version : Z)
    (pairs : list (Tuple * Tuple)) : list (list Cell) :=
  pairs ≫= (fun '(pre, post) =>
    if spec_sorting_changed pre post sorting_indices
    then [spec_row b pre (-1) version; spec_row b post 1 version]
    else [spec_row b post 1 version]).

(** The row sequence of an update event: pre-images at even indices,
    post-images at odd ones. *)
Definition rows_of_pairs (pairs : list (Tuple * Tuple)) : list Tuple :=
  pairs ≫= (fun '(pre, post) => [pre; post]).

(** The rows a writer materializes under a mask: all of them under the
    empty mask, otherwise those whose entry is set. *)
Fixpoint select_rows (mask : list bool) (index : nat) (rows_data : list Tuple) : list Tuple :=
  match rows_data with
  | [] => []
  | row_data :: rest =>
      let selected := select_rows mask (S index) rest in
      match mask with
      | [] => row_data :: selected
      | _ => if default false (mask !! index) then row_data :: selected else selected
      end
  end.

Definition field_of (row_data : Tuple) (column_index : nat) : Field :=
  default Field_Null (row_data !! column_index).

(** ** Vocabulary of the proofs about the writer *)

(** The value of a result, or a given one where it is a throw. *)
Definition unwrap {A} (dflt : A) (r : Result A) : A :=
  match r with Ok a => a | Throw _ => dflt end.

(** The cell [insertDefault] leaves in a column. *)
Definition default_cell (c : IColumn) : Cell :=
  match c with
  | ColumnVector _ _ => CNumber 0
  | ColumnString _ => CString ""
  | ColumnFixedString n _ => CString (zero_bytes n)
  | _ => COpaque
  end.

(** The cell a field leaves in a column that is not nullable: the default
    under a null that the null map records, the table's cell otherwise. *)
Definition plain_cell (assert_nullable : bool) (c : IColumn) (f : Field) : Cell :=
  if assert_nullable && Field_isNull f then default_cell c
  else default COpaque (spec_materialize c f).

(** The null-map entries written for the selected rows. *)
Definition null_flags (assert_nullable : bool) (column_index : nat) (selected : list Tuple) : list Z :=
  if assert_nullable
  then (fun r => if Field_isNull (field_of r column_index) then 1 else 0) <$> selected
  else [].

(** Two columns of one class and element type. *)
Definition same_class (c c' : IColumn) : Prop :=
  match c, c' with
  | ColumnVector T _, ColumnVector T' _ => T = T'
  | ColumnString _, ColumnString _ => True
  | ColumnFixedString n _, ColumnFixedString n' _ => n = n'
  | _, _ => False
  end.

(** What a write of the selected rows does to one column, seen through its
    cells. *)
Definition written (c c' : IColumn) (cells : list Cell) : Prop :=
  IColumn_supported c' = true
  /\ IColumn_size c' = (IColumn_size c + length cells)%nat
  /\ IColumn_cells c' = IColumn_cells c ++ cells
  /\ (forall f, spec_materialize c' f = spec_materialize c f).

(** The cells the selected rows leave in column [ci]. *)
Definition column_cells (c : IColumn) (ci : nat) (sel : list Tuple) : list Cell :=
  (fun r => default COpaque (spec_materialize c (field_of r ci))) <$> sel.

(** [b'] is [b] with one cell of each image appended to each column, image
    by image. *)
Definition Block_extended (b b' : Block) (images : list (list Cell)) : Prop :=
  length b' = length b
  /\ trailers_ready b' = true
  /\ forall ci elem, b !! ci = Some elem ->
       exists c c', column elem = Some c
         /\ b' !! ci = Some (mkColumn (Some c') (name elem))
         /\ written c c' ((fun img => default COpaque (img !! ci)) <$> images).

(** The rows an update event materializes, each with its sign, and the
    mask of its row sequence, pair by pair. *)
Definition update_emitted (sorting_indices : list nat) (pairs : list (Tuple * Tuple))
    : list (Tuple * Z) :=
  pairs ≫= (fun '(pre, post) =>
    if spec_sorting_changed pre post sorting_indices
    then [(pre, -1); (post, 1)]
    else [(post, 1)]).

Definition update_mask (sorting_indices : list nat) (pairs : list (Tuple * Tuple)) : list bool :=
  pairs ≫= (fun '(pre, post) => [spec_sorting_changed pre post sorting_indices; true]).

(** The state a row event leaves when its writer returns [bytes] and the
    block [b']. *)
Definition after_row_event (s : SyncState) (table : string) (b' : Block) (sorting : list nat)
    (written_rows : nat) (bytes block_bytes : Z) : SyncState :=
  mkSync
    (Buffers_add (Z.of_nat (Block_rows b')) block_bytes (Z.of_nat written_rows) bytes
       (set_data (insert table (b', sorting)) (buffers s)))
    (mkMetadata (binlog_file (metadata s)) (binlog_position (metadata s))
       (to_UInt64 (version (metadata s) + 1)))
    (store s) (client_position s).

(** Two states of the thread that differ at most in the buffer of one
    table. *)
Definition same_but_table (table : string) (s s' : SyncState) : Prop :=
  metadata s' = metadata s
  /\ store s' = store s
  /\ client_position s' = client_position s
  /\ database (buffers s') = database (buffers s)
  /\ max_block_rows (buffers s') = max_block_rows (buffers s)
  /\ max_block_bytes (buffers s') = max_block_bytes (buffers s)
  /\ total_blocks_rows (buffers s') = total_blocks_rows (buffers s)
  /\ total_blocks_bytes (buffers s') = total_blocks_bytes (buffers s)
  /\ forall t, t <> table -> data (buffers s') !! t = data (buffers s) !! t.

(** ** A table with an integer key and a string value *)

(** The table of the scenarios: [k Int32, v String], sorting key [k], and
    the two materialized trailers. *)
Definition scenario_block : Block :=
  [mkColumn (Some (ColumnVector Int32 [])) "k";
   mkColumn (Some (ColumnString [])) "v";
   mkColumn (Some (ColumnVector Int8 [])) "_sign";
   mkColumn (Some (ColumnVector UInt64 [])) "_version"].

Definition scenario_storage : StorageInMemoryMetadata :=
  mkStorage scenario_block ["k"] ["k"; "v"; "_sign"; "_version"] ["k"; "v"].

(** The thread of database [db] before its first event, at a given
    version, and once [getTableDataBuffer] has created the buffer of table
    [t]. *)
Definition scenario_at (version : Z) : SyncState :=
  mkSync (mkBuffers "db" ∅ 0 0 0 0)
    (mkMetadata "binlog.000001" 4 version)
    (mkStore {[ ("db", "t") := scenario_storage ]} [])
    (mkPosition "binlog.000001" 120).

Definition scenario_fetched_at (version : Z) : SyncState :=
  mkSync (mkBuffers "db" {[ "t" := (scenario_block, [0%nat]) ]} 0 0 0 0)
    (mkMetadata "binlog.000001" 4 version)
    (mkStore {[ ("db", "t") := scenario_storage ]} [])
    (mkPosition "binlog.000001" 120).

Definition scenario_state : SyncState := scenario_at 41.

Definition scenario_row : Tuple := [Field_UInt64 5; Field_String "a"].

(** ** What a flush leaves in the journal *)

(** The context [tryToExecuteQuery] runs a query under. *)
Definition scoped (query_context : Context) (database : string) : Context :=
  mkContext (if String.eqb database "" then current_database query_context else database)
    (insert_allow_materialized_columns query_context) (secondary_query query_context).

(** The INSERT [getTableOutput] opens for a table with materialized
    columns included: all physical columns are listed. *)
Definition insert_with_materialized (table_name : string) (storage : StorageInMemoryMetadata)
    : string :=
  "/*Materialize MySQL step 1: execute dump data*/ "
    +:+ "INSERT INTO " +:+ backQuoteIfNeed table_name +:+ "("
    +:+ String.concat ", " (getAllPhysical storage) +:+ ")" +:+ " VALUES".

(** The effects of flushing the given buffers in order: for each table the
    INSERT over all its physical columns, under a context that allows
    materialized columns, then the copy of its whole block. *)
Fixpoint flushed (database : string) (context : Context)
    (tables : list (string * BufferAndSortingColumns)) (effects : list Effect) : Prop :=
  match tables with
  | [] => effects = []
  | (table_name, (block, _)) :: rest =>
      exists storage rest_effects,
        effects =
          ExecuteQuery (scoped (createQueryContext context) database)
            (insert_with_materialized table_name storage)
          :: CopyData table_name (getAllPhysical storage) block
          :: rest_effects
        /\ flushed database context rest rest_effects
  end.

(** The rows all buffers hold together. *)
Definition Buffers_rows_sum (b : Buffers) : Z :=
  foldr (fun '(_, (block, _)) acc => Z.of_nat (Block_rows block) + acc) 0
    (map_to_list (data b)).

(** An update of the value of row [k = 1]: the sorting key is unchanged. *)
Definition scenario_update : list Tuple :=
  [[Field_UInt64 1; Field_String "a"]; [Field_UInt64 1; Field_String "b"]].

(** The scenario thread with one buffered row of table [t] and the
    counters that one write of it leaves. *)
Definition scenario_buffered : SyncState :=
  mkSync
    (mkBuffers "db"
       {[ "t" := ([mkColumn (Some (ColumnVector Int32 [5])) "k";
                   mkColumn (Some (ColumnString ["a"])) "v";
                   mkColumn (Some (ColumnVector Int8 [1])) "_sign";
                   mkColumn (Some (ColumnVector UInt64 [42])) "_version"], [0%nat]) ]}
       1 14 1 14)
    (mkMetadata "binlog.000001" 4 42)
    (mkStore {[ ("db", "t") := scenario_storage ]} [])
    (mkPosition "binlog.000001" 190).

(** A store that accepts every query, and sinks that accept or refuse
    every block. *)
Definition accept_query (query : string) (query_context : Context)
    (tables : gmap (string * string) StorageInMemoryMetadata)
    : Result (BlockIO * gmap (string * string) StorageInMemoryMetadata) :=
  Ok (mkBlockIO true, tables).

Definition accept_copy (table_name : string) (block : Block) : option Thrown := None.

Definition refuse_copy (table_name : string) (block : Block) : option Thrown :=
  Some (Exception "Cannot write to table" (OTHER_ERROR 1)).

Definition scenario_context : Context := mkContext "default" false false.

(** The answer of the source when two of the four variables have the
    required value, when all have, and the answer to the version query. *)
Definition variables_two_of_four : Block :=
  [mkColumn (Some (ColumnString ["log_bin"; "binlog_format"])) "Variable_name";
   mkColumn (Some (ColumnString ["ON"; "ROW"])) "Value"].

Definition variables_all_four : Block :=
  [mkColumn (Some (ColumnString
      ["binlog_format"; "binlog_row_image"; "default_authentication_plugin"; "log_bin"]))
     "Variable_name";
   mkColumn (Some (ColumnString ["ROW"; "FULL"; "mysql_native_password"; "ON"])) "Value"].

Definition version_answer : Block :=
  [mkColumn (Some (ColumnString ["8.0.21"])) "version"].

Definition scenario_fetched : SyncState := scenario_fetched_at 41.

(** An update that moves row [k = 1] to [k = 2], after one that keeps it. *)
Definition scenario_pairs : list (Tuple * Tuple) :=
  [([Field_UInt64 1; Field_String "a"], [Field_UInt64 1; Field_String "b"]);
   ([Field_UInt64 1; Field_String "b"], [Field_UInt64 2; Field_String "b"])].

(** Collaborators to run the scenarios with: a narrowing that keeps the
    low 32 bits, fixed strings that take what fits and pad it, a byte per
    row, and names that need no quoting. *)
Definition example_narrow (bits : Z) : Z := bits mod 2 ^ 32.

Definition example_fixed_insert (n : nat) (s : string) : Result string :=
  if (String.length s <=? n)%nat
  then Ok (s +:+ zero_bytes (n - String.length s))
  else Throw (Exception "Too large string for FixedString column" (OTHER_ERROR 131)).

Definition example_byteSize (c : IColumn) : Z := Z.of_nat (IColumn_size c).

Definition example_backQuote (s : string) : string := s.

(** Settings with [max_flush_data_time] of 1000 ms, and a client that has
    no event to give and reports the deadline it was asked to wait for as
    its position. *)
Definition scenario_settings : MaterializeMySQLSettings :=
  mkSettings 65536 1048576 1048576 1073741824 1000.

Definition waiting_client (deadline : Z) : option BinlogEvent * Position :=
  (None, mkPosition "deadline" deadline).

(** ** The dump of the source tables *)

(** Modelled from the spec: the tables [getTablesIterator] visits, those
    present in the target database when the iterator is made, whatever the
    loop then drops. The model visits them in the order of [map_to_list]. *)
Definition database_tables (database : string)
    (tables : gmap (string * string) StorageInMemoryMetadata) : list string :=
  (fun entry => entry.1.2) <$> filter (fun entry => entry.1.1 = database) (map_to_list tables).

(** The loop of [cleanOutdatedTables] over the iterator. *)
Fixpoint drop_tables (database_name_ : string) (context : Context) (names : list string)
    : M Store unit :=
  match names with
  | [] => mret tt
  | iterator_name :: rest =>
      let query_context := createQueryContext context in
      let comment := "Materialize MySQL step 1: execute MySQL DDL for dump data" in
      let table_name := backQuoteIfNeed database_name_ +:+ "." +:+ backQuoteIfNeed iterator_name in
      _ ← tryToExecuteQuery (" DROP TABLE " +:+ table_name) query_context database_name_ comment;
      drop_tables database_name_ context rest
  end.

(** [cleanOutdatedTables]; the DDL guard it holds is a lock and is left
    out. *)
Definition cleanOutdatedTables (database_name_ : string) (context : Context) : M Store unit :=
  fun store =>
    drop_tables database_name_ context (database_tables database_name_ (catalog store)) store.

(** The connection to the source, as far as the dump uses it: what
    [copyData(input, *out, is_cancelled)] writes into the sink of the rows
    a [SELECT] on the connection reads, until it returns or throws. *)
Abbreviation Connection := (string -> list Block * option Thrown)%type.

(** [MySQLBlockInputStream input(connection, query, ...)] followed by
    [copyData(input, *out, is_cancelled)]. *)
Definition dump_copy (connection : Connection) (select_query : string)
    (sink : BlockOutputStream) : M Store unit :=
  fun store =>
    let '(blocks, thrown) := connection select_query in
    let store' :=
      mkStore (catalog store)
        (journal store ++ (CopyData (sink_table sink) (sink_columns sink) <$> blocks)) in
    match thrown with
    | Some e => (Throw e, store')
    | None => (Ok tt, store')
    end.

(** [dumpDataForTables]. [need_dumping_tables] is a [std::unordered_map]
    from the name of a table to its [CREATE] query, visited in an order of
    its own; the model takes it as the list of its entries in that order.
    [is_cancelled] gives what the call in the condition of the loop returns
    at each iteration. [tryToExecuteQuery] has set the current database of
    [query_context] by the time [getTableOutput] is given it. *)
Fixpoint dumpDataForTables (connection : Connection)
    (need_dumping_tables : list (string * string))
    (query_prefix database_name_ mysql_database_name_ : string) (context : Context)
    (is_cancelled : nat -> bool) (iteration : nat) : M Store unit :=
  match need_dumping_tables with
  | [] => mret tt
  | (table_name, create_query) :: rest =>
      if is_cancelled iteration then mret tt
      else
        let query_context := createQueryContext context in
        let comment := "Materialize MySQL step 1: execute MySQL DDL for dump data" in
        _ ← tryToExecuteQuery (query_prefix +:+ " " +:+ create_query) query_context
              database_name_ comment;
        out ← getTableOutput database_name_ table_name (scoped query_context database_name_) false;
        _ ← dump_copy connection ("SELECT * FROM " +:+ backQuoteIfNeed mysql_database_name_ +:+ "."
                         +:+ backQuoteIfNeed table_name) out;
        dumpDataForTables connection rest query_prefix database_name_ mysql_database_name_ context
          is_cancelled (S iteration)
  end.

(** The effect of dropping a table of a database. *)
Definition dropped (database_name_ : string) (context : Context) (iterator_name : string) : Effect :=
  ExecuteQuery (scoped (createQueryContext context) database_name_)
    ("/*Materialize MySQL step 1: execute MySQL DDL for dump data*/ "
       +:+ " DROP TABLE " +:+ backQuoteIfNeed database_name_ +:+ "." +:+ backQuoteIfNeed iterator_name).

(** The entries of a list up to the first iteration at which the loop
    reads that it is cancelled. *)
Fixpoint until_cancelled {A : Type} (is_cancelled : nat -> bool) (iteration : nat) (l : list A)
    : list A :=
  match l with
  | [] => []
  | x :: rest =>
      if is_cancelled iteration then []
      else x :: until_cancelled is_cancelled (S iteration) rest
  end.

(** The INSERT [getTableOutput] opens for a table without materialized
    columns: the ordinary columns are listed. *)
Definition insert_ordinary (table_name : string) (storage : StorageInMemoryMetadata) : string :=
  "/*Materialize MySQL step 1: execute dump data*/ "
    +:+ "INSERT INTO " +:+ backQuoteIfNeed table_name +:+ "("
    +:+ String.concat ", " (getOrdinary storage) +:+ ")" +:+ " VALUES".

(** The effects of dumping the given tables in order, from the catalog
    the store has on entry: for each table the store accepts the [CREATE]
    query behind the prefix, then the INSERT over the ordinary columns of
    the storage its catalog holds for the table once the [CREATE] query has
    run, for which it opens an output stream, and the blocks of the source
    are copied into it. The last argument is the catalog at the end. *)
Fixpoint dumped (connection : Connection)
    (query_prefix database_name_ mysql_database_name_ : string) (context : Context)
    (tables : list (string * string))
    (catalog_before : gmap (string * string) StorageInMemoryMetadata)
    (effects : list Effect)
    (catalog_after : gmap (string * string) StorageInMemoryMetadata) : Prop :=
  match tables with
  | [] => effects = [] /\ catalog_after = catalog_before
  | (table_name, create_query) :: rest =>
      let query_context := scoped (createQueryContext context) database_name_ in
      let create :=
        "/*Materialize MySQL step 1: execute MySQL DDL for dump data*/ "
          +:+ query_prefix +:+ " " +:+ create_query in
      exists res created storage inserted rest_effects,
        executeQuery_outcome create query_context catalog_before = Ok (res, created)
        /\ created !! (database_name_, table_name) = Some storage
        /\ executeQuery_outcome (insert_ordinary table_name storage) query_context created
           = Ok (mkBlockIO true, inserted)
        /\ effects =
             ExecuteQuery query_context create
             :: ExecuteQuery query_context (insert_ordinary table_name storage)
             :: (CopyData table_name (getOrdinary storage)
                   <$> (connection
                          ("SELECT * FROM " +:+ backQuoteIfNeed mysql_database_name_ +:+ "."
                             +:+ backQuoteIfNeed table_name)).1)
             ++ rest_effects
        /\ dumped connection query_prefix database_name_ mysql_database_name_ context rest
             inserted rest_effects catalog_after
  end.

(** ** Preparation *)

(** [getDatabase]: what [DatabaseCatalog::instance().getDatabase] returns
    is given; the [typeid_cast] succeeds on a [DatabaseMaterializeMySQL]
    only. *)
Inductive DatabaseClass :=
| DatabaseMaterializeMySQL
| DatabaseOfAnotherClass.

Definition getDatabase (DatabaseCatalog_getDatabase : string -> Result DatabaseClass)
    (database_name_ : string) : Result unit :=
  database ← DatabaseCatalog_getDatabase database_name_;
  match database with
  | DatabaseMaterializeMySQL => Ok tt
  | DatabaseOfAnotherClass =>
      Throw (Exception "LOGICAL_ERROR: cannot cast to DatabaseMaterializeMySQL, it is a bug."
               LOGICAL_ERROR)
  end.

(** What reaches the source beside the rows read: the statements run on a
    pooled connection, the calls on the replication client, and the sleep
    between two attempts. *)
Inductive SourceEffect :=
| ConnectionQuery (query : string)
| ClientConnect
| ClientStartBinlogDump (slave_id : Z) (replicate_db binlog_file_name : string) (binlog_pos : Z)
| SleepForMilliseconds (milliseconds : Z).

(** An entry of the pool: the rows a [SELECT] on it yields to the dump,
    and what [query(q).execute()] on it throws. *)
Record PoolEntry := mkEntry {
  entry_select : Connection;
  entry_execute : string -> option Thrown
}.

(** What one pass through the [try] block of [prepareSynchronized] meets:
    the answer of [pool.get()]; what the constructor of
    [MaterializeMetadata] leaves in [opened_transaction] and the metadata
    with its [need_dumping_tables] it builds, or its throw; what the dump
    reads of the cancellation flag; what the client throws; and the number
    [randomNumber] draws. *)
Record Attempt := mkAttempt {
  pool_get : Result PoolEntry;
  MaterializeMetadata_opened_transaction : bool;
  MaterializeMetadata_new : Result (MaterializeMetadata * list (string * string));
  dump_is_cancelled : nat -> bool;
  client_connect : option Thrown;
  randomNumber : Z;
  client_startBinlogDump : option Thrown
}.

(** What the thread finds around it: the databases of the catalog, the
    test [catch (const mysqlxx::ConnectionFailed &)] makes on an exception,
    the setting [max_wait_time_when_mysql_unavailable], and what the
    condition of the loop of [prepareSynchronized] reads of the
    cancellation flag at each iteration. *)
Record Surroundings := mkSurroundings {
  DatabaseCatalog_getDatabase : string -> Result DatabaseClass;
  is_ConnectionFailed : Thrown -> bool;
  max_wait_time_when_mysql_unavailable : Z;
  prepare_isCancelled : nat -> bool
}.

(** The objects [prepareSynchronized] works on: the target store, what has
    reached the source, and its two locals, [opened_transaction] and
    [connection] (null before the first [pool.get()]). *)
Record Preparing := mkPreparing {
  target : Store;
  source : list SourceEffect;
  opened_transaction : bool;
  connection : option PoolEntry
}.

Definition to_source (effect : SourceEffect) (thrown : option Thrown) : M Preparing unit :=
  fun st =>
    let st' := mkPreparing (target st) (source st ++ [effect]) (opened_transaction st)
                 (connection st) in
    match thrown with
    | Some e => (Throw e, st')
    | None => (Ok tt, st')
    end.

Definition set_opened_transaction (value : bool) : M Preparing unit :=
  modify (fun st => mkPreparing (target st) (source st) value (connection st)).

(** [connection->query(q).execute()]. *)
Definition connection_query (query : string) : M Preparing unit := fun st =>
  match connection st with
  | Some entry => to_source (ConnectionQuery query) (entry_execute entry query) st
  | None => (Throw (Undefined "null Entry"), st)
  end.

(** The state [metadata.transaction] and the loop of [synchronization]
    work on: the metadata, the target store, the empty
    [Buffers buffers(database_name)], and the client at the position of
    the metadata. *)
Definition thread_state (metadata : MaterializeMetadata) (target : Store) : SyncState :=
  mkSync (mkBuffers database_name ∅ 0 0 0 0) metadata target
    (mkPosition (binlog_file metadata) (binlog_position metadata)).

(** The [if (!metadata.need_dumping_tables.empty())] statement: the drop
    of the outdated tables and the dump, inside a transaction of the
    metadata at its own position. *)
Definition dump_in_transaction (entry : PoolEntry) (a : Attempt)
    (metadata : MaterializeMetadata) (need_dumping_tables : list (string * string))
    : M Preparing MaterializeMetadata :=
  match need_dumping_tables with
  | [] => mret metadata
  | _ =>
      fun st =>
        let body :=
          on_store
            (_ ← cleanOutdatedTables database_name global_context;
             dumpDataForTables (entry_select entry) need_dumping_tables query_prefix
               database_name mysql_database_name global_context (dump_is_cancelled a) 0) in
        let '(r, s') :=
          transaction (mkPosition (binlog_file metadata) (binlog_position metadata)) body
            (thread_state metadata (target st)) in
        let 'mkSync _ metadata' target' _ := s' in
        (match r with Ok _ => Ok metadata' | Throw e => Throw e end,
         mkPreparing target' (source st) (opened_transaction st) (connection st))
  end.

(** The [try] block of [prepareSynchronized]. *)
Definition prepare_try (around : Surroundings) (a : Attempt) : M Preparing MaterializeMetadata :=
  entry ← (fun st =>
             match pool_get a with
             | Ok entry =>
                 (Ok entry,
                  mkPreparing (target st) (source st) (opened_transaction st) (Some entry))
             | Throw e => (Throw e, st)
             end);
  _ ← set_opened_transaction false;
  _ ← lift (getDatabase (DatabaseCatalog_getDatabase around) database_name);
  _ ← set_opened_transaction (MaterializeMetadata_opened_transaction a);
  '(metadata, need_dumping_tables) ← lift (MaterializeMetadata_new a);
  metadata ← dump_in_transaction entry a metadata need_dumping_tables;
  opened ← gets opened_transaction;
  _ ← (if (opened : bool) then connection_query "COMMIT" else mret tt);
  _ ← to_source ClientConnect (client_connect a);
  _ ← to_source
        (ClientStartBinlogDump (randomNumber a) mysql_database_name
           (binlog_file metadata) (binlog_position metadata))
        (client_startBinlogDump a);
  mret metadata.

(** The handler of [prepareSynchronized]: it returns when the loop goes
    on, and throws what leaves the function. *)
Definition prepare_catch (around : Surroundings) (e : Thrown) : M Preparing unit :=
  opened ← gets opened_transaction;
  _ ← (if (opened : bool) then connection_query "ROLLBACK" else mret tt);
  if is_ConnectionFailed around e
  then to_source (SleepForMilliseconds (max_wait_time_when_mysql_unavailable around)) None
  else throw e.

(** [prepareSynchronized], on the attempts the surroundings allow: [None]
    when the loop would go on after the last of them. *)
Fixpoint prepareSynchronized (around : Surroundings) (iteration : nat) (attempts : list Attempt)
    (st : Preparing) : option (Result (option MaterializeMetadata) * Preparing) :=
  if prepare_isCancelled around iteration then Some (Ok None, st)
  else
    match attempts with
    | [] => None
    | a :: rest =>
        match prepare_try around a st with
        | (Ok metadata, st') => Some (Ok (Some metadata), st')
        | (Throw e, st') =>
            match prepare_catch around e st' with
            | (Ok _, st'') => prepareSynchronized around (S iteration) rest st''
            | (Throw e', st'') => Some (Throw e', st'')
            end
        end
    end.

(** ** The thread *)

(** Modelled from the spec: the watch of the loop, [watch = now()] and
    [now() - watch], in milliseconds and in [UInt64]. *)
Definition elapsedMilliseconds (watch now : Z) : Z := to_UInt64 (now - watch).

(** What one turn of the loop of [synchronization] meets: the clock when
    the deadline is computed, the answer of the client, the clock after
    the event and the clock at [watch.restart()]. *)
Record Turn := mkTurn {
  now_at_read : Z;
  readOneBinlogEvent : Z -> option BinlogEvent * Position;
  now_after_event : Z;
  now_at_restart : Z
}.

(** The loop of [synchronization], on the turns the surroundings allow;
    [isCancelled] gives what its condition reads at each iteration. *)
Fixpoint synchronization_loop (settings : MaterializeMySQLSettings) (isCancelled : nat -> bool)
    (iteration : nat) (turns : list Turn) (watch : Z) (s : SyncState)
    : option (Result unit * SyncState) :=
  if isCancelled iteration then Some (Ok tt, s)
  else
    match turns with
    | [] => None
    | turn :: rest =>
        match synchronization_turn settings
                (elapsedMilliseconds watch (now_at_read turn)) (readOneBinlogEvent turn)
                (elapsedMilliseconds watch (now_after_event turn)) s with
        | (Ok restarted, s') =>
            synchronization_loop settings isCancelled (S iteration) rest
              (if restarted then now_at_restart turn else watch) s'
        | (Throw e, s') => Some (Throw e, s')
        end
    end.

(** How [synchronization] ends: what it leaves in the target store and at
    the source, the exception [setException] has put on the database, and
    the exception that leaves the function, if any. *)
Record ThreadEnd := mkThreadEnd {
  end_target : Store;
  end_source : list SourceEffect;
  database_exception : option Thrown;
  escaped : option Thrown
}.

(** The handler of [synchronization]:
    [getDatabase(database_name).setException(std::current_exception())]. *)
Definition synchronization_catch (around : Surroundings) (e : Thrown)
    (target : Store) (source : list SourceEffect) : ThreadEnd :=
  match getDatabase (DatabaseCatalog_getDatabase around) database_name with
  | Ok _ => mkThreadEnd target source (Some e) None
  | Throw e' => mkThreadEnd target source None (Some e')
  end.

(** [synchronization]: the clock is read when the watch is made. *)
Definition synchronization (around : Surroundings) (attempts : list Attempt)
    (settings : MaterializeMySQLSettings) (isCancelled : nat -> bool)
    (now_at_start : Z) (turns : list Turn) (st : Preparing) : option ThreadEnd :=
  match prepareSynchronized around 0 attempts st with
  | None => None
  | Some (Throw e, st') => Some (synchronization_catch around e (target st') (source st'))
  | Some (Ok None, st') => Some (mkThreadEnd (target st') (source st') None None)
  | Some (Ok (Some metadata), st') =>
      match synchronization_loop settings isCancelled 0 turns now_at_start
              (thread_state metadata (target st')) with
      | None => None
      | Some (Ok _, s) => Some (mkThreadEnd (store s) (source st') None None)
      | Some (Throw e, s) => Some (synchronization_catch around e (store s) (source st'))
      end
  end.

(** ** Vocabulary of the further properties *)

(** The values an integer element type holds: the bounds [lo <= x < hi]. *)
Definition integer_range (T : NumberType) : option (Z * Z) :=
  match T with
  | Int8 => Some (- 2 ^ 7, 2 ^ 7)
  | Int16 => Some (- 2 ^ 15, 2 ^ 15)
  | Int32 => Some (- 2 ^ 31, 2 ^ 31)
  | Int64 => Some (- 2 ^ 63, 2 ^ 63)
  | UInt8 => Some (0, 2 ^ 8)
  | UInt16 => Some (0, 2 ^ 16)
  | UInt32 => Some (0, 2 ^ 32)
  | UInt64 => Some (0, 2 ^ 64)
  | Float32 | Float64 => None
  end.

(** The conversion the writer applies in the branch of [ColumnVector T]. *)
Definition branch_convert (T : NumberType) : Field -> Result Z :=
  if bool_decide (T = Int32) then Int32_of_field else convert_number T.

(** A column the writer has no branch for: of another class, possibly
    under layers of [ColumnNullable]. *)
Fixpoint bottoms_in_other (c : IColumn) : bool :=
  match c with
  | ColumnNullable nested _ => bottoms_in_other nested
  | ColumnOther _ => true
  | _ => false
  end.

(** A field the [ColumnInt32] branch has no arm for. *)
Definition not_an_integer (f : Field) : bool :=
  match f with
  | Field_UInt64 _ | Field_Int64 _ => false
  | _ => true
  end.

(** The pairs of an update whose sorting key changes. *)
Definition changed_pairs (sorting_indices : list nat) (pairs : list (Tuple * Tuple)) : nat :=
  length (List.filter (fun '(pre, post) => spec_sorting_changed pre post sorting_indices) pairs).


(** The table of a row event. *)
Definition row_event_table (event : BinlogEvent) : option string :=
  match event with
  | WriteRowsEvent table _ | UpdateRowsEvent table _ | DeleteRowsEvent table _ => Some table
  | _ => None
  end.

(** A query sent the way [createQueryContext] prepares it: as a secondary
    query, with materialized columns allowed in an INSERT. *)
Definition as_secondary_query (effect : Effect) : Prop :=
  match effect with
  | ExecuteQuery query_context _ =>
      insert_allow_materialized_columns query_context = true
      /\ secondary_query query_context = true
  | _ => True
  end.

(* ================================================================= *)
(** * Properties *)

(** ** Machine integers and the MEDIUMINT path *)

Lemma to_UInt64_small (x : Z) : 0 <= x < 2 ^ 64 -> to_UInt64 x = x.
Proof. intros H. unfold to_UInt64, to_unsigned. now apply Z.mod_small. Qed.

Lemma land_pow2 (a n : Z) :
  0 <= n -> Z.land a (2 ^ n) = if Z.testbit a n then 2 ^ n else 0.
Proof.
  intros Hn. apply Z.bits_inj'. intros m Hm.
  rewrite Z.land_spec, Z.pow2_bits_eqb by lia.
  destruct (Z.eqb_spec n m) as [->|Hne].
  - destruct (Z.testbit a m) eqn:E; simpl.
    + rewrite Z.pow2_bits_eqb by lia. now rewrite Z.eqb_refl.
    + now rewrite Z.bits_0.
  - rewrite andb_false_r. destruct (Z.testbit a n).
    + rewrite Z.pow2_bits_eqb by lia. symmetry. now apply Z.eqb_neq.
    + now rewrite Z.bits_0.
Qed.

Lemma int24_extend_testbit (num : Z) :
  int24_extend num =
  to_Int32 (if Z.testbit num 23 then Z.lor (to_UInt32 num) 0xFF000000 else to_UInt32 num).
Proof.
  unfold int24_extend. change 0x800000 with (2 ^ 23). rewrite land_pow2 by lia.
  destruct (Z.testbit num 23); reflexivity.
Qed.

Lemma to_Int32_to_UInt32 (x : Z) : to_Int32 (to_UInt32 x) = to_Int32 x.
Proof.
  unfold to_Int32, to_UInt32, to_signed, to_unsigned. f_equal.
  change (2 ^ (32 - 1)) with 2147483648. change (2 ^ 32) with 4294967296.
  rewrite Zplus_mod_idemp_l. reflexivity.
Qed.

Lemma to_Int32_small (x : Z) : -2147483648 <= x < 2147483648 -> to_Int32 x = x.
Proof.
  intros H. unfold to_Int32, to_signed.
  change (2 ^ (32 - 1)) with 2147483648. change (2 ^ 32) with 4294967296.
  rewrite Z.mod_small by lia. lia.
Qed.

Lemma to_Int32_range (x : Z) : -2147483648 <= to_Int32 x < 2147483648.
Proof.
  unfold to_Int32, to_signed.
  change (2 ^ (32 - 1)) with 2147483648. change (2 ^ 32) with 4294967296.
  pose proof (Z.mod_pos_bound (x + 2147483648) 4294967296). lia.
Qed.

Lemma lor_high_byte (x : Z) : 0 <= x < 2 ^ 24 -> Z.lor x 0xFF000000 = x + 0xFF000000.
Proof.
  intros H. rewrite (Z.add_nocarry_lxor x), Z.lxor_lor; try reflexivity.
  all: apply Z.bits_inj'; intros n Hn; rewrite Z.land_spec, Z.bits_0.
  all: destruct (Z_lt_le_dec n 24) as [Hlt|Hge].
  all: try (change 0xFF000000 with (Z.shiftl 255 24);
            rewrite Z.shiftl_spec_low by lia; apply andb_false_r).
  all: rewrite (Z.bits_above_log2 x n); [reflexivity|lia|].
  all: destruct (Z.eq_dec x 0) as [->|Hx]; [simpl; lia|].
  all: apply Z.log2_lt_pow2; [lia|];
       apply Z.lt_le_trans with (2 ^ 24); [lia|apply Z.pow_le_mono_r; lia].
Qed.

Lemma testbit_23_of_24 (x : Z) : 0 <= x < 2 ^ 24 -> Z.testbit x 23 = (2 ^ 23 <=? x).
Proof.
  intros H. destruct (Z.leb_spec (2 ^ 23) x).
  - apply Z.testbit_true; [lia|].
    assert (x / 2 ^ 23 = 1) as ->; [|reflexivity].
    symmetry. apply Z.div_unique with (x - 2 ^ 23); lia.
  - apply Z.testbit_false; [lia|]. rewrite Z.div_small by lia. reflexivity.
Qed.

(** On a 24-bit payload the MEDIUMINT arm is the sign extension from 24
    bits. *)
Lemma int24_extend_sign_extends (v : Z) :
  int24_extend (to_Int32 (v mod 2 ^ 24)) = to_signed 24 v.
Proof.
  assert (H : 0 <= v mod 2 ^ 24 < 2 ^ 24) by (apply Z.mod_pos_bound; lia).
  set (x := v mod 2 ^ 24) in *.
  rewrite (to_Int32_small x) by lia.
  rewrite int24_extend_testbit, testbit_23_of_24 by lia.
  unfold to_signed. change (24 - 1) with 23.
  destruct (Z.leb_spec (2 ^ 23) x).
  - unfold to_UInt32, to_unsigned. rewrite (Z.mod_small x) by lia.
    rewrite lor_high_byte by lia. unfold to_Int32, to_signed.
    change (2 ^ (32 - 1)) with 2147483648. change (2 ^ 32) with 4294967296.
    replace (x + 0xFF000000 + 2147483648)
      with ((x - 2 ^ 24 + 2147483648) + 1 * 4294967296) by lia.
    rewrite Z.mod_add by lia. rewrite Z.mod_small by lia.
    replace (v + 2 ^ 23) with ((x + 2 ^ 23 - 2 ^ 24) + (v / 2 ^ 24 + 1) * 2 ^ 24).
    + rewrite Z.mod_add by lia. rewrite Z.mod_small by lia. lia.
    + unfold x. pose proof (Z.div_mod v (2 ^ 24)). lia.
  - rewrite to_Int32_to_UInt32, to_Int32_small by lia.
    replace (v + 2 ^ 23) with ((x + 2 ^ 23) + (v / 2 ^ 24) * 2 ^ 24).
    + rewrite Z.mod_add by lia. rewrite Z.mod_small by lia. lia.
    + unfold x. pose proof (Z.div_mod v (2 ^ 24)). lia.
Qed.

(** C8. Writing a signed 64-bit field into a signed 32-bit column narrows
    it to 32 bits and then, if bit 23 is set, ORs it with 0xFF000000, and
    leaves it unchanged otherwise; on a 24-bit payload this is the sign
    extension from 24 bits. 0x800000 is stored as -8388608, whose 32-bit
    pattern is 0xFF800000, and 0x000001 as 1. An unsigned 64-bit field is
    narrowed without sign extension. *)
Theorem C8_int32_column_sign_extends_from_24_bits :
  (forall v, Int32_of_field (Field_Int64 v) =
     Ok (let num := to_Int32 v in
         if Z.testbit num 23 then to_Int32 (Z.lor (to_UInt32 num) 0xFF000000) else num))
  /\ (forall v, Int32_of_field (Field_Int64 (v mod 2 ^ 24)) = Ok (to_signed 24 v))
  /\ Int32_of_field (Field_Int64 0x800000) = Ok (-8388608)
  /\ to_UInt32 (-8388608) = 0xFF800000
  /\ Int32_of_field (Field_Int64 0x000001) = Ok 1
  /\ (forall v, Int32_of_field (Field_UInt64 v) = Ok (to_Int32 v))
  /\ Int32_of_field (Field_UInt64 0x800000) = Ok 8388608
  /\ (forall data,
        writeFieldsToColumn false (ColumnVector Int32 data)
          [[Field_Int64 0x800000]; [Field_Int64 0x000001]; [Field_UInt64 0x800000]]
          0%nat [] []
        = Ok (ColumnVector Int32 (data ++ [-8388608; 1; 8388608]), [])).
Proof.
  repeat split; try reflexivity.
  - intros v. cbv [Int32_of_field Field_get_Int32 mbind Result_bind].
    rewrite int24_extend_testbit.
    destruct (Z.testbit (to_Int32 v) 23); [reflexivity|].
    f_equal. rewrite to_Int32_to_UInt32. apply to_Int32_small, to_Int32_range.
  - intros v. cbv [Int32_of_field Field_get_Int32 mbind Result_bind].
    now rewrite int24_extend_sign_extends.
  - intros data. cbn. now rewrite <- !app_assoc.
Qed.

(** ** The read deadline *)

Lemma read_deadline_in_time (max_flush_time elapsed : Z) :
  0 <= elapsed <= max_flush_time -> max_flush_time < 2 ^ 64 ->
  read_deadline max_flush_time elapsed = Z.max 1 (max_flush_time - elapsed).
Proof.
  intros H1 H2. unfold read_deadline, to_UInt64, to_unsigned.
  rewrite Z.mod_small by lia. reflexivity.
Qed.

Lemma read_deadline_late (max_flush_time elapsed : Z) :
  0 <= max_flush_time < elapsed -> elapsed < 2 ^ 64 ->
  read_deadline max_flush_time elapsed = 2 ^ 64 - (elapsed - max_flush_time).
Proof.
  intros H1 H2. unfold read_deadline, to_UInt64, to_unsigned.
  replace (max_flush_time - elapsed)
    with ((2 ^ 64 - (elapsed - max_flush_time)) + (-1) * 2 ^ 64) by lia.
  rewrite Z.mod_add by lia. rewrite Z.mod_small by lia. lia.
Qed.

(** C2. One millisecond after [max_flush_time] has elapsed the subtraction
    wraps around in [UInt64], and the deadline handed to the read is
    2^64 - 1 ms where max(1 ms, max_flush_time - elapsed) is 1 ms; this is
    the deadline the client is given in that turn of the loop. *)
Theorem C2_read_deadline_wraps_after_max_flush_time :
  read_deadline 1000 1001 = 18446744073709551615
  /\ Z.max 1 (1000 - 1001) = 1
  /\ client_position
       (synchronization_turn scenario_settings 1001 waiting_client 1001 scenario_state).2
     = mkPosition "deadline" 18446744073709551615.
Proof. repeat split. Qed.

(** ** The column writer *)

Lemma write_step_selected {A} (assert_nullable : bool) (dflt : A) (convert : Field -> Result A)
    (g : Field -> A) (column_index : nat) (mask : list bool) (index : nat) (r : Tuple)
    (f : Field) (t : Target A) :
  r !! column_index = Some f ->
  mask = [] \/ mask !! index = Some true ->
  (if assert_nullable && Field_isNull f then g f = dflt else convert f = Ok (g f)) ->
  write_step assert_nullable dflt convert column_index mask index r t
  = Ok (mkTarget (target_data t ++ [g f])
          (target_null_map t ++ if assert_nullable then [if Field_isNull f then 1 else 0] else [])).
Proof.
  intros Hf Hmask Hg. unfold write_step, Tuple_at, write_data_to_null_map.
  rewrite Hf. cbn [mbind Result_bind].
  assert (Hm : match mask with
               | [] => Ok false
               | _ :: _ => match mask !! index with
                           | Some b => Ok (negb b)
                           | None => Throw (StdException "vector::_M_range_check")
                           end
               end = Ok false).
  { destruct Hmask as [->|Hb]; [reflexivity|]. rewrite Hb. now destruct mask. }
  rewrite Hm. cbn [mbind Result_bind].
  destruct assert_nullable; cbn [andb] in Hg.
  - destruct (Field_isNull f); cbn [mbind Result_bind].
    + now rewrite Hg.
    + rewrite Hg. reflexivity.
  - cbn [mbind Result_bind]. rewrite Hg. cbn [mbind Result_bind].
    unfold insertValue. destruct t; cbn. now rewrite app_nil_r.
Qed.

Lemma write_step_masked {A} (assert_nullable : bool) (dflt : A) (convert : Field -> Result A)
    (column_index : nat) (mask : list bool) (index : nat) (r : Tuple)
    (t : Target A) :
  is_Some (r !! column_index) ->
  mask !! index = Some false ->
  write_step assert_nullable dflt convert column_index mask index r t = Ok t.
Proof.
  intros [f Hf] Hb. unfold write_step, Tuple_at, write_data_to_null_map.
  rewrite Hf, Hb. destruct mask; [discriminate|]. reflexivity.
Qed.

Lemma write_loop_spec {A} (assert_nullable : bool) (dflt : A) (convert : Field -> Result A)
    (g : Field -> A) (column_index : nat) (mask : list bool) (rows_data : list Tuple) :
  forall (index : nat) (t : Target A),
    mask = [] \/ length mask = (index + length rows_data)%nat ->
    Forall (fun r => is_Some (r !! column_index)) rows_data ->
    Forall (fun r => let f := field_of r column_index in
               if assert_nullable && Field_isNull f then g f = dflt else convert f = Ok (g f))
      (select_rows mask index rows_data) ->
    for_rows (write_step assert_nullable dflt convert column_index mask) index rows_data t
    = Ok (mkTarget
            (target_data t ++ ((fun r => g (field_of r column_index)) <$> select_rows mask index rows_data))
            (target_null_map t ++
               if assert_nullable
               then (fun r => if Field_isNull (field_of r column_index) then 1 else 0)
                      <$> select_rows mask index rows_data
               else [])).
Proof.
  induction rows_data as [|r rest IH]; intros index t Hmask Hall Hsel.
  - simpl. destruct t. simpl. rewrite !app_nil_r. destruct assert_nullable; now rewrite ?app_nil_r.
  - apply Forall_cons in Hall as [[f Hf] Hall].
    assert (Hfo : field_of r column_index = f) by (unfold field_of; now rewrite Hf).
    assert (Hmask' : mask = [] \/ length mask = (S index + length rest)%nat).
    { destruct Hmask as [->|H]; [now left|right]. simpl in H. lia. }
    specialize (IH (S index)).
    cbn [for_rows select_rows] in Hsel |- *.
    assert (Hcase : (mask = [] \/ mask !! index = Some true) \/ mask !! index = Some false).
    { destruct Hmask as [->|H]; [now left; left|].
      destruct (lookup_lt_is_Some_2 mask index) as [[|] Hb]; [simpl in H; lia|left; now right|now right]. }
    destruct Hcase as [Hsel1|Hoff].
    + assert (Hsel' : Forall (fun r => if assert_nullable && Field_isNull (field_of r column_index)
                         then g (field_of r column_index) = dflt
                         else convert (field_of r column_index) = Ok (g (field_of r column_index)))
                        (r :: select_rows mask (S index) rest)).
      { destruct Hsel1 as [->|Hb]; [exact Hsel|]. rewrite Hb in Hsel. destruct mask; [discriminate|exact Hsel]. }
      assert (Hlist : match mask with
                      | [] => r :: select_rows mask (S index) rest
                      | _ :: _ => if default false (mask !! index)
                                  then r :: select_rows mask (S index) rest
                                  else select_rows mask (S index) rest
                      end = r :: select_rows mask (S index) rest).
      { destruct Hsel1 as [->|Hb]; [reflexivity|]. rewrite Hb. now destruct mask. }
      rewrite Hlist. clear Hlist Hsel.
      apply Forall_cons in Hsel' as [Hg Hrest]. rewrite Hfo in Hg.
      rewrite (write_step_selected _ _ _ g _ _ _ _ f) by assumption.
      cbn [mbind Result_bind]. rewrite IH by assumption.
      cbn [target_data target_null_map]. rewrite !fmap_cons, Hfo, <- !app_assoc.
      destruct assert_nullable; [reflexivity|now rewrite !app_nil_r].
    + rewrite write_step_masked by (eauto). cbn [mbind Result_bind].
      rewrite Hoff in Hsel |- *. destruct mask; [discriminate|]. cbn [default] in *.
      apply IH; assumption.
Qed.

Lemma spec_materialize_vector T data f cell :
  spec_materialize (ColumnVector T data) f = Some cell ->
  exists z, cell = CNumber z /\
    (if bool_decide (T = Int32) then Int32_of_field else convert_number T) f = Ok z.
Proof.
  destruct T, f; cbn; intros H; inversion H; subst; eexists; split; reflexivity.
Qed.

Lemma spec_materialize_string data f cell :
  spec_materialize (ColumnString data) f = Some cell ->
  exists z, cell = CString z /\ Field_get_String f = Ok z.
Proof. destruct f; cbn; intros H; inversion H; subst; eexists; split; reflexivity. Qed.

Lemma spec_materialize_fixed_string n data f cell :
  spec_materialize (ColumnFixedString n data) f = Some cell ->
  exists z, cell = CString z /\
    (s ← Field_get_String f; ColumnFixedString_insertData n s) = Ok z.
Proof.
  destruct f; cbn; intros H; try discriminate.
  destruct (ColumnFixedString_insertData n s); inversion H; subst. eexists; split; reflexivity.
Qed.

Lemma write_loop_plain {A} (assert_nullable : bool) (dflt : A) (convert : Field -> Result A)
    (inj : A -> Cell) (c : IColumn) (rows_data : list Tuple) (column_index : nat)
    (mask : list bool) (data : list A) (null_map_column : list Z) :
  (forall f cell, spec_materialize c f = Some cell -> exists a, cell = inj a /\ convert f = Ok a) ->
  default_cell c = inj dflt ->
  mask = [] \/ length mask = length rows_data ->
  Forall (fun r => is_Some (r !! column_index)) rows_data ->
  Forall (fun r => let f := field_of r column_index in
             assert_nullable && Field_isNull f = true \/ is_Some (spec_materialize c f))
    (select_rows mask 0 rows_data) ->
  exists xs,
    write_loop assert_nullable dflt convert rows_data column_index mask
      (mkTarget data null_map_column)
    = Ok (mkTarget (data ++ xs)
            (null_map_column ++ null_flags assert_nullable column_index (select_rows mask 0 rows_data)))
    /\ inj <$> xs
       = (fun r => plain_cell assert_nullable c (field_of r column_index)) <$> select_rows mask 0 rows_data.
Proof.
  intros Hconv Hdflt Hmask Hall Hsel.
  set (g := fun f => if assert_nullable && Field_isNull f then dflt else unwrap dflt (convert f)).
  exists ((fun r => g (field_of r column_index)) <$> select_rows mask 0 rows_data). split.
  - unfold write_loop. rewrite (write_loop_spec _ _ _ g); [reflexivity|assumption|assumption|].
    eapply Forall_impl; [exact Hsel|]. cbv zeta. intros r Hr. unfold g.
    destruct (assert_nullable && Field_isNull (field_of r column_index)) eqn:E; [reflexivity|].
    destruct Hr as [Hr|[cell Hr]]; [congruence|].
    apply Hconv in Hr as (z & _ & Hz). now rewrite Hz.
  - rewrite <- list_fmap_compose.
    apply Forall_fmap_ext_1. eapply Forall_impl; [exact Hsel|]. cbv zeta. intros r Hr.
    unfold compose, g, plain_cell.
    destruct (assert_nullable && Field_isNull (field_of r column_index)) eqn:E; [now rewrite Hdflt|].
    destruct Hr as [Hr|[cell Hr]]; [congruence|]. rewrite Hr. cbn [default].
    apply Hconv in Hr as (z & -> & Hz). now rewrite Hz.
Qed.

Lemma writeFieldsToColumn_plain (assert_nullable : bool) (c : IColumn) (rows_data : list Tuple)
    (column_index : nat) (mask : list bool) (null_map_column : list Z) :
  is_plain c = true ->
  mask = [] \/ length mask = length rows_data ->
  Forall (fun r => is_Some (r !! column_index)) rows_data ->
  Forall (fun r => let f := field_of r column_index in
             assert_nullable && Field_isNull f = true \/ is_Some (spec_materialize c f))
    (select_rows mask 0 rows_data) ->
  exists c',
    writeFieldsToColumn assert_nullable c rows_data column_index mask null_map_column
      = Ok (c', null_map_column ++ null_flags assert_nullable column_index (select_rows mask 0 rows_data))
    /\ same_class c c'
    /\ IColumn_cells c' = IColumn_cells c ++
         ((fun r => plain_cell assert_nullable c (field_of r column_index)) <$> select_rows mask 0 rows_data).
Proof.
  intros Hplain Hmask Hall Hsel.
  destruct c as [T data|data|n data| |]; try discriminate.
  - destruct (write_loop_plain assert_nullable 0
                (if bool_decide (T = Int32) then Int32_of_field else convert_number T)
                CNumber (ColumnVector T data) rows_data column_index mask data null_map_column)
      as (xs & Hloop & Hxs); try assumption; try reflexivity.
    { intros f cell. apply spec_materialize_vector. }
    exists (ColumnVector T (data ++ xs)). split; [|split; [reflexivity|]].
    + destruct T; cbn [writeFieldsToColumn];
        match type of Hloop with
        | context [bool_decide ?P] =>
            let b := eval vm_compute in (bool_decide P) in
            change (bool_decide P) with b in Hloop
        end;
        cbv iota in Hloop; rewrite Hloop; reflexivity.
    + cbn [IColumn_cells]. now rewrite fmap_app, Hxs.
  - destruct (write_loop_plain assert_nullable "" Field_get_String
                CString (ColumnString data) rows_data column_index mask data null_map_column)
      as (xs & Hloop & Hxs); try assumption; try reflexivity.
    { intros f cell. apply spec_materialize_string. }
    exists (ColumnString (data ++ xs)). split; [|split; [reflexivity|]].
    + cbn [writeFieldsToColumn]. rewrite Hloop. reflexivity.
    + cbn [IColumn_cells]. now rewrite fmap_app, Hxs.
  - destruct (write_loop_plain assert_nullable (zero_bytes n)
                (fun value => s ← Field_get_String value; ColumnFixedString_insertData n s)
                CString (ColumnFixedString n data) rows_data column_index mask data null_map_column)
      as (xs & Hloop & Hxs); try assumption; try reflexivity.
    { intros f cell. apply spec_materialize_fixed_string. }
    exists (ColumnFixedString n (data ++ xs)). split; [|split; [reflexivity|]].
    + cbn [writeFieldsToColumn]. rewrite Hloop. reflexivity.
    + cbn [IColumn_cells]. now rewrite fmap_app, Hxs.
Qed.

Lemma IColumn_cells_length (c : IColumn) :
  IColumn_supported c = true -> length (IColumn_cells c) = IColumn_size c.
Proof.
  destruct c as [T data|data|n data|nested null_map|rows]; cbn; intros H;
    rewrite ?length_fmap; try reflexivity; try discriminate.
  apply andb_true_iff in H as [Hp Hs]. apply Nat.eqb_eq in Hs.
  rewrite length_zip_with.
  destruct nested; try discriminate; cbn in Hs |- *; rewrite ?length_fmap; lia.
Qed.

Lemma same_class_plain (c c' : IColumn) :
  same_class c c' -> is_plain c' = true /\ forall f, spec_materialize c' f = spec_materialize c f.
Proof.
  destruct c, c'; cbn; intros H; try contradiction; subst; split; reflexivity.
Qed.

Lemma writeFieldsToColumn_written (c : IColumn) (rows_data : list Tuple)
    (column_index : nat) (mask : list bool) :
  IColumn_supported c = true ->
  mask = [] \/ length mask = length rows_data ->
  Forall (fun r => is_Some (r !! column_index)) rows_data ->
  Forall (fun r => is_Some (spec_materialize c (field_of r column_index)))
    (select_rows mask 0 rows_data) ->
  exists c',
    writeFieldsToColumn false c rows_data column_index mask [] = Ok (c', [])
    /\ written c c'
         ((fun r => default COpaque (spec_materialize c (field_of r column_index)))
            <$> select_rows mask 0 rows_data).
Proof.
  intros Hsup Hmask Hall Hsel.
  destruct (is_plain c) eqn:Hplain.
  - destruct (writeFieldsToColumn_plain false c rows_data column_index mask [])
      as (c' & Hw & Hclass & Hcells); try assumption.
    { eapply Forall_impl; [exact Hsel|]. cbv zeta. intros r Hr. now right. }
    apply same_class_plain in Hclass as [Hp' Hspec].
    assert (Hsup' : IColumn_supported c' = true) by (destruct c'; try discriminate; reflexivity).
    exists c'. split; [exact Hw|]. split; [exact Hsup'|]. split; [|split; [exact Hcells|exact Hspec]].
    rewrite <- !IColumn_cells_length by assumption. rewrite Hcells, length_app. reflexivity.
  - destruct c as [| | |nested null_map|]; try discriminate.
    cbn in Hsup. apply andb_true_iff in Hsup as [Hp Hs]. apply Nat.eqb_eq in Hs.
    destruct (writeFieldsToColumn_plain true nested rows_data column_index mask null_map)
      as (nested' & Hw & Hclass & Hcells); try assumption.
    { eapply Forall_impl; [exact Hsel|]. cbv zeta. intros r [cell Hr].
      destruct (field_of r column_index) eqn:Ef; [now left|right..];
        cbn in Hr; rewrite Hr; eauto. }
    apply same_class_plain in Hclass as [Hp' Hspec].
    set (sel := select_rows mask 0 rows_data) in *.
    assert (Hlen : length (IColumn_cells nested) = length null_map).
    { rewrite IColumn_cells_length; [exact Hs|]. destruct nested; try discriminate; reflexivity. }
    assert (Hsize' : IColumn_size nested' = (length null_map + length sel)%nat).
    { rewrite <- IColumn_cells_length by (destruct nested'; try discriminate; reflexivity).
      rewrite Hcells, length_app, length_fmap. lia. }
    exists (ColumnNullable nested' (null_map ++ null_flags true column_index sel)).
    split; [|split; [|split; [|split]]].
    + cbn [writeFieldsToColumn]. rewrite Hw. reflexivity.
    + cbn. rewrite Hp'. cbn. apply Nat.eqb_eq. rewrite Hsize', length_app. unfold null_flags.
      rewrite length_fmap. reflexivity.
    + cbn [IColumn_size]. rewrite Hsize', Hs, length_fmap. reflexivity.
    + cbn [IColumn_cells]. rewrite Hcells. rewrite zip_with_app by exact Hlen. f_equal.
      unfold null_flags. rewrite zip_with_fmap_l, zip_with_fmap_r, zip_with_diag.
      apply Forall_fmap_ext_1. eapply Forall_impl; [exact Hsel|]. cbv beta. intros r [cell Hr].
      unfold plain_cell.
      destruct (field_of r column_index) eqn:Ef; cbn in Hr |- *; try reflexivity.
    + intros f. cbn. destruct f; try reflexivity; apply Hspec.
Qed.

(** ** The loop over the user columns *)

Lemma M_bind_Ok {St A B} (m : M St A) (k : A -> M St B) (s s' : St) (a : A) :
  m s = (Ok a, s') -> (m ≫= k) s = k a s'.
Proof. intros H. unfold mbind, M_bind. now rewrite H. Qed.

Lemma M_bind_Throw {St A B} (m : M St A) (k : A -> M St B) (s s' : St) (e : Thrown) :
  m s = (Throw e, s') -> (m ≫= k) s = (Throw e, s').
Proof. intros H. unfold mbind, M_bind. now rewrite H. Qed.

Lemma write_user_column_ok (rows_data : list Tuple) (mask : list bool) (ci : nat)
    (b : Block) (elem : ColumnWithTypeAndName) (c c' : IColumn) (nm : list Z) :
  b !! ci = Some elem -> column elem = Some c ->
  writeFieldsToColumn false c rows_data ci mask [] = Ok (c', nm) ->
  write_user_column rows_data mask ci b = (Ok tt, <[ci := mkColumn (Some c') (name elem)]> b).
Proof.
  intros Hb Hc Hw. unfold write_user_column.
  erewrite M_bind_Ok; [|unfold take_column; rewrite Hb, Hc; reflexivity].
  erewrite M_bind_Ok; [|unfold lift; rewrite Hw; reflexivity].
  unfold set_column. rewrite list_lookup_insert_eq by (eapply lookup_lt_Some; eauto).
  cbn [name]. now rewrite list_insert_insert_eq.
Qed.

Lemma for_range_write (rows_data : list Tuple) (mask : list bool) :
  mask = [] \/ length mask = length rows_data ->
  forall (count from : nat) (b : Block),
    (from + count <= length b)%nat ->
    (forall ci elem, (from <= ci < from + count)%nat -> b !! ci = Some elem ->
       exists c, column elem = Some c /\ IColumn_supported c = true
         /\ Forall (fun r => is_Some (r !! ci)) rows_data
         /\ Forall (fun r => is_Some (spec_materialize c (field_of r ci)))
              (select_rows mask 0 rows_data)) ->
    exists b',
      for_range (write_user_column rows_data mask) from count b = (Ok tt, b')
      /\ length b' = length b
      /\ (forall ci, ~ (from <= ci < from + count)%nat -> b' !! ci = b !! ci)
      /\ (forall ci elem c, (from <= ci < from + count)%nat ->
            b !! ci = Some elem -> column elem = Some c ->
            exists c', b' !! ci = Some (mkColumn (Some c') (name elem))
               /\ written c c' (column_cells c ci (select_rows mask 0 rows_data))).
Proof.
  intros Hmask. induction count as [|count IH]; intros from b Hlen Hcols.
  - exists b. cbn. repeat split; try reflexivity. intros; lia.
  - destruct (lookup_lt_is_Some_2 b from) as [elem Helem]; [lia|].
    destruct (Hcols from elem) as (c & Hc & Hsup & Hall & Hsel); [lia|assumption|].
    destruct (writeFieldsToColumn_written c rows_data from mask Hsup Hmask Hall Hsel)
      as (c' & Hw & Hwritten).
    pose proof (write_user_column_ok rows_data mask from b elem c c' [] Helem Hc Hw) as Hstep.
    set (b1 := <[from := mkColumn (Some c') (name elem)]> b) in *.
    destruct (IH (S from) b1) as (b' & Hrun & Hlen' & Hout & Hin).
    { unfold b1. rewrite length_insert. lia. }
    { intros ci e Hci He. unfold b1 in He. rewrite list_lookup_insert_ne in He by lia.
      apply Hcols; [lia|assumption]. }
    exists b'. split; [|split; [|split]].
    + cbn [for_range]. erewrite M_bind_Ok by exact Hstep. exact Hrun.
    + rewrite Hlen'. unfold b1. apply length_insert.
    + intros ci Hci. rewrite Hout by lia. unfold b1. apply list_lookup_insert_ne. lia.
    + intros ci e c0 Hci He Hc0.
      destruct (decide (ci = from)) as [->|Hne].
      * rewrite Helem in He. inversion He; subst e. rewrite Hc in Hc0. inversion Hc0; subst c0.
        exists c'. split; [|exact Hwritten].
        rewrite Hout by lia. unfold b1. apply list_lookup_insert_eq. eapply lookup_lt_Some; eauto.
      * apply Hin; [lia| |assumption]. unfold b1. rewrite list_lookup_insert_ne by lia. exact He.
Qed.

Lemma columns_minus_small (b : Block) (k : nat) :
  (k <= length b)%nat -> Block_columns b < 2 ^ 64 ->
  columns_minus b (Z.of_nat k) = (length b - k)%nat.
Proof.
  intros Hk Hn. unfold columns_minus, to_UInt64, to_unsigned, Block_columns in *.
  rewrite Z.mod_small by lia. lia.
Qed.

Lemma Block_bytes_sum_Ok (b : Block) :
  Forall (fun elem => is_Some (column elem)) b -> exists n, Block_bytes_sum b = Ok n.
Proof.
  induction 1 as [|elem b [c Hc] _ [n IH]]; [now exists 0|].
  cbn. rewrite Hc, IH. cbn. eauto.
Qed.

(** ** Ready buffers and their trailers *)

Lemma trailers_ready_inv (b : Block) :
  trailers_ready b = true ->
  exists e1 e2 d1 d2,
    (2 <= length b)%nat
    /\ b !! (length b - 2)%nat = Some e1 /\ column e1 = Some (ColumnVector Int8 d1)
    /\ b !! (length b - 1)%nat = Some e2 /\ column e2 = Some (ColumnVector UInt64 d2).
Proof.
  unfold trailers_ready. intros H.
  destruct (drop (length b - 2) b) as [|e1 [|e2 [|]]] eqn:Ed; try discriminate.
  destruct (column e1) as [[[] d1| | | |]|] eqn:E1; try discriminate.
  destruct (column e2) as [[[] d2| | | |]|] eqn:E2; try discriminate.
  assert (Hlen : (2 <= length b)%nat).
  { pose proof (f_equal length Ed) as Hl. rewrite length_drop in Hl. cbn in Hl. lia. }
  exists e1, e2, d1, d2. repeat split; try assumption.
  - pose proof (lookup_drop b (length b - 2) 0) as Hd. rewrite Ed in Hd. cbn in Hd.
    rewrite Nat.add_0_r in Hd. now rewrite <- Hd.
  - pose proof (lookup_drop b (length b - 2) 1) as Hd. rewrite Ed in Hd. cbn in Hd.
    replace (length b - 2 + 1)%nat with (length b - 1)%nat in Hd by lia. now rewrite <- Hd.
Qed.

Lemma trailers_ready_intro (b : Block) e1 e2 d1 d2 :
  (2 <= length b)%nat ->
  b !! (length b - 2)%nat = Some e1 -> column e1 = Some (ColumnVector Int8 d1) ->
  b !! (length b - 1)%nat = Some e2 -> column e2 = Some (ColumnVector UInt64 d2) ->
  trailers_ready b = true.
Proof.
  intros Hlen H1 Hc1 H2 Hc2. unfold trailers_ready.
  assert (Hd : drop (length b - 2) b = [e1; e2]).
  { apply list_eq. intros i. rewrite lookup_drop.
    destruct i as [|[|i]]; cbn.
    - now rewrite Nat.add_0_r.
    - now replace (length b - 2 + 1)%nat with (length b - 1)%nat by lia.
    - apply lookup_ge_None. lia. }
  now rewrite Hd, Hc1, Hc2.
Qed.

Lemma Block_ready_inv (b : Block) :
  Block_ready b = true ->
  (forall ci elem, b !! ci = Some elem ->
     exists c, column elem = Some c /\ IColumn_supported c = true
               /\ IColumn_size c = Block_rows b)
  /\ trailers_ready b = true
  /\ Block_columns b < 2 ^ 64.
Proof.
  unfold Block_ready. rewrite !andb_true_iff. intros [[Hall Htr] Hn].
  split; [|split; [assumption|now apply Z.ltb_lt]].
  intros ci elem Hlk. rewrite forallb_forall in Hall.
  specialize (Hall elem). unfold column_ready in Hall.
  destruct (column elem) as [c|]; [|discriminate Hall; apply list_elem_of_In; eapply list_elem_of_lookup_2; eauto].
  exists c. split; [reflexivity|].
  apply andb_true_iff in Hall as [Hs Hr]; [|apply list_elem_of_In; eapply list_elem_of_lookup_2; eauto].
  split; [assumption|now apply Nat.eqb_eq].
Qed.

Lemma row_fits_inv (b : Block) (row : Tuple) :
  row_fits b row = true ->
  forall ci elem c, (ci < length b - 2)%nat -> b !! ci = Some elem -> column elem = Some c ->
    is_Some (row !! ci) /\ is_Some (spec_materialize c (field_of row ci)).
Proof.
  unfold row_fits. rewrite forallb_forall. intros H ci elem c Hci Hlk Hc.
  specialize (H (ci, elem)). cbn beta iota in H. rewrite Hc in H.
  assert (Hin : In (ci, elem) (imap (fun ci elem => (ci, elem)) (user_columns b))).
  { apply list_elem_of_In, list_elem_of_lookup. exists ci.
    rewrite list_lookup_imap. unfold user_columns. rewrite lookup_take_lt by lia. now rewrite Hlk. }
  specialize (H Hin). unfold field_of.
  destruct (row !! ci) as [f|]; [|discriminate]. cbn [default].
  apply bool_decide_eq_true in H. split; [eauto|exact H].
Qed.

Lemma trailers_written (b : Block) e1 e2 d1 d2 (signs versions : list Z) :
  (2 <= length b)%nat -> Block_columns b < 2 ^ 64 ->
  b !! (length b - 2)%nat = Some e1 -> column e1 = Some (ColumnVector Int8 d1) ->
  b !! (length b - 1)%nat = Some e2 -> column e2 = Some (ColumnVector UInt64 d2) ->
  (sign_position ← gets (fun data => columns_minus data 2);
   version_position ← gets (fun data => columns_minus data 1);
   sign_mutable_column ← take_column sign_position;
   version_mutable_column ← take_column version_position;
   sign_column_data ← lift (assert_cast Int8 sign_mutable_column);
   version_column_data ← lift (assert_cast UInt64 version_mutable_column);
   _ ← set_column sign_position (ColumnVector Int8 (sign_column_data ++ signs));
   set_column version_position (ColumnVector UInt64 (version_column_data ++ versions))) b
  = (Ok tt,
     <[(length b - 1)%nat := mkColumn (Some (ColumnVector UInt64 (d2 ++ versions))) (name e2)]>
       (<[(length b - 2)%nat := mkColumn (Some (ColumnVector Int8 (d1 ++ signs))) (name e1)]> b)).
Proof.
  intros Hlen Hn H1 Hc1 H2 Hc2.
  assert (Hp2 : columns_minus b 2 = (length b - 2)%nat) by (apply (columns_minus_small b 2); assumption || lia).
  assert (Hp1 : columns_minus b 1 = (length b - 1)%nat) by (apply (columns_minus_small b 1); assumption || lia).
  erewrite M_bind_Ok by reflexivity. erewrite M_bind_Ok by reflexivity.
  rewrite Hp2, Hp1.
  erewrite M_bind_Ok; [|unfold take_column; rewrite H1, Hc1; reflexivity].
  erewrite M_bind_Ok;
    [|unfold take_column; rewrite list_lookup_insert_ne by lia; rewrite H2, Hc2; reflexivity].
  erewrite M_bind_Ok by reflexivity. erewrite M_bind_Ok by reflexivity.
  erewrite M_bind_Ok;
    [|unfold set_column; rewrite list_lookup_insert_ne by lia;
      rewrite list_lookup_insert_eq by lia; reflexivity].
  unfold set_column.
  rewrite list_lookup_insert_ne by lia.
  rewrite list_lookup_insert_eq by (rewrite length_insert; lia). cbn [name].
  f_equal.
  apply list_eq. intros i.
  rewrite !list_lookup_insert, !length_insert.
  repeat case_decide; try reflexivity; lia.
Qed.

(** ** From columns to rows *)

Lemma Block_rows_head (b : Block) (elem : ColumnWithTypeAndName) (c : IColumn) :
  b !! 0%nat = Some elem -> column elem = Some c -> Block_rows b = IColumn_size c.
Proof. destruct b as [|e b]; [discriminate|]. cbn. intros [= ->] ->. reflexivity. Qed.

Lemma Block_extended_table (b b' : Block) (images : list (list Cell)) :
  Block_ready b = true ->
  Block_extended b b' images ->
  Forall (fun img => length img = length b) images ->
  Block_ready b' = true
  /\ Block_rows b' = (Block_rows b + length images)%nat
  /\ Block_table b' = Block_table b ++ images.
Proof.
  intros Hready (Hlen & Htr' & Hext) Himg.
  destruct (Block_ready_inv b Hready) as (Hcols & Htr & Hn).
  destruct (trailers_ready_inv b Htr) as (_ & _ & _ & _ & Hlen2 & _).
  assert (Hcol : forall ci elem', b' !! ci = Some elem' ->
            exists elem c c', b !! ci = Some elem /\ column elem = Some c
              /\ elem' = mkColumn (Some c') (name elem)
              /\ IColumn_size c = Block_rows b
              /\ IColumn_supported c = true
              /\ written c c' ((fun img => default COpaque (img !! ci)) <$> images)).
  { intros ci elem' Hlk'.
    destruct (lookup_lt_is_Some_2 b ci) as [elem Hlk].
    { rewrite <- Hlen. eapply lookup_lt_Some; eauto. }
    destruct (Hext ci elem Hlk) as (c & c' & Hc & Hb' & Hw).
    destruct (Hcols ci elem Hlk) as (c0 & Hc0 & Hsup & Hsize).
    rewrite Hc in Hc0. inversion Hc0; subst c0.
    exists elem, c, c'. rewrite Hb' in Hlk'. inversion Hlk'. repeat split; try assumption; apply Hw. }
  assert (Hrows : Block_rows b' = (Block_rows b + length images)%nat).
  { destruct (lookup_lt_is_Some_2 b' 0) as [elem' Hlk']; [lia|].
    destruct (Hcol 0%nat elem' Hlk') as (elem & c & c' & Hlk & Hc & -> & Hsize & _ & Hw).
    rewrite (Block_rows_head b' _ c' Hlk' eq_refl).
    destruct Hw as (_ & Hs & _). rewrite Hs, length_fmap, Hsize. reflexivity. }
  split; [|split; [exact Hrows|]].
  - unfold Block_ready. rewrite Htr'. unfold Block_columns in *. rewrite Hlen.
    rewrite andb_true_r. apply andb_true_iff. split; [|now apply Z.ltb_lt].
    apply forallb_forall. intros elem' Hin.
    apply list_elem_of_In, list_elem_of_lookup in Hin as [ci Hlk'].
    destruct (Hcol ci elem' Hlk') as (elem & c & c' & Hlk & Hc & -> & Hsize & _ & Hw).
    destruct Hw as (Hsup' & Hs & _). unfold column_ready. cbn [column].
    rewrite Hsup'. cbn. apply Nat.eqb_eq. rewrite Hs, Hrows, Hsize, length_fmap. reflexivity.
  - unfold Block_table. rewrite Hrows, seq_app, fmap_app. f_equal.
    + apply list_eq. intros i. rewrite !list_lookup_fmap.
      destruct (seq 0 (Block_rows b) !! i) as [i'|] eqn:Ei; [|reflexivity]. cbn.
      apply lookup_seq in Ei as [-> Hi]. cbn. f_equal.
      unfold Block_row. apply list_eq. intros ci. rewrite !list_lookup_fmap.
      destruct (b' !! ci) as [elem'|] eqn:Hlk'.
      * destruct (Hcol ci elem' Hlk') as (elem & c & c' & Hlk & Hc & -> & Hsize & Hsup & Hw).
        rewrite Hlk. cbn. f_equal. unfold cell_at. cbn [column]. rewrite Hc. cbn.
        destruct Hw as (_ & _ & Hcells & _). rewrite Hcells.
        rewrite lookup_app_l; [reflexivity|]. rewrite IColumn_cells_length by assumption. lia.
      * apply lookup_ge_None in Hlk'. rewrite Hlen in Hlk'.
        apply lookup_ge_None in Hlk'. now rewrite Hlk'.
    + apply list_eq. intros j. rewrite list_lookup_fmap.
      destruct (images !! j) as [img|] eqn:Ej.
      * rewrite lookup_seq_lt by (eapply lookup_lt_Some; eauto). cbn. f_equal.
        assert (Hil : length img = length b).
        { eapply (proj1 (Forall_lookup _ _) Himg); eauto. }
        unfold Block_row. apply list_eq. intros ci. rewrite list_lookup_fmap.
        destruct (b' !! ci) as [elem'|] eqn:Hlk'.
        -- destruct (Hcol ci elem' Hlk') as (elem & c & c' & Hlk & Hc & -> & Hsize & Hsup & Hw).
           cbn. unfold cell_at. cbn [column]. cbn.
           destruct Hw as (_ & _ & Hcells & _). rewrite Hcells.
           rewrite lookup_app_r by (rewrite IColumn_cells_length by assumption; lia).
           rewrite IColumn_cells_length by assumption.
           replace (Block_rows b + j - IColumn_size c)%nat with j by lia.
           rewrite list_lookup_fmap, Ej. cbn.
           destruct (lookup_lt_is_Some_2 img ci) as [cell Hcell].
           { rewrite Hil. eapply lookup_lt_Some; eauto. }
           now rewrite Hcell.
        -- cbn. symmetry. apply lookup_ge_None. apply lookup_ge_None in Hlk'. lia.
      * rewrite lookup_seq_ge by (apply lookup_ge_None in Ej; lia). reflexivity.
Qed.

(** ** The two writers extend the block by the rows of the specification *)

Lemma Forall_select_rows (P : Tuple -> Prop) (mask : list bool) (rows_data : list Tuple) :
  Forall P rows_data -> forall index, Forall P (select_rows mask index rows_data).
Proof.
  induction 1 as [|r rest Hr _ IH]; intros index; cbn; [constructor|].
  destruct mask; [constructor; auto|].
  destruct (default false (_ !! index)); [constructor|]; auto.
Qed.

Lemma select_rows_nil (rows_data : list Tuple) (index : nat) :
  select_rows [] index rows_data = rows_data.
Proof. revert index. induction rows_data as [|r rest IH]; intros index; cbn; [|rewrite IH]; reflexivity. Qed.

Lemma user_columns_length (b : Block) : length (user_columns b) = (length b - 2)%nat.
Proof. unfold user_columns. rewrite length_take. lia. Qed.

Lemma spec_row_length (b : Block) (r : Tuple) (s v : Z) :
  (2 <= length b)%nat -> length (spec_row b r s v) = length b.
Proof.
  intros H. unfold spec_row. rewrite length_app, length_imap, user_columns_length. cbn. lia.
Qed.

Lemma spec_row_user (b : Block) (r : Tuple) (s v : Z) ci elem c :
  (ci < length b - 2)%nat -> b !! ci = Some elem -> column elem = Some c ->
  is_Some (r !! ci) ->
  spec_row b r s v !! ci = Some (default COpaque (spec_materialize c (field_of r ci))).
Proof.
  intros Hci Hlk Hc [f Hf]. unfold spec_row.
  rewrite lookup_app_l by (rewrite length_imap, user_columns_length; lia).
  rewrite list_lookup_imap. unfold user_columns. rewrite lookup_take_lt by lia.
  rewrite Hlk. cbn. rewrite Hc. cbn. unfold field_of. rewrite Hf. reflexivity.
Qed.

Lemma spec_row_sign (b : Block) (r : Tuple) (s v : Z) :
  spec_row b r s v !! (length b - 2)%nat = Some (CNumber s)
  /\ ((2 <= length b)%nat -> spec_row b r s v !! (length b - 1)%nat = Some (CNumber v)).
Proof.
  unfold spec_row. split; [|intros H].
  - rewrite lookup_app_r by (rewrite length_imap, user_columns_length; lia).
    rewrite length_imap, user_columns_length, Nat.sub_diag. reflexivity.
  - rewrite lookup_app_r by (rewrite length_imap, user_columns_length; lia).
    rewrite length_imap, user_columns_length.
    replace (length b - 1 - (length b - 2))%nat with 1%nat by lia. reflexivity.
Qed.

Lemma user_columns_extended (b : Block) (rows_data : list Tuple) (mask : list bool) :
  Block_ready b = true ->
  mask = [] \/ length mask = length rows_data ->
  Forall (fun r => row_fits b r = true) rows_data ->
  exists b1,
    write_user_columns rows_data mask b = (Ok tt, b1)
    /\ length b1 = length b
    /\ (forall ci, (length b - 2 <= ci)%nat -> b1 !! ci = b !! ci)
    /\ (forall ci elem c, (ci < length b - 2)%nat ->
          b !! ci = Some elem -> column elem = Some c ->
          exists c', b1 !! ci = Some (mkColumn (Some c') (name elem))
             /\ written c c' (column_cells c ci (select_rows mask 0 rows_data))).
Proof.
  intros Hready Hmask Hfits.
  destruct (Block_ready_inv b Hready) as (Hcols & Htr & Hn).
  destruct (trailers_ready_inv b Htr) as (_ & _ & _ & _ & Hlen2 & _).
  destruct (for_range_write rows_data mask Hmask (length b - 2) 0 b) as (b1 & Hrun & Hl & Hout & Hin).
  { lia. }
  { intros ci elem Hci Hlk. destruct (Hcols ci elem Hlk) as (c & Hc & Hsup & _).
    exists c. split; [assumption|]. split; [assumption|]. split.
    - eapply Forall_impl; [exact Hfits|]. intros r Hr.
      eapply (row_fits_inv b r Hr ci elem c); [lia|assumption..].
    - apply Forall_select_rows. eapply Forall_impl; [exact Hfits|]. intros r Hr.
      eapply (row_fits_inv b r Hr ci elem c); [lia|assumption..]. }
  exists b1. split; [|split; [exact Hl|split]].
  - assert (Hp2 : columns_minus b 2 = (length b - 2)%nat)
      by (apply (columns_minus_small b 2); assumption || lia).
    unfold write_user_columns. erewrite M_bind_Ok by reflexivity.
    rewrite Hp2. exact Hrun.
  - intros ci Hci. apply Hout. lia.
  - intros ci elem c Hci. apply Hin. lia.
Qed.

Lemma written_trailer (T : NumberType) (d extra : list Z) :
  written (ColumnVector T d) (ColumnVector T (d ++ extra)) (CNumber <$> extra).
Proof.
  repeat split.
  - cbn. rewrite !length_app, length_fmap. reflexivity.
  - cbn. now rewrite fmap_app.
Qed.

Lemma extended_of_parts (b b1 : Block) (emitted : list (Tuple * Z)) (v : Z) e1 e2 d1 d2 :
  Block_ready b = true ->
  (2 <= length b)%nat ->
  b !! (length b - 2)%nat = Some e1 -> column e1 = Some (ColumnVector Int8 d1) ->
  b !! (length b - 1)%nat = Some e2 -> column e2 = Some (ColumnVector UInt64 d2) ->
  Forall (fun r => row_fits b r = true) (emitted.*1) ->
  length b1 = length b ->
  (forall ci, (length b - 2 <= ci)%nat -> b1 !! ci = b !! ci) ->
  (forall ci elem c, (ci < length b - 2)%nat ->
     b !! ci = Some elem -> column elem = Some c ->
     exists c', b1 !! ci = Some (mkColumn (Some c') (name elem))
        /\ written c c' (column_cells c ci (emitted.*1))) ->
  Block_extended b
    (<[(length b1 - 1)%nat := mkColumn (Some (ColumnVector UInt64 (d2 ++ repeat v (length (emitted.*2))))) (name e2)]>
       (<[(length b1 - 2)%nat := mkColumn (Some (ColumnVector Int8 (d1 ++ emitted.*2))) (name e1)]> b1))
    ((fun '(r, s) => spec_row b r s v) <$> emitted).
Proof.
  intros Hready Hlen2 H1 Hc1 H2 Hc2 Hfits Hl Hout Hin. rewrite Hl.
  split; [now rewrite !length_insert|]. split.
  - eapply trailers_ready_intro; rewrite ?length_insert, ?Hl; try exact Hlen2.
    + rewrite list_lookup_insert_ne by lia. apply list_lookup_insert_eq. lia.
    + reflexivity.
    + apply list_lookup_insert_eq. rewrite length_insert. lia.
    + reflexivity.
  - intros ci elem Hlk.
    destruct (decide (ci = length b - 1)%nat) as [->|Hne1];
      [|destruct (decide (ci = length b - 2)%nat) as [->|Hne2]].
    + rewrite H2 in Hlk. inversion Hlk; subst elem.
      exists (ColumnVector UInt64 d2), (ColumnVector UInt64 (d2 ++ repeat v (length (emitted.*2)))).
      split; [assumption|]. split; [apply list_lookup_insert_eq; rewrite length_insert; lia|].
      replace ((fun img => default COpaque (img !! (length b - 1)%nat)) <$>
                 ((fun '(r, s) => spec_row b r s v) <$> emitted))
        with (CNumber <$> repeat v (length (emitted.*2))); [apply written_trailer|].
      rewrite <- list_fmap_compose, length_fmap. clear - Hlen2.
      induction emitted as [|[r s] l IH]; [reflexivity|]. cbn. f_equal; [|exact IH].
      now rewrite (proj2 (spec_row_sign b r s v) Hlen2).
    + rewrite H1 in Hlk. inversion Hlk; subst elem.
      exists (ColumnVector Int8 d1), (ColumnVector Int8 (d1 ++ emitted.*2)).
      split; [assumption|]. split.
      { rewrite list_lookup_insert_ne by lia. apply list_lookup_insert_eq. lia. }
      replace ((fun img => default COpaque (img !! (length b - 2)%nat)) <$>
                 ((fun '(r, s) => spec_row b r s v) <$> emitted))
        with (CNumber <$> emitted.*2); [apply written_trailer|].
      rewrite <- !list_fmap_compose. apply list_fmap_ext. intros _ [r s] _. cbn.
      now rewrite (proj1 (spec_row_sign b r s v)).
    + assert (Hci : (ci < length b - 2)%nat).
      { apply lookup_lt_Some in Hlk. lia. }
      destruct (Block_ready_inv b Hready) as (Hcols & _ & _).
      destruct (Hcols ci elem Hlk) as (c & Hc & _ & _).
      destruct (Hin ci elem c Hci Hlk Hc) as (c' & Hb1 & Hw).
      exists c, c'. split; [assumption|]. split.
      { rewrite !list_lookup_insert_ne by lia. exact Hb1. }
      replace ((fun img => default COpaque (img !! ci)) <$>
                 ((fun '(r, s) => spec_row b r s v) <$> emitted))
        with (column_cells c ci (emitted.*1)); [exact Hw|].
      unfold column_cells. rewrite <- !list_fmap_compose.
      apply Forall_fmap_ext_1. rewrite Forall_fmap in Hfits.
      eapply Forall_impl; [exact Hfits|]. intros [r s] Hr. cbn in Hr |- *.
      destruct (row_fits_inv b r Hr ci elem c Hci Hlk Hc) as [Hsome _].
      now rewrite (spec_row_user b r s v ci elem c Hci Hlk Hc Hsome).
Qed.

Lemma Block_extended_columns (b b' : Block) (images : list (list Cell)) :
  Block_extended b b' images -> Forall (fun elem => is_Some (column elem)) b'.
Proof.
  intros (Hlen & _ & Hext). apply Forall_lookup. intros ci elem' Hlk'.
  destruct (lookup_lt_is_Some_2 b ci) as [elem Hlk].
  { rewrite <- Hlen. eapply lookup_lt_Some; eauto. }
  destruct (Hext ci elem Hlk) as (c & c' & _ & Hb' & _).
  rewrite Hb' in Hlk'. inversion Hlk'. cbn. eauto.
Qed.

Lemma Block_ready_columns (b : Block) :
  Block_ready b = true -> Forall (fun elem => is_Some (column elem)) b.
Proof.
  intros Hready. destruct (Block_ready_inv b Hready) as (Hcols & _).
  apply Forall_lookup. intros ci elem Hlk.
  destruct (Hcols ci elem Hlk) as (c & Hc & _). rewrite Hc. eauto.
Qed.

Lemma Block_bytes_Ok (b : Block) :
  Forall (fun elem => is_Some (column elem)) b -> exists n, Block_bytes b = (Ok n, b).
Proof.
  intros H. destruct (Block_bytes_sum_Ok b H) as [n Hn]. exists n. unfold Block_bytes. now rewrite Hn.
Qed.

Lemma onWriteOrDeleteData_extends (sign : Z) (rows_data : list Tuple) (v : Z) (b : Block) :
  Block_ready b = true ->
  Forall (fun r => row_fits b r = true) rows_data ->
  exists bytes b',
    onWriteOrDeleteData sign rows_data v b = (Ok bytes, b')
    /\ Block_extended b b' ((fun r => spec_row b r sign v) <$> rows_data).
Proof.
  intros Hready Hfits.
  destruct (Block_ready_inv b Hready) as (Hcols & Htr & Hn).
  destruct (trailers_ready_inv b Htr) as (e1 & e2 & d1 & d2 & Hlen2 & H1 & Hc1 & H2 & Hc2).
  destruct (Block_bytes_Ok b (Block_ready_columns b Hready)) as [n0 Hn0].
  destruct (user_columns_extended b rows_data [] Hready (or_introl eq_refl) Hfits)
    as (b1 & Hrun & Hl & Hout & Hin).
  rewrite select_rows_nil in Hin.
  set (emitted := (fun r => (r, sign)) <$> rows_data).
  assert (He1 : emitted.*1 = rows_data).
  { unfold emitted. rewrite <- list_fmap_compose. apply list_fmap_id. }
  assert (He2 : emitted.*2 = repeat sign (length rows_data)).
  { unfold emitted. rewrite <- list_fmap_compose. clear.
    induction rows_data; cbn; [|f_equal]; auto. }
  pose proof (extended_of_parts b b1 emitted v e1 e2 d1 d2 Hready Hlen2 H1 Hc1 H2 Hc2) as Hext.
  rewrite He1, He2, repeat_length in Hext. specialize (Hext Hfits Hl Hout Hin).
  replace ((fun '(r, s) => spec_row b r s v) <$> emitted)
    with ((fun r => spec_row b r sign v) <$> rows_data) in Hext
    by (unfold emitted; now rewrite <- list_fmap_compose).
  destruct (Block_bytes_Ok _ (Block_extended_columns _ _ _ Hext)) as [n1 Hn1].
  eexists _, _. split; [|exact Hext].
  unfold onWriteOrDeleteData.
  erewrite M_bind_Ok by exact Hn0.
  erewrite M_bind_Ok by exact Hrun.
  erewrite M_bind_Ok.
  2:{ unfold fillSignAndVersionColumnsData.
      apply (trailers_written b1 e1 e2 d1 d2); rewrite ?Hl; try assumption.
      - unfold Block_columns in *. now rewrite Hl.
      - rewrite Hout by lia. exact H1.
      - rewrite Hout by lia. exact H2. }
  erewrite M_bind_Ok by exact Hn1. reflexivity.
Qed.

Lemma differenceSortingKeys_spec (pre post : Tuple) (sorting : list nat) :
  Forall (fun i => is_Some (pre !! i) /\ is_Some (post !! i)) sorting ->
  differenceSortingKeys pre post sorting = Ok (spec_sorting_changed pre post sorting).
Proof.
  induction 1 as [|i rest [[a Ha] [c Hc]] _ IH]; [reflexivity|].
  cbn. unfold Tuple_at. rewrite Ha, Hc. cbn.
  destruct (decide (a = c)) as [->|Hne].
  - rewrite bool_decide_eq_false_2 by auto. rewrite bool_decide_eq_false_2 by auto. exact IH.
  - rewrite bool_decide_eq_true_2 by auto. rewrite bool_decide_eq_true_2 by congruence. reflexivity.
Qed.

Lemma writeable_rows_mask_pairs (sorting : list nat) (pairs : list (Tuple * Tuple)) :
  Forall (fun '(pre, post) =>
            Forall (fun i => is_Some (pre !! i) /\ is_Some (post !! i)) sorting) pairs ->
  writeable_rows_mask (rows_of_pairs pairs) sorting = Ok (update_mask sorting pairs).
Proof.
  induction 1 as [|[pre post] rest Hp _ IH]; [reflexivity|].
  cbn. rewrite (differenceSortingKeys_spec pre post sorting Hp). cbn.
  unfold rows_of_pairs in IH. rewrite IH. reflexivity.
Qed.

Lemma rows_of_pairs_length (pairs : list (Tuple * Tuple)) :
  length (rows_of_pairs pairs) = (2 * length pairs)%nat.
Proof.
  induction pairs as [|[pre post] rest IH]; [reflexivity|].
  change (rows_of_pairs ((pre, post) :: rest)) with (pre :: post :: rows_of_pairs rest).
  cbn [length]. rewrite IH. lia.
Qed.

Lemma update_mask_length (sorting : list nat) (pairs : list (Tuple * Tuple)) :
  length (update_mask sorting pairs) = (2 * length pairs)%nat.
Proof.
  induction pairs as [|[pre post] rest IH]; [reflexivity|].
  change (update_mask sorting ((pre, post) :: rest))
    with (spec_sorting_changed pre post sorting :: true :: update_mask sorting rest).
  cbn [length]. rewrite IH. lia.
Qed.

Lemma update_signs_emitted (sorting : list nat) (pairs : list (Tuple * Tuple)) :
  update_signs (update_mask sorting pairs) = (update_emitted sorting pairs).*2.
Proof.
  induction pairs as [|[pre post] rest IH]; [reflexivity|].
  cbn. unfold update_mask in IH. rewrite IH.
  unfold update_emitted. cbn. rewrite fmap_app.
  destruct (spec_sorting_changed pre post sorting); reflexivity.
Qed.

Lemma select_rows_emitted (sorting : list nat) (pairs : list (Tuple * Tuple)) :
  forall prefix : list bool,
    select_rows (prefix ++ update_mask sorting pairs) (length prefix) (rows_of_pairs pairs)
    = (update_emitted sorting pairs).*1.
Proof.
  induction pairs as [|[pre post] rest IH]; intros prefix; [reflexivity|].
  change (rows_of_pairs ((pre, post) :: rest)) with (pre :: post :: rows_of_pairs rest).
  change (update_mask sorting ((pre, post) :: rest))
    with (spec_sorting_changed pre post sorting :: true :: update_mask sorting rest).
  cbn [select_rows].
  specialize (IH (prefix ++ [spec_sorting_changed pre post sorting; true])).
  rewrite <- app_assoc, length_app in IH. cbn [app length] in IH.
  replace (length prefix + 2)%nat with (S (S (length prefix))) in IH by lia.
  rewrite IH.
  rewrite (lookup_app_r prefix _ (length prefix)) by lia.
  rewrite (lookup_app_r prefix _ (S (length prefix))) by lia.
  rewrite Nat.sub_diag. replace (S (length prefix) - length prefix)%nat with 1%nat by lia.
  cbn [lookup list_lookup default].
  unfold update_emitted. cbn. rewrite fmap_app.
  destruct prefix; destruct (spec_sorting_changed pre post sorting); reflexivity.
Qed.

Lemma spec_update_rows_emitted (b : Block) (sorting : list nat) (v : Z)
    (pairs : list (Tuple * Tuple)) :
  spec_update_rows b sorting v pairs
  = (fun '(r, s) => spec_row b r s v) <$> update_emitted sorting pairs.
Proof.
  induction pairs as [|[pre post] rest IH]; [reflexivity|].
  unfold spec_update_rows, update_emitted in *. cbn. rewrite fmap_app, <- IH.
  destruct (spec_sorting_changed pre post sorting); reflexivity.
Qed.

Lemma trailers_written_then {A} (k : M Block A) (b : Block) e1 e2 d1 d2 (signs versions : list Z) :
  (2 <= length b)%nat -> Block_columns b < 2 ^ 64 ->
  b !! (length b - 2)%nat = Some e1 -> column e1 = Some (ColumnVector Int8 d1) ->
  b !! (length b - 1)%nat = Some e2 -> column e2 = Some (ColumnVector UInt64 d2) ->
  (sign_position ← gets (fun data => columns_minus data 2);
   version_position ← gets (fun data => columns_minus data 1);
   sign_mutable_column ← take_column sign_position;
   version_mutable_column ← take_column version_position;
   sign_column_data ← lift (assert_cast Int8 sign_mutable_column);
   version_column_data ← lift (assert_cast UInt64 version_mutable_column);
   _ ← set_column sign_position (ColumnVector Int8 (sign_column_data ++ signs));
   _ ← set_column version_position (ColumnVector UInt64 (version_column_data ++ versions));
   k) b
  = k (<[(length b - 1)%nat := mkColumn (Some (ColumnVector UInt64 (d2 ++ versions))) (name e2)]>
         (<[(length b - 2)%nat := mkColumn (Some (ColumnVector Int8 (d1 ++ signs))) (name e1)]> b)).
Proof.
  intros Hlen Hn H1 Hc1 H2 Hc2.
  assert (Hp2 : columns_minus b 2 = (length b - 2)%nat) by (apply (columns_minus_small b 2); assumption || lia).
  assert (Hp1 : columns_minus b 1 = (length b - 1)%nat) by (apply (columns_minus_small b 1); assumption || lia).
  erewrite M_bind_Ok by reflexivity. erewrite M_bind_Ok by reflexivity.
  rewrite Hp2, Hp1.
  erewrite M_bind_Ok; [|unfold take_column; rewrite H1, Hc1; reflexivity].
  erewrite M_bind_Ok;
    [|unfold take_column; rewrite list_lookup_insert_ne by lia; rewrite H2, Hc2; reflexivity].
  erewrite M_bind_Ok by reflexivity. erewrite M_bind_Ok by reflexivity.
  erewrite M_bind_Ok;
    [|unfold set_column; rewrite list_lookup_insert_ne by lia;
      rewrite list_lookup_insert_eq by lia; reflexivity].
  erewrite M_bind_Ok;
    [|unfold set_column; rewrite list_lookup_insert_ne by lia;
      rewrite list_lookup_insert_eq by (rewrite length_insert; lia); reflexivity].
  cbn [name]. f_equal.
  apply list_eq. intros i.
  rewrite !list_lookup_insert, !length_insert.
  repeat case_decide; try reflexivity; lia.
Qed.

Lemma onUpdateData_extends (pairs : list (Tuple * Tuple)) (v : Z) (sorting : list nat) (b : Block) :
  Block_ready b = true ->
  Forall (fun i => (i < length b - 2)%nat) sorting ->
  Forall (fun r => row_fits b r = true) (rows_of_pairs pairs) ->
  exists bytes b',
    onUpdateData (rows_of_pairs pairs) v sorting b = (Ok bytes, b')
    /\ Block_extended b b' (spec_update_rows b sorting v pairs).
Proof.
  intros Hready Hsort Hfits.
  destruct (Block_ready_inv b Hready) as (Hcols & Htr & Hn).
  destruct (trailers_ready_inv b Htr) as (e1 & e2 & d1 & d2 & Hlen2 & H1 & Hc1 & H2 & Hc2).
  destruct (Block_bytes_Ok b (Block_ready_columns b Hready)) as [n0 Hn0].
  assert (Hmask : writeable_rows_mask (rows_of_pairs pairs) sorting = Ok (update_mask sorting pairs)).
  { apply writeable_rows_mask_pairs. clear - Hfits Hsort Hcols.
    induction pairs as [|[pre post] rest IH]; [constructor|].
    change (rows_of_pairs ((pre, post) :: rest)) with (pre :: post :: rows_of_pairs rest) in Hfits.
    apply Forall_cons in Hfits as [Hpre Hfits]. apply Forall_cons in Hfits as [Hpost Hfits].
    constructor; [|auto].
    eapply Forall_impl; [exact Hsort|]. intros i Hi. cbv beta in Hi.
    destruct (lookup_lt_is_Some_2 b i) as [elem Hlk]; [lia|].
    destruct (Hcols i elem Hlk) as (c & Hc & _).
    split; [eapply (row_fits_inv b pre Hpre i elem c)|eapply (row_fits_inv b post Hpost i elem c)];
      assumption. }
  set (mask := update_mask sorting pairs) in *.
  assert (Hml : mask = [] \/ length mask = length (rows_of_pairs pairs)).
  { right. unfold mask. now rewrite update_mask_length, rows_of_pairs_length. }
  destruct (user_columns_extended b (rows_of_pairs pairs) mask Hready Hml Hfits)
    as (b1 & Hrun & Hl & Hout & Hin).
  pose proof (select_rows_emitted sorting pairs []) as Hsel. cbn [app length] in Hsel.
  fold mask in Hsel. rewrite Hsel in Hin.
  pose proof (extended_of_parts b b1 (update_emitted sorting pairs) v e1 e2 d1 d2
                Hready Hlen2 H1 Hc1 H2 Hc2) as Hext.
  rewrite <- Hsel in Hext at 1. specialize (Hext (Forall_select_rows _ _ _ Hfits _) Hl Hout Hin).
  rewrite <- spec_update_rows_emitted in Hext.
  rewrite <- update_signs_emitted in Hext. fold mask in Hext.
  destruct (Block_bytes_Ok _ (Block_extended_columns _ _ _ Hext)) as [n1 Hn1].
  eexists _, _. split; [|exact Hext].
  unfold onUpdateData. rewrite rows_of_pairs_length.
  replace (2 * length pairs mod 2)%nat with 0%nat by (symmetry; apply Nat.Div0.mod_same || (rewrite Nat.mul_comm; apply Nat.Div0.mod_mul)).
  cbn [Nat.eqb negb].
  erewrite M_bind_Ok by exact Hn0.
  erewrite M_bind_Ok by (unfold lift; rewrite Hmask; reflexivity).
  erewrite M_bind_Ok by exact Hrun.
  rewrite (trailers_written_then _ b1 e1 e2 d1 d2); rewrite ?Hl; try assumption.
  - erewrite M_bind_Ok by (rewrite <- Hl; exact Hn1). rewrite <- Hl. reflexivity.
  - unfold Block_columns in *. now rewrite Hl.
  - rewrite Hout by lia. exact H1.
  - rewrite Hout by lia. exact H2.
Qed.

(** ** Row events *)

Lemma getTableDataBuffer_present (table : string) (s : SyncState) x :
  data (buffers s) !! table = Some x -> getTableDataBuffer table s = (Ok tt, s).
Proof. intros H. unfold getTableDataBuffer. now rewrite H. Qed.

Lemma on_block_run {A} (table : string) (m : M Block A) (s : SyncState) b sorting r b' :
  data (buffers s) !! table = Some (b, sorting) -> m b = (r, b') ->
  on_block table m s = (r, set_buffers (set_data (insert table (b', sorting))) s).
Proof. intros H Hm. unfold on_block. now rewrite H, Hm. Qed.

Lemma row_event_applied (s s0 : SyncState) (table : string) (b b' : Block) (sorting : list nat)
    (writer : Z -> M Block Z) (written_rows : nat) (bytes : Z) :
  getTableDataBuffer table s = (Ok tt, s0) ->
  data (buffers s0) !! table = Some (b, sorting) ->
  writer (to_UInt64 (version (metadata s0) + 1)) b = (Ok bytes, b') ->
  Forall (fun elem => is_Some (column elem)) b' ->
  exists block_bytes,
    (_ ← getTableDataBuffer table;
     v ← increment_version;
     bytes ← on_block table (writer v);
     account table written_rows bytes) s
    = (Ok tt, after_row_event s0 table b' sorting written_rows bytes block_bytes).
Proof.
  intros Hget Hdata Hw Hcols.
  destruct (Block_bytes_Ok b' Hcols) as [n Hn]. exists n.
  erewrite M_bind_Ok by exact Hget.
  erewrite M_bind_Ok by reflexivity.
  erewrite M_bind_Ok by (eapply on_block_run; [exact Hdata|exact Hw]).
  unfold account.
  erewrite M_bind_Ok.
  2:{ eapply on_block_run; [|reflexivity].
      unfold set_buffers, set_metadata, set_data. cbn [buffers data]. apply lookup_insert_eq. }
  erewrite M_bind_Ok.
  2:{ eapply on_block_run; [|exact Hn].
      unfold set_buffers, set_metadata, set_data. cbn [buffers data]. apply lookup_insert_eq. }
  unfold modify, after_row_event. f_equal.
  destruct s0 as [[db d m1 m2 t1 t2] md st cp].
  unfold set_buffers, set_metadata, set_data, Buffers_add.
  cbn [buffers data metadata store client_position
       database max_block_rows max_block_bytes total_blocks_rows total_blocks_bytes
       version binlog_file binlog_position].
  rewrite !insert_insert_eq. reflexivity.
Qed.

Lemma same_but_table_refl (table : string) (s : SyncState) : same_but_table table s s.
Proof. repeat split. Qed.

Lemma same_but_table_trans (table : string) (s1 s2 s3 : SyncState) :
  same_but_table table s1 s2 -> same_but_table table s2 s3 -> same_but_table table s1 s3.
Proof.
  intros (A1 & A2 & A3 & A4 & A5 & A6 & A7 & A8 & A9) (B1 & B2 & B3 & B4 & B5 & B6 & B7 & B8 & B9).
  repeat split; try congruence. intros t Ht. rewrite B9, A9; auto.
Qed.

Lemma same_but_table_insert (table : string) (s : SyncState) x :
  same_but_table table s (set_buffers (set_data (insert table x)) s).
Proof.
  repeat split. intros t Ht. unfold set_buffers, set_data. cbn [buffers data].
  now rewrite lookup_insert_ne.
Qed.

Lemma on_block_frame {A} (table : string) (m : M Block A) (s s' : SyncState) r :
  on_block table m s = (r, s') -> same_but_table table s s'.
Proof.
  unfold on_block. destruct (data (buffers s) !! table) as [[b sorting]|].
  - destruct (m b) as [r' b']. intros [= _ <-]. apply same_but_table_insert.
  - intros [= _ <-]. apply same_but_table_refl.
Qed.

Lemma push_sorting_columns_frame (table : string) (names : list string) :
  forall s s' r, push_sorting_columns table names s = (r, s') -> same_but_table table s s'.
Proof.
  induction names as [|n rest IH]; intros s s' r.
  - cbn. intros [= _ <-]. apply same_but_table_refl.
  - cbn [push_sorting_columns]. unfold mbind at 1, M_bind at 1.
    destruct (on_block table _ s) as [[position|e] s1] eqn:E1.
    + apply on_block_frame in E1.
      unfold mbind at 1, M_bind at 1. unfold modify at 1.
      intros H. apply IH in H. eapply same_but_table_trans; [exact E1|].
      eapply same_but_table_trans; [|exact H].
      repeat split. intros t Ht. unfold set_buffers, set_data. cbn [buffers data].
      destruct (data (buffers s1) !! table) as [[b sorting]|]; [|reflexivity].
      now rewrite lookup_insert_ne.
    + intros [= _ <-]. eapply on_block_frame; eauto.
Qed.

Lemma getTableDataBuffer_frame (table : string) (s s' : SyncState) r :
  getTableDataBuffer table s = (r, s') -> same_but_table table s s'.
Proof.
  unfold getTableDataBuffer. destruct (data (buffers s) !! table) as [x|] eqn:E.
  - intros [= _ <-]. apply same_but_table_refl.
  - unfold mbind at 1, M_bind at 1. unfold on_store at 1, getTable at 1.
    destruct (catalog (store s) !! _) as [storage|].
    + cbn [fst snd]. unfold mbind at 1, M_bind at 1. unfold modify at 1.
      intros H. apply push_sorting_columns_frame in H.
      eapply same_but_table_trans; [|exact H].
      destruct s as [bf md [cat j] cp]. apply same_but_table_insert.
    + intros [= _ <-]. destruct s as [bf md [cat j] cp]. apply same_but_table_refl.
Qed.

Lemma Block_extended_spec_row (b b' : Block) (images : list (list Cell)) :
  Block_extended b b' images ->
  forall r sg ver, spec_row b' r sg ver = spec_row b r sg ver.
Proof.
  intros (Hlen & _ & Hext) r sg ver. unfold spec_row. f_equal.
  apply list_eq. intros ci. rewrite !list_lookup_imap. unfold user_columns. rewrite Hlen.
  destruct (decide (ci < length b - 2)%nat) as [Hci|Hci].
  - rewrite !lookup_take_lt by lia.
    destruct (lookup_lt_is_Some_2 b ci) as [elem Hlk]; [lia|].
    destruct (Hext ci elem Hlk) as (c & c' & Hc & Hb' & _ & _ & _ & Hspec).
    rewrite Hlk, Hb'. cbn. rewrite Hc. cbn.
    destruct (r !! ci) as [f|]; [|reflexivity]. cbn. now rewrite Hspec.
  - rewrite !lookup_take_ge by lia. reflexivity.
Qed.

Lemma Block_extended_row_fits (b b' : Block) (images : list (list Cell)) (r : Tuple) :
  Block_extended b b' images -> row_fits b r = true -> row_fits b' r = true.
Proof.
  intros (Hlen & _ & Hext) Hfit. unfold row_fits. apply forallb_forall. intros [ci elem'] Hin.
  apply list_elem_of_In, list_elem_of_lookup in Hin as [i Hi].
  rewrite list_lookup_imap in Hi.
  destruct (user_columns b' !! i) as [e|] eqn:He; [|discriminate]. cbn in Hi.
  inversion Hi; subst ci elem'. clear Hi.
  unfold user_columns in He. apply lookup_take_Some in He as [He Hlt]. rewrite Hlen in Hlt.
  destruct (lookup_lt_is_Some_2 b i) as [elem Hlk]; [lia|].
  destruct (Hext i elem Hlk) as (c & c' & Hc & Hb' & _ & _ & _ & Hspec).
  rewrite Hb' in He. inversion He; subst e. cbn [column].
  destruct (row_fits_inv b r Hfit i elem c Hlt Hlk Hc) as [[f Hf] Hs].
  unfold field_of in Hs. rewrite Hf in Hs |- *. cbn [default] in Hs.
  apply bool_decide_eq_true. now rewrite Hspec.
Qed.

Lemma scenario_fetch (V0 : Z) :
  getTableDataBuffer "t" (scenario_at V0) = (Ok tt, scenario_fetched_at V0).
Proof. vm_compute. reflexivity. Qed.

Lemma write_or_delete_event (sign : Z) (s s0 : SyncState) (table : string) (rows : list Tuple)
    (b : Block) (sorting : list nat) :
  getTableDataBuffer table s = (Ok tt, s0) ->
  data (buffers s0) !! table = Some (b, sorting) ->
  Block_ready b = true ->
  Forall (fun r => row_fits b r = true) rows ->
  let v := to_UInt64 (version (metadata s) + 1) in
  exists s' b',
    (_ ← getTableDataBuffer table;
     v ← increment_version;
     bytes ← on_block table (onWriteOrDeleteData sign rows v);
     account table (length rows) bytes) s = (Ok tt, s')
    /\ data (buffers s') !! table = Some (b', sorting)
    /\ version (metadata s') = v
    /\ Block_ready b' = true
    /\ Block_rows b' = (Block_rows b + length rows)%nat
    /\ Block_table b' = Block_table b ++ ((fun r => spec_row b r sign v) <$> rows)
    /\ (forall r sg ver, spec_row b' r sg ver = spec_row b r sg ver)
    /\ (forall r, row_fits b r = true -> row_fits b' r = true).
Proof.
  intros Hget Hdata Hready Hfits v.
  pose proof (getTableDataBuffer_frame _ _ _ _ Hget) as (Hmd & _).
  destruct (onWriteOrDeleteData_extends sign rows v b Hready Hfits) as (bytes & b' & Hw & Hext).
  pose proof (Block_extended_spec_row _ _ _ Hext) as Hclass.
  unfold v in Hw. rewrite <- Hmd in Hw.
  destruct (row_event_applied s s0 table b b' sorting
              (onWriteOrDeleteData sign rows) (length rows) bytes Hget Hdata Hw
              (Block_extended_columns _ _ _ Hext)) as (bb & Hrun).
  destruct (Block_extended_table b b' _ Hready Hext) as (Hready' & Hrows & Htable).
  { apply Forall_fmap, Forall_true. intros r. apply spec_row_length.
    destruct (Block_ready_inv b Hready) as (_ & Htr & _).
    destruct (trailers_ready_inv b Htr) as (_ & _ & _ & _ & Hlen2 & _). exact Hlen2. }
  exists (after_row_event s0 table b' sorting (length rows) bytes bb), b'.
  split; [exact Hrun|].
  split; [|split; [|split; [exact Hready'|split; [|split; [exact Htable|split; [exact Hclass|]]]]]].
  - unfold after_row_event, Buffers_add, set_data. cbn [buffers data]. apply lookup_insert_eq.
  - unfold after_row_event. cbn [metadata version]. unfold v. now rewrite Hmd.
  - rewrite Hrows, length_fmap. reflexivity.
  - intros r. apply (Block_extended_row_fits _ _ _ r Hext).
Qed.

(** C3. A write event appends one row per source row to the table's
    buffer: each user column receives the cell the conversion table gives
    for the corresponding field, and the trailers receive the sign +1 and
    the version just incremented; a delete event does the same with sign
    -1. From empty buffers, write then delete of (5, "a") leaves exactly
    the rows (5, "a", +1, V1) and (5, "a", -1, V2), where V1 and V2 are the
    two successive increments of the version and V2 = V1 + 1 short of the
    wrap-around. *)
Theorem C3_write_and_delete_append_one_row_per_source_row
    (s s0 : SyncState) (table : string) (rows : list Tuple) (b : Block) (sorting : list nat) :
  getTableDataBuffer table s = (Ok tt, s0) ->
  data (buffers s0) !! table = Some (b, sorting) ->
  Block_ready b = true ->
  Forall (fun r => row_fits b r = true) rows ->
  let v := to_UInt64 (version (metadata s) + 1) in
  (exists s' b',
     onEvent (WriteRowsEvent table rows) s = (Ok tt, s')
     /\ data (buffers s') !! table = Some (b', sorting)
     /\ version (metadata s') = v
     /\ Block_ready b' = true
     /\ Block_rows b' = (Block_rows b + length rows)%nat
     /\ Block_table b' = Block_table b ++ ((fun r => spec_row b r 1 v) <$> rows))
  /\ (exists s' b',
     onEvent (DeleteRowsEvent table rows) s = (Ok tt, s')
     /\ data (buffers s') !! table = Some (b', sorting)
     /\ version (metadata s') = v
     /\ Block_ready b' = true
     /\ Block_rows b' = (Block_rows b + length rows)%nat
     /\ Block_table b' = Block_table b ++ ((fun r => spec_row b r (-1) v) <$> rows))
  /\ (forall V0 : Z,
        let V1 := to_UInt64 (V0 + 1) in
        let V2 := to_UInt64 (V1 + 1) in
        exists s1 s2 b2,
          onEvent (WriteRowsEvent "t" [scenario_row]) (scenario_at V0) = (Ok tt, s1)
          /\ onEvent (DeleteRowsEvent "t" [scenario_row]) s1 = (Ok tt, s2)
          /\ data (buffers s2) !! "t" = Some (b2, [0%nat])
          /\ Block_table b2
             = [[CNumber 5; CString "a"; CNumber 1; CNumber V1];
                [CNumber 5; CString "a"; CNumber (-1); CNumber V2]]
          /\ (0 <= V0 < 2 ^ 64 - 2 -> V2 = V1 + 1)).
Proof.
  intros Hget Hdata Hready Hfits v. split; [|split].
  - destruct (write_or_delete_event 1 s s0 table rows b sorting Hget Hdata Hready Hfits)
      as (s' & b' & H1 & H2 & H3 & H4 & H5 & H6 & _).
    exists s', b'. repeat split; assumption.
  - destruct (write_or_delete_event (-1) s s0 table rows b sorting Hget Hdata Hready Hfits)
      as (s' & b' & H1 & H2 & H3 & H4 & H5 & H6 & _).
    exists s', b'. repeat split; assumption.
  - intros V0 V1 V2.
    assert (Hrow : Forall (fun r => row_fits scenario_block r = true) [scenario_row])
      by (repeat constructor).
    destruct (write_or_delete_event 1 (scenario_at V0) (scenario_fetched_at V0) "t"
                [scenario_row] scenario_block [0%nat] (scenario_fetch V0) eq_refl eq_refl Hrow)
      as (s1 & b1 & Hrun1 & Hdata1 & Hv1 & Hready1 & _ & Htable1 & Hclass1 & Hfits1).
    assert (Hrow1 : Forall (fun r => row_fits b1 r = true) [scenario_row])
      by (eapply Forall_impl; [exact Hrow|exact Hfits1]).
    destruct (write_or_delete_event (-1) s1 s1 "t" [scenario_row] b1 [0%nat]
                (getTableDataBuffer_present _ _ _ Hdata1) Hdata1 Hready1 Hrow1)
      as (s2 & b2 & Hrun2 & Hdata2 & Hv2 & _ & _ & Htable2 & _).
    exists s1, s2, b2. split; [exact Hrun1|]. split; [exact Hrun2|]. split; [exact Hdata2|].
    split.
    + rewrite Htable2, Htable1, Hv1. cbn [fmap list_fmap]. rewrite Hclass1. reflexivity.
    + intros HV. unfold V2, V1.
      assert (E1 : to_UInt64 (V0 + 1) = V0 + 1) by (apply to_UInt64_small; lia).
      rewrite E1. apply to_UInt64_small. lia.
Qed.

(** C1. An update event, processed as consecutive (pre, post) pairs,
    appends for each pair one row, the post-image with sign +1, if no
    sorting-key column differs between the two images, and two rows, the
    pre-image with sign -1 followed by the post-image with sign +1, if one
    differs. All appended rows carry one version, the metadata version
    incremented once for the event. *)
Theorem C1_update_appends_one_or_two_rows_per_pair
    (s s0 : SyncState) (table : string) (pairs : list (Tuple * Tuple))
    (b : Block) (sorting : list nat) :
  getTableDataBuffer table s = (Ok tt, s0) ->
  data (buffers s0) !! table = Some (b, sorting) ->
  Block_ready b = true ->
  Forall (fun i => (i < length b - 2)%nat) sorting ->
  Forall (fun r => row_fits b r = true) (rows_of_pairs pairs) ->
  let v := to_UInt64 (version (metadata s) + 1) in
  exists s' b',
    onEvent (UpdateRowsEvent table (rows_of_pairs pairs)) s = (Ok tt, s')
    /\ data (buffers s') !! table = Some (b', sorting)
    /\ version (metadata s') = v
    /\ Block_ready b' = true
    /\ Block_table b' =
         Block_table b ++
         pairs ≫= (fun '(pre, post) =>
           if existsb (fun i => bool_decide (pre !! i ≠ post !! i)) sorting
           then [spec_row b pre (-1) v; spec_row b post 1 v]
           else [spec_row b post 1 v]).
Proof.
  intros Hget Hdata Hready Hsort Hfits v.
  pose proof (getTableDataBuffer_frame _ _ _ _ Hget) as (Hmd & _).
  destruct (onUpdateData_extends pairs v sorting b Hready Hsort Hfits) as (bytes & b' & Hw & Hext).
  unfold v in Hw. rewrite <- Hmd in Hw.
  destruct (Block_bytes_Ok b' (Block_extended_columns _ _ _ Hext)) as [bb Hbb].
  destruct (Block_extended_table b b' _ Hready Hext) as (Hready' & Hrows & Htable).
  { destruct (Block_ready_inv b Hready) as (_ & Htr & _).
    destruct (trailers_ready_inv b Htr) as (_ & _ & _ & _ & Hlen2 & _).
    rewrite spec_update_rows_emitted. apply Forall_fmap, Forall_true.
    intros [r sg]. now apply spec_row_length. }
  exists (after_row_event s0 table b' sorting (length (rows_of_pairs pairs)) bytes bb), b'.
  split; [|split; [|split; [|split; [exact Hready'|exact Htable]]]].
  - cbn [onEvent].
    erewrite M_bind_Ok by exact Hget.
    erewrite M_bind_Ok by reflexivity.
    erewrite M_bind_Ok by (unfold sorting_columns, increment_version, set_metadata;
                           cbn [buffers]; rewrite Hdata; reflexivity).
    erewrite M_bind_Ok.
    2:{ eapply on_block_run; [exact Hdata|]. exact Hw. }
    unfold account.
    erewrite M_bind_Ok.
    2:{ eapply on_block_run; [|reflexivity].
        unfold set_buffers, set_metadata, set_data. cbn [buffers data]. apply lookup_insert_eq. }
    erewrite M_bind_Ok.
    2:{ eapply on_block_run; [|exact Hbb].
        unfold set_buffers, set_metadata, set_data. cbn [buffers data]. apply lookup_insert_eq. }
    unfold modify, after_row_event. f_equal.
    destruct s0 as [[db d m1 m2 t1 t2] md st cp].
    unfold set_buffers, set_metadata, set_data, Buffers_add.
    cbn [buffers data metadata store client_position
         database max_block_rows max_block_bytes total_blocks_rows total_blocks_bytes
         version binlog_file binlog_position].
    rewrite !insert_insert_eq. reflexivity.
  - unfold after_row_event, Buffers_add, set_data. cbn [buffers data]. apply lookup_insert_eq.
  - unfold after_row_event. cbn [metadata version]. unfold v. now rewrite Hmd.
Qed.

(** ** The version counter *)

Lemma on_store_frame {A} (m : M Store A) (s s' : SyncState) r :
  on_store m s = (r, s') ->
  metadata s' = metadata s /\ buffers s' = buffers s /\ client_position s' = client_position s.
Proof.
  unfold on_store. destruct (m (store s)) as [r' st']. intros [= _ <-]. repeat split.
Qed.

Lemma account_frame (table : string) (written_rows : nat) (bytes : Z) (s s' : SyncState) r :
  account table written_rows bytes s = (r, s') ->
  metadata s' = metadata s /\ store s' = store s.
Proof.
  unfold account. unfold mbind at 1, M_bind at 1.
  destruct (on_block table (gets Block_rows) s) as [[n|e] s1] eqn:E1;
    apply on_block_frame in E1; destruct E1 as (M1 & S1 & _).
  - unfold mbind at 1, M_bind at 1.
    destruct (on_block table Block_bytes s1) as [[n'|e] s2] eqn:E2;
      apply on_block_frame in E2; destruct E2 as (M2 & S2 & _).
    + unfold modify. intros [= _ <-]. cbn. split; congruence.
    + intros [= _ <-]. split; congruence.
  - intros [= _ <-]. split; congruence.
Qed.

Lemma row_tail_frame {A} (table : string) (m : M Block A) (written_rows : nat)
    (k : A -> Z) (s s' : SyncState) r :
  (x ← on_block table m; account table written_rows (k x)) s = (r, s') ->
  metadata s' = metadata s /\ store s' = store s.
Proof.
  unfold mbind at 1, M_bind at 1.
  destruct (on_block table m s) as [[x|e] s1] eqn:E1;
    apply on_block_frame in E1; destruct E1 as (M1 & S1 & _).
  - intros H. apply account_frame in H as [M2 S2]. split; congruence.
  - intros [= _ <-]. split; congruence.
Qed.

Lemma commit_frame (context : Context) (s s' : SyncState) r :
  commit context s = (r, s') ->
  metadata s' = metadata s /\ client_position s' = client_position s.
Proof.
  unfold commit.
  destruct (on_store _ s) as [[u|e] s1] eqn:E; apply on_store_frame in E as (M1 & _ & C1);
    intros [= _ <-]; cbn; split; assumption.
Qed.

Lemma flushBuffersData_version (s s' : SyncState) r :
  flushBuffersData s = (r, s') -> version (metadata s') = version (metadata s).
Proof.
  unfold flushBuffersData, transaction.
  destruct (commit global_context s) as [[u|e] s1] eqn:E; apply commit_frame in E as (M1 & _);
    intros [= _ <-]; cbn; now rewrite M1.
Qed.

(** The row branches of [onEvent] share their shape: the buffer is
    fetched, the version incremented, then the writer and the accounting
    run. *)
Lemma row_branch_version {A} (table : string) (tail : Z -> M SyncState A) (s s' : SyncState) r :
  (forall v s1 s2 r', tail v s1 = (r', s2) -> metadata s2 = metadata s1) ->
  (_ ← getTableDataBuffer table; v ← increment_version; tail v) s = (r, s') ->
  (forall s0, getTableDataBuffer table s = (Ok tt, s0) ->
     version (metadata s') = to_UInt64 (version (metadata s) + 1))
  /\ ((exists a, r = Ok a) -> version (metadata s') = to_UInt64 (version (metadata s) + 1))
  /\ ((forall s0, getTableDataBuffer table s <> (Ok tt, s0)) ->
      version (metadata s') = version (metadata s)).
Proof.
  intros Htail. unfold mbind at 1, M_bind at 1.
  destruct (getTableDataBuffer table s) as [[[]|e] s0] eqn:Hget;
    pose proof (getTableDataBuffer_frame _ _ _ _ Hget) as (Hmd & _).
  - unfold mbind at 1, M_bind at 1. unfold increment_version at 1.
    intros H. apply Htail in H. rewrite H. unfold set_metadata. cbn [metadata version].
    rewrite Hmd. split; [|split]; intros; try reflexivity. exfalso. eapply H0. reflexivity.
  - intros [= <- <-]. split; [|split].
    + intros s1 [=].
    + intros [a [=]].
    + intros _. now rewrite Hmd.
Qed.

Lemma catch_syntax_error_frame (m : M SyncState unit) (s s' : SyncState) r :
  (forall r1 s1, m s = (r1, s1) -> metadata s1 = metadata s) ->
  catch_syntax_error m s = (r, s') -> metadata s' = metadata s.
Proof.
  intros Hm. unfold catch_syntax_error.
  destruct (m s) as [[u|[msg code|w|w]] s1] eqn:E; specialize (Hm _ _ eq_refl).
  - now intros [= _ <-].
  - destruct (negb (ErrorCode_eqb code SYNTAX_ERROR)); now intros [= _ <-].
  - now intros [= _ <-].
  - now intros [= _ <-].
Qed.

(** C4. A write, update or delete event whose table buffer is obtained
    increments the metadata version exactly once, in the 64 unsigned bits
    of the counter, whatever the number of its rows and whether or not its
    rows are then written, and so does every such event that is applied:
    below 2^64 - 1 the version grows by one, at 2^64 - 1 it turns to 0. A
    row event that fails before that, and every query, heartbeat and other
    event, leaves the version unchanged. *)
Theorem C4_version_incremented_once_per_row_event
    (event : BinlogEvent) (s s' : SyncState) (r : Result unit) :
  onEvent event s = (r, s') ->
  match event with
  | WriteRowsEvent table _ | UpdateRowsEvent table _ | DeleteRowsEvent table _ =>
      ((exists s0, getTableDataBuffer table s = (Ok tt, s0)) ->
         version (metadata s') = to_UInt64 (version (metadata s) + 1))
      /\ (r = Ok tt -> version (metadata s') = to_UInt64 (version (metadata s) + 1))
      /\ ((forall s0, getTableDataBuffer table s <> (Ok tt, s0)) ->
          version (metadata s') = version (metadata s))
      /\ (r = Ok tt -> 0 <= version (metadata s) < 2 ^ 64 - 1 ->
          version (metadata s') = version (metadata s) + 1)
      /\ (r = Ok tt -> version (metadata s) = 2 ^ 64 - 1 -> version (metadata s') = 0)
  | QueryEvent _ _ | HeartbeatEvent | OtherEvent _ =>
      version (metadata s') = version (metadata s)
  end.
Proof.
  intros Hrun.
  assert (Hrow : forall table (tail : Z -> M SyncState unit),
            (forall v s1 s2 r', tail v s1 = (r', s2) -> metadata s2 = metadata s1) ->
            (_ ← getTableDataBuffer table; v ← increment_version; tail v) s = (r, s') ->
            ((exists s0, getTableDataBuffer table s = (Ok tt, s0)) ->
               version (metadata s') = to_UInt64 (version (metadata s) + 1))
            /\ (r = Ok tt -> version (metadata s') = to_UInt64 (version (metadata s) + 1))
            /\ ((forall s0, getTableDataBuffer table s <> (Ok tt, s0)) ->
                version (metadata s') = version (metadata s))
            /\ (r = Ok tt -> 0 <= version (metadata s) < 2 ^ 64 - 1 ->
                version (metadata s') = version (metadata s) + 1)
            /\ (r = Ok tt -> version (metadata s) = 2 ^ 64 - 1 -> version (metadata s') = 0)).
  { intros table tail Htail H.
    destruct (row_branch_version table tail s s' r Htail H) as (H1 & H2 & H3).
    split; [|split; [|split; [exact H3|split]]].
    - intros [s0 Hs0]. eauto.
    - intros ->. eauto.
    - intros -> Hrange. rewrite H2 by eauto. apply to_UInt64_small. lia.
    - intros -> Hlast. rewrite H2 by eauto. rewrite Hlast. reflexivity. }
  destruct event as [table rows|table rows|table rows|schema query| |dump]; cbn [onEvent] in Hrun.
  - apply (Hrow table (fun v => bytes ← on_block table (onWriteOrDeleteData 1 rows v);
                                account table (length rows) bytes)); [|exact Hrun].
    intros v s1 s2 r' H.
    apply (row_tail_frame table (onWriteOrDeleteData 1 rows v) (length rows) (fun x => x)) in H.
    apply H.
  - apply (Hrow table (fun v => sorting ← sorting_columns table;
                                bytes ← on_block table (onUpdateData rows v sorting);
                                account table (length rows) bytes)); [|exact Hrun].
    intros v s1 s2 r'. unfold mbind at 1, M_bind at 1. unfold sorting_columns at 1.
    destruct (data (buffers s1) !! table) as [[blk sorting]|].
    + intros H.
      apply (row_tail_frame table (onUpdateData rows v sorting) (length rows) (fun x => x)) in H.
      apply H.
    + now intros [= _ <-].
  - apply (Hrow table (fun v => bytes ← on_block table (onWriteOrDeleteData (-1) rows v);
                                account table (length rows) bytes)); [|exact Hrun].
    intros v s1 s2 r' H.
    apply (row_tail_frame table (onWriteOrDeleteData (-1) rows v) (length rows) (fun x => x)) in H.
    apply H.
  - revert Hrun. unfold mbind at 1, M_bind at 1.
    destruct (flushBuffersData s) as [[u|e] s1] eqn:Ef;
      pose proof (flushBuffersData_version _ _ _ Ef) as Hf.
    + intros H. apply catch_syntax_error_frame in H; [now rewrite H|].
      intros r1 s2. unfold mbind at 1, M_bind at 1.
      destruct (on_store _ s1) as [[x|e] s3] eqn:Es; apply on_store_frame in Es as (M1 & _);
        intros [= _ <-]; exact M1.
    + intros [= _ <-]. exact Hf.
  - inversion Hrun. reflexivity.
  - inversion Hrun. reflexivity.
Qed.

(** ** Update events with an odd number of rows *)

Lemma on_block_present {A} (table : string) (m : M Block A) (s s' : SyncState) r :
  is_Some (data (buffers s) !! table) -> on_block table m s = (r, s') ->
  is_Some (data (buffers s') !! table).
Proof.
  intros [[b sorting] Hb]. unfold on_block. rewrite Hb.
  destruct (m b) as [r' b']. intros [= _ <-].
  unfold set_buffers, set_data. cbn [buffers data]. rewrite lookup_insert_eq. eauto.
Qed.

Lemma push_sorting_columns_present (table : string) (names : list string) :
  forall s s' r, is_Some (data (buffers s) !! table) ->
    push_sorting_columns table names s = (r, s') -> is_Some (data (buffers s') !! table).
Proof.
  induction names as [|n rest IH]; intros s s' r Hs.
  - cbn. now intros [= _ <-].
  - cbn [push_sorting_columns]. unfold mbind at 1, M_bind at 1.
    destruct (on_block table _ s) as [[position|e] s1] eqn:E1;
      apply on_block_present in E1; try assumption.
    + unfold mbind at 1, M_bind at 1. unfold modify at 1. apply IH.
      destruct E1 as [[b sorting] Hb].
      unfold set_buffers, set_data. cbn [buffers data]. rewrite Hb.
      rewrite lookup_insert_eq. eauto.
    + now intros [= _ <-].
Qed.

Lemma getTableDataBuffer_Ok_present (table : string) (s s0 : SyncState) :
  getTableDataBuffer table s = (Ok tt, s0) -> is_Some (data (buffers s0) !! table).
Proof.
  unfold getTableDataBuffer. destruct (data (buffers s) !! table) as [x|] eqn:E.
  - intros [= <-]. rewrite E. eauto.
  - unfold mbind at 1, M_bind at 1. unfold on_store at 1, getTable at 1.
    destruct (catalog (store s) !! _) as [storage|]; [|intros [=]].
    cbn [fst snd]. unfold mbind at 1, M_bind at 1. unfold modify at 1.
    apply push_sorting_columns_present.
    unfold set_buffers, set_data, set_store. cbn [buffers data].
    rewrite lookup_insert_eq. eauto.
Qed.

Lemma onUpdateData_odd (rows : list Tuple) (v : Z) (sorting : list nat) (buffer : Block) :
  (length rows mod 2 = 1)%nat ->
  onUpdateData rows v sorting buffer
  = (Throw (Exception "LOGICAL ERROR: It is a bug." LOGICAL_ERROR), buffer).
Proof. intros H. unfold onUpdateData. rewrite H. reflexivity. Qed.

(** C10. An update event with an odd number of rows throws the logical
    error before anything is written: the writer returns the block it was
    given, and after the event the buffers (every block and the four
    counters) and the store are as [getTableDataBuffer] left them; the
    counters, the store and the blocks already buffered are those from
    before the event. *)
Theorem C10_odd_update_throws_before_any_write
    (rows : list Tuple) (table : string) (s : SyncState) :
  (length rows mod 2 = 1)%nat ->
  (forall v sorting buffer,
     onUpdateData rows v sorting buffer
     = (Throw (Exception "LOGICAL ERROR: It is a bug." LOGICAL_ERROR), buffer))
  /\ (forall s0, getTableDataBuffer table s = (Ok tt, s0) ->
      exists s',
        onEvent (UpdateRowsEvent table rows) s
        = (Throw (Exception "LOGICAL ERROR: It is a bug." LOGICAL_ERROR), s')
        /\ buffers s' = buffers s0 /\ store s' = store s0)
  /\ (forall r s', onEvent (UpdateRowsEvent table rows) s = (r, s') ->
      (exists e, r = Throw e)
      /\ max_block_rows (buffers s') = max_block_rows (buffers s)
      /\ max_block_bytes (buffers s') = max_block_bytes (buffers s)
      /\ total_blocks_rows (buffers s') = total_blocks_rows (buffers s)
      /\ total_blocks_bytes (buffers s') = total_blocks_bytes (buffers s)
      /\ store s' = store s
      /\ forall t x, data (buffers s) !! t = Some x -> data (buffers s') !! t = Some x).
Proof.
  intros Hodd.
  assert (Hev : forall s0, getTableDataBuffer table s = (Ok tt, s0) ->
            exists s',
              onEvent (UpdateRowsEvent table rows) s
              = (Throw (Exception "LOGICAL ERROR: It is a bug." LOGICAL_ERROR), s')
              /\ buffers s' = buffers s0 /\ store s' = store s0).
  { intros s0 Hget.
    destruct (getTableDataBuffer_Ok_present _ _ _ Hget) as [[b sorting] Hb].
    eexists. split; [|split].
    - cbn [onEvent]. erewrite M_bind_Ok by exact Hget.
      erewrite M_bind_Ok by reflexivity.
      erewrite M_bind_Ok
        by (unfold sorting_columns, set_metadata; cbn [buffers]; rewrite Hb; reflexivity).
      erewrite M_bind_Throw; [reflexivity|].
      eapply on_block_run; [unfold set_metadata; cbn [buffers]; exact Hb|].
      apply onUpdateData_odd, Hodd.
    - unfold set_buffers, set_metadata, set_data. cbn [buffers data].
      destruct s0 as [[db d m1 m2 t1 t2] md st cp]. cbn [buffers data] in *.
      rewrite insert_id by exact Hb. reflexivity.
    - reflexivity. }
  split; [|split; [exact Hev|]].
  - intros v sorting buffer. apply onUpdateData_odd, Hodd.
  - intros r s' Hrun.
    destruct (getTableDataBuffer table s) as [[[]|e] s0] eqn:Hget;
      pose proof (getTableDataBuffer_frame _ _ _ _ Hget) as (_ & F2 & _ & _ & F5 & F6 & F7 & F8 & F9).
    + destruct (Hev s0 eq_refl) as (s1 & Hrun1 & Hb & Hst).
      rewrite Hrun1 in Hrun. inversion Hrun; subst r s1.
      rewrite Hb, Hst. repeat split; eauto; try assumption.
      intros t x Hx. destruct (decide (t = table)) as [->|Hne].
      * rewrite (getTableDataBuffer_present table s x Hx) in Hget. inversion Hget; subst s0.
        exact Hx.
      * rewrite F9 by exact Hne. exact Hx.
    + cbn [onEvent] in Hrun. erewrite M_bind_Throw in Hrun by exact Hget.
      inversion Hrun; subst r s'. repeat split; eauto; try assumption.
      intros t x Hx. destruct (decide (t = table)) as [->|Hne].
      * rewrite (getTableDataBuffer_present table s x Hx) in Hget. discriminate.
      * rewrite F9 by exact Hne. exact Hx.
Qed.

(** ** Flush and query events *)

Lemma tryToExecuteQuery_run (query : string) (query_context : Context) (database comment : string)
    (st : Store) :
  tryToExecuteQuery query query_context database comment st
  = let text := "/*" +:+ comment +:+ "*/ " +:+ query in
    let ctx := scoped query_context database in
    let logged := journal st ++ [ExecuteQuery ctx text] in
    match executeQuery_outcome text ctx (catalog st) with
    | Ok (res, tables) => (Ok res, mkStore tables logged)
    | Throw e => (Throw e, mkStore (catalog st) logged)
    end.
Proof.
  unfold tryToExecuteQuery, executeQuery, scoped.
  destruct (String.eqb database ""); cbn [negb]; destruct query_context; reflexivity.
Qed.

Lemma commit_loop_Ok (database : string) (context : Context)
    (tables : list (string * BufferAndSortingColumns)) :
  forall st st', commit_loop database context tables st = (Ok tt, st') ->
    exists effects, journal st' = journal st ++ effects
                    /\ flushed database context tables effects.
Proof.
  induction tables as [|[table_name [block sorting]] rest IH]; intros st st'.
  - cbn. intros [= <-]. exists []. now rewrite app_nil_r.
  - cbn [commit_loop]. unfold mbind at 1, M_bind at 1.
    unfold getTableOutput at 1. unfold mbind at 1, M_bind at 1. unfold getTable at 1.
    destruct (catalog st !! (database, table_name)) as [storage|]; [|intros [=]].
    unfold mbind at 1, M_bind at 1. rewrite tryToExecuteQuery_run. cbv zeta.
    destruct (executeQuery_outcome _ _ (catalog st)) as [[res tables]|e]; [|intros [=]].
    destruct (out res); [|intros [=]].
    unfold mret at 1, M_ret at 1. unfold mbind at 1, M_bind at 1.
    unfold copyData at 1. cbn [sink_table sink_columns catalog journal].
    destruct (copyData_outcome table_name block); [intros [=]|].
    intros H. apply IH in H as (effects & Hj & Hf). cbn [journal] in Hj.
    eexists. split; [rewrite Hj, <- !app_assoc; reflexivity|].
    cbn [flushed]. exists storage, effects. split; [reflexivity|exact Hf].
Qed.

Lemma commit_Ok (context : Context) (s s' : SyncState) :
  commit context s = (Ok tt, s') ->
  buffers s' = mkBuffers (database (buffers s)) ∅ 0 0 0 0
  /\ exists effects,
       journal (store s') = journal (store s) ++ effects
       /\ flushed (database (buffers s)) context (map_to_list (data (buffers s))) effects.
Proof.
  unfold commit, on_store.
  destruct (commit_loop _ _ _ (store s)) as [[[]|e] st'] eqn:E; [|intros [=]].
  intros [= <-]. split; [reflexivity|]. apply commit_loop_Ok in E. exact E.
Qed.

Lemma commit_Throw (context : Context) (s s' : SyncState) (e : Thrown) :
  commit context s = (Throw e, s') ->
  buffers s' = mkBuffers (database (buffers s)) ∅
                 (max_block_rows (buffers s)) (max_block_bytes (buffers s))
                 (total_blocks_rows (buffers s)) (total_blocks_bytes (buffers s)).
Proof.
  unfold commit, on_store.
  destruct (commit_loop _ _ _ (store s)) as [[[]|e'] st'] eqn:E; [intros [=]|].
  intros [= _ <-]. reflexivity.
Qed.

(** C7. On a query event the buffers are flushed and the position
    committed before the DDL reaches the store; if the flush throws, the
    throw propagates and the DDL is not run. The DDL runs under the target
    database when the schema of the event is the source database, and
    under the database of the global context otherwise. A [DB::Exception]
    with code [SYNTAX_ERROR] from the DDL is swallowed, every other throw
    propagates. *)
Theorem C7_query_event_flushes_then_runs_ddl (schema query : string) (s : SyncState) :
  database_name <> "" ->
  let scope :=
    if String.eqb schema mysql_database_name then database_name
    else current_database global_context in
  let ddl_context := mkContext scope true true in
  let ddl_text :=
    "/*Materialize MySQL step 2: execute MySQL DDL for sync data*/ "
      +:+ query_prefix +:+ query in
  match flushBuffersData s with
  | (Throw e, s1) =>
      onEvent (QueryEvent schema query) s = (Throw e, s1) /\ store s1 = store s
  | (Ok _, s1) =>
      (exists effects,
         journal (store s1)
         = journal (store s) ++ effects ++ [CommitPosition (client_position s)]
         /\ flushed (database (buffers s)) global_context
              (map_to_list (data (buffers s))) effects)
      /\ data (buffers s1) = ∅
      /\ exists s',
           onEvent (QueryEvent schema query) s
           = (match executeQuery_outcome ddl_text ddl_context (catalog (store s1)) with
              | Ok _ => Ok tt
              | Throw (Exception message code) =>
                  if ErrorCode_eqb code SYNTAX_ERROR then Ok tt
                  else Throw (Exception message code)
              | Throw other => Throw other
              end, s')
           /\ journal (store s') = journal (store s1) ++ [ExecuteQuery ddl_context ddl_text]
  end.
Proof.
  intros Hdb scope ddl_context ddl_text.
  destruct (flushBuffersData s) as [[[]|e] s1] eqn:Ef.
  - assert (Hflush : (exists effects,
               journal (store s1)
               = journal (store s) ++ effects ++ [CommitPosition (client_position s)]
               /\ flushed (database (buffers s)) global_context
                    (map_to_list (data (buffers s))) effects)
             /\ data (buffers s1) = ∅).
    { revert Ef. unfold flushBuffersData, transaction.
      destruct (commit global_context s) as [[[]|e] s0] eqn:Ec; [|intros [=]].
      apply commit_Ok in Ec as (Hb & effects & Hj & Hf).
      intros [= <-]. cbn. split; [|now rewrite Hb].
      exists effects. split; [|exact Hf]. rewrite Hj, <- app_assoc. reflexivity. }
    destruct Hflush as [Hj Hd]. split; [exact Hj|]. split; [exact Hd|].
    cbn [onEvent]. erewrite M_bind_Ok by exact Ef.
    unfold catch_syntax_error. unfold mbind at 1, M_bind at 1.
    unfold on_store at 1. rewrite tryToExecuteQuery_run. cbv zeta.
    assert (Hctx : scoped (createQueryContext global_context)
                     (if String.eqb schema mysql_database_name then database_name else "")
                   = ddl_context).
    { unfold scoped, ddl_context, scope, createQueryContext. cbn.
      destruct (String.eqb schema mysql_database_name).
      - destruct (String.eqb_spec database_name ""); [contradiction|reflexivity].
      - reflexivity. }
    rewrite Hctx.
    change ("/*" +:+ "Materialize MySQL step 2: execute MySQL DDL for sync data" +:+ "*/ "
              +:+ query_prefix +:+ query) with ddl_text.
    destruct (executeQuery_outcome ddl_text ddl_context (catalog (store s1)))
      as [[res tables]|[message code|w|w]].
    + eexists. split; [reflexivity|]. reflexivity.
    + destruct (ErrorCode_eqb code SYNTAX_ERROR); cbn [negb];
        (eexists; split; [reflexivity|]; reflexivity).
    + eexists. split; [reflexivity|]. reflexivity.
    + eexists. split; [reflexivity|]. reflexivity.
  - split.
    + cbn [onEvent]. erewrite M_bind_Throw by exact Ef. reflexivity.
    + revert Ef. unfold flushBuffersData, transaction.
      destruct (commit global_context s) as [[[]|e'] s0]; [intros [=]|].
      intros [= _ <-]. reflexivity.
Qed.

(** ** The accounting of rows *)

Lemma rows_sum_permutation (l1 l2 : list (string * BufferAndSortingColumns)) :
  l1 ≡ₚ l2 ->
  foldr (fun '(_, (block, _)) acc => Z.of_nat (Block_rows block) + acc) 0 l1
  = foldr (fun '(_, (block, _)) acc => Z.of_nat (Block_rows block) + acc) 0 l2.
Proof.
  induction 1 as [|[k [b so]] l1 l2 _ IH|[k1 [b1 so1]] [k2 [b2 so2]] l|l1 l2 l3 _ IH1 _ IH2];
    cbn; try lia; congruence.
Qed.

Lemma Buffers_rows_sum_insert (bf : Buffers) (table : string) (b b' : Block) (sorting : list nat) :
  data bf !! table = Some (b, sorting) ->
  Buffers_rows_sum (set_data (insert table (b', sorting)) bf)
  = Buffers_rows_sum bf - Z.of_nat (Block_rows b) + Z.of_nat (Block_rows b').
Proof.
  intros Hlk. unfold Buffers_rows_sum, set_data. cbn [data].
  rewrite <- (insert_delete_eq (data bf) table (b', sorting)).
  rewrite (rows_sum_permutation _ _
             (map_to_list_insert (delete table (data bf)) table (b', sorting)
                (lookup_delete_eq _ _))).
  rewrite <- (insert_delete_id (data bf) table (b, sorting) Hlk) at 2.
  rewrite (rows_sum_permutation _ _
             (map_to_list_insert (delete table (data bf)) table (b, sorting)
                (lookup_delete_eq _ _))).
  cbn. lia.
Qed.

(** The write and delete branches keep [total_blocks_rows] equal, in
    [size_t], to the rows all buffers hold. *)
Lemma write_or_delete_keeps_total_rows (sign : Z) (s s0 : SyncState) (table : string)
    (rows : list Tuple) (b : Block) (sorting : list nat) :
  getTableDataBuffer table s = (Ok tt, s0) ->
  data (buffers s0) !! table = Some (b, sorting) ->
  Block_ready b = true ->
  Forall (fun r => row_fits b r = true) rows ->
  total_blocks_rows (buffers s0) = to_UInt64 (Buffers_rows_sum (buffers s0)) ->
  exists s',
    (_ ← getTableDataBuffer table;
     v ← increment_version;
     bytes ← on_block table (onWriteOrDeleteData sign rows v);
     account table (length rows) bytes) s = (Ok tt, s')
    /\ total_blocks_rows (buffers s') = to_UInt64 (Buffers_rows_sum (buffers s')).
Proof.
  intros Hget Hdata Hready Hfits Hinv.
  pose proof (getTableDataBuffer_frame _ _ _ _ Hget) as (Hmd & _).
  destruct (onWriteOrDeleteData_extends sign rows (to_UInt64 (version (metadata s0) + 1)) b
              Hready Hfits) as (bytes & b' & Hw & Hext).
  destruct (row_event_applied s s0 table b b' sorting
              (onWriteOrDeleteData sign rows) (length rows) bytes Hget Hdata Hw
              (Block_extended_columns _ _ _ Hext)) as (bb & Hrun).
  destruct (Block_extended_table b b' _ Hready Hext) as (_ & Hrows & _).
  { apply Forall_fmap, Forall_true. intros r. apply spec_row_length.
    destruct (Block_ready_inv b Hready) as (_ & Htr & _).
    destruct (trailers_ready_inv b Htr) as (_ & _ & _ & _ & Hlen2 & _). exact Hlen2. }
  eexists. split; [exact Hrun|].
  unfold after_row_event. cbn [buffers].
  change (total_blocks_rows (Buffers_add ?x ?y ?w ?z ?bf))
    with (to_UInt64 (total_blocks_rows bf + w)).
  change (Buffers_rows_sum (Buffers_add ?x ?y ?w ?z ?bf)) with (Buffers_rows_sum bf).
  rewrite (Buffers_rows_sum_insert _ table b b' sorting Hdata).
  change (total_blocks_rows (set_data ?f ?bf)) with (total_blocks_rows bf).
  rewrite Hinv, Hrows, length_fmap. unfold to_UInt64, to_unsigned.
  rewrite Zplus_mod_idemp_l. f_equal. lia.
Qed.

(** C5. After an update event of one pair whose sorting key is unchanged
    the table's buffer holds one row, the only row of all buffers, while
    [total_blocks_rows] is 2: the event adds the length of its row
    sequence, not the number of rows appended. [max_block_rows] is 1. *)
Theorem C5_update_event_overcounts_total_rows :
  let '(r, s') := onEvent (UpdateRowsEvent "t" scenario_update) scenario_state in
  r = Ok tt
  /\ (Block_table ∘ fst) <$> data (buffers s') !! "t"
     = Some [[CNumber 1; CString "b"; CNumber 1; CNumber 42]]
  /\ Buffers_rows_sum (buffers s') = 1
  /\ total_blocks_rows (buffers s') = 2
  /\ max_block_rows (buffers s') = 1.
Proof. vm_compute. repeat split. Qed.

(** ** The preflight check on the answers of the source *)

(** C9. When the query for the variables returns no row, [read()] gives
    the empty block; the check enters its error branch on
    [!variables_block] and asks that block for its column
    [Variable_name], which throws [NOT_FOUND_COLUMN_IN_BLOCK], where the
    requirement list of all four variables was due. With two of the four
    satisfied the other two are listed, in the order the map has them, and
    with all four the version is returned. *)
Theorem C9_preflight_on_empty_answer_throws_not_found_column :
  (forall version_block,
     checkVariableAndGetVersion [] version_block
     = Throw (Exception "Not found column Variable_name in block" NOT_FOUND_COLUMN_IN_BLOCK))
  /\ (exists listed,
        checkVariableAndGetVersion variables_two_of_four version_answer
        = Throw (Exception
                   ("Illegal MySQL variables, the MaterializeMySQL engine requires "
                    +:+ String.concat ", " listed)
                   ILLEGAL_MYSQL_VARIABLE)
        /\ listed ≡ₚ ["binlog_row_image='FULL'";
                      "default_authentication_plugin='mysql_native_password'"])
  /\ checkVariableAndGetVersion variables_all_four version_answer = Ok "8.0.21".
Proof.
  split; [reflexivity|]. split; [|reflexivity].
  exists ((map_to_list (delete "binlog_format" (delete "log_bin" variables_error_message))).*2).
  split; [reflexivity|].
  vm_compute. first [apply Permutation_refl | apply perm_swap].
Qed.

Lemma erase_found_lookup (names : list string) :
  forall (count index : nat) (messages : gmap string string),
    (index + count <= length names)%nat ->
    exists remaining,
      erase_found (Some (ColumnString names)) index count messages = Ok remaining
      /\ forall name text,
           remaining !! name = Some text
           <-> messages !! name = Some text /\ name ∉ take count (drop index names).
Proof.
  induction count as [|count IH]; intros index messages Hlen.
  - exists messages. split; [reflexivity|]. intros name text. rewrite take_0.
    split; [intros H; split; [exact H|apply not_elem_of_nil]|intros [H _]; exact H].
  - destruct (lookup_lt_is_Some_2 names index) as [n Hn]; [lia|].
    destruct (IH (S index) (erase_variable n messages)) as (remaining & Hrun & Hspec); [lia|].
    exists remaining. cbn [erase_found IColumn_getDataAt]. rewrite Hn. cbn [mbind Result_bind].
    split; [exact Hrun|]. intros name text. rewrite Hspec. unfold erase_variable.
    rewrite lookup_delete_Some, (drop_S names n index Hn). cbn [take].
    rewrite not_elem_of_cons. split.
    + intros [[Hne Hm] Hrest]. split; [exact Hm|]. split; [congruence|exact Hrest].
    + intros [Hm [Hne Hrest]]. split; [split; [congruence|exact Hm]|exact Hrest].
Qed.

(** Whenever the answer carries its [Variable_name] column and not four
    rows, the exception lists exactly the requirements not among the rows. *)
Lemma preflight_lists_unmet (names values : list string) (version_block : Block) :
  length names <> 4%nat ->
  exists unmet : gmap string string,
    checkVariableAndGetVersion
      [mkColumn (Some (ColumnString names)) "Variable_name";
       mkColumn (Some (ColumnString values)) "Value"] version_block
    = Throw (Exception (illegal_variables_message unmet) ILLEGAL_MYSQL_VARIABLE)
    /\ forall name text,
         unmet !! name = Some text
         <-> variables_error_message !! name = Some text /\ name ∉ names.
Proof.
  intros Hlen.
  destruct (erase_found_lookup names (length names) 0 variables_error_message)
    as (unmet & Hrun & Hspec); [cbn; lia|].
  exists unmet. split.
  - unfold checkVariableAndGetVersion.
    cbn [Block_bool Block_rows column IColumn_size negb orb].
    rewrite (proj2 (Nat.eqb_neq _ _) Hlen). cbn [negb].
    change (Block_getByName _ "Variable_name")
      with (Ok (mkColumn (Some (ColumnString names)) "Variable_name")).
    cbn [mbind Result_bind column]. rewrite Hrun. reflexivity.
  - intros name text. rewrite Hspec, drop_0, firstn_all. reflexivity.
Qed.

(** At 2^64 - 1 the increment wraps around to 0: the one place where the
    version is not increased. *)
Lemma increment_version_wraps (s : SyncState) :
  version (metadata s) = 2 ^ 64 - 1 ->
  version (metadata (increment_version s).2) = 0.
Proof. intros H. unfold increment_version. cbn. rewrite H. reflexivity. Qed.

(** With four rows in the answer the check passes and the version is
    returned. *)
Lemma preflight_returns_version (names values : list string) (v : string) :
  length names = 4%nat ->
  checkVariableAndGetVersion
    [mkColumn (Some (ColumnString names)) "Variable_name";
     mkColumn (Some (ColumnString values)) "Value"]
    [mkColumn (Some (ColumnString [v])) "version"]
  = Ok v.
Proof.
  intros Hlen. unfold checkVariableAndGetVersion.
  cbn [Block_bool Block_rows column IColumn_size negb orb].
  rewrite Hlen. reflexivity.
Qed.

(* ================================================================= *)
(** * Further properties *)

(** ** The integer branches in general *)

Lemma to_signed_range (w x : Z) : 0 < w -> - 2 ^ (w - 1) <= to_signed w x < 2 ^ (w - 1).
Proof.
  intros Hw. unfold to_signed.
  assert (H2 : 2 ^ w = 2 * 2 ^ (w - 1)).
  { replace w with (1 + (w - 1)) at 1 by lia. rewrite Z.pow_add_r by lia. reflexivity. }
  assert (0 < 2 ^ (w - 1)) by (apply Z.pow_pos_nonneg; lia).
  pose proof (Z.mod_pos_bound (x + 2 ^ (w - 1)) (2 ^ w) ltac:(lia)). lia.
Qed.

Lemma to_signed_wrapped (w x : Z) :
  0 < w <= 64 -> - 2 ^ (w - 1) <= x < 2 ^ (w - 1) ->
  to_signed w (to_UInt64 (x mod 2 ^ 64)) = x.
Proof.
  intros Hw Hx. unfold to_signed, to_UInt64, to_unsigned.
  assert (H2 : 2 ^ w = 2 * 2 ^ (w - 1)).
  { replace w with (1 + (w - 1)) at 1 by lia. rewrite Z.pow_add_r by lia. reflexivity. }
  assert (0 < 2 ^ (w - 1)) by (apply Z.pow_pos_nonneg; lia).
  assert (H64 : 2 ^ 64 = 2 ^ w * 2 ^ (64 - w)).
  { rewrite <- Z.pow_add_r by lia. f_equal. lia. }
  assert (0 < 2 ^ (64 - w)) by (apply Z.pow_pos_nonneg; lia).
  rewrite Z.mod_mod by lia.
  assert (E : (x mod 2 ^ 64 + 2 ^ (w - 1)) mod 2 ^ w = (x + 2 ^ (w - 1)) mod 2 ^ w).
  { rewrite (Z.add_mod (x mod 2 ^ 64)) by lia.
    rewrite (Z.mod_mod_divide x (2 ^ 64) (2 ^ w)) by (exists (2 ^ (64 - w)); lia).
    rewrite <- Z.add_mod by lia. reflexivity. }
  rewrite E. rewrite Z.mod_small by lia. lia.
Qed.

Lemma to_unsigned_wrapped (w x : Z) :
  0 < w <= 64 -> 0 <= x < 2 ^ w -> to_unsigned w (to_UInt64 (x mod 2 ^ 64)) = x.
Proof.
  intros Hw Hx. unfold to_UInt64, to_unsigned.
  assert (H64 : 2 ^ 64 = 2 ^ w * 2 ^ (64 - w)).
  { rewrite <- Z.pow_add_r by lia. f_equal. lia. }
  rewrite Z.mod_mod by lia.
  rewrite (Z.mod_mod_divide x (2 ^ 64) (2 ^ w)) by (exists (2 ^ (64 - w)); lia).
  apply Z.mod_small. lia.
Qed.

Lemma static_cast_integer_range (T : NumberType) (lo hi x : Z) :
  integer_range T = Some (lo, hi) -> lo <= static_cast_integer T x < hi.
Proof.
  destruct T; intros [= <- <-]; cbn [static_cast_integer];
    try (unfold to_unsigned; apply Z.mod_pos_bound; lia);
    match goal with
    | |- _ <= to_signed ?w _ < _ =>
        let H := fresh in
        pose proof (to_signed_range w x ltac:(lia)) as H;
        let e := eval vm_compute in (w - 1) in change (w - 1) with e in H; exact H
    end.
Qed.

Lemma static_cast_integer_wrapped (T : NumberType) (lo hi x : Z) :
  integer_range T = Some (lo, hi) -> lo <= x < hi ->
  static_cast_integer T (to_UInt64 (x mod 2 ^ 64)) = x.
Proof.
  destruct T; intros [= <- <-] Hx; cbn [static_cast_integer];
    try (apply to_unsigned_wrapped; lia);
    match goal with
    | |- to_signed ?w _ = _ =>
        apply to_signed_wrapped; [lia|];
        let e := eval vm_compute in (w - 1) in change (w - 1) with e; exact Hx
    end.
Qed.

Lemma static_cast_integer_mod (T : NumberType) (lo hi v : Z) :
  integer_range T = Some (lo, hi) ->
  static_cast_integer T (v mod 2 ^ 64) = static_cast_integer T v.
Proof.
  assert (Hmod : forall w, 0 < w <= 64 -> forall c, (v mod 2 ^ 64 + c) mod 2 ^ w = (v + c) mod 2 ^ w).
  { intros w Hw c.
    assert (H64 : 2 ^ 64 = 2 ^ w * 2 ^ (64 - w)).
    { rewrite <- Z.pow_add_r by lia. f_equal. lia. }
    assert (0 < 2 ^ w) by (apply Z.pow_pos_nonneg; lia).
    rewrite (Z.add_mod (v mod 2 ^ 64)) by lia.
    rewrite (Z.mod_mod_divide v (2 ^ 64) (2 ^ w)) by (exists (2 ^ (64 - w)); lia).
    rewrite <- Z.add_mod by lia. reflexivity. }
  destruct T; intros [= <- <-]; cbn [static_cast_integer]; unfold to_signed, to_unsigned;
    try (rewrite Hmod by lia; reflexivity);
    match goal with
    | |- (v mod 2 ^ 64) mod 2 ^ ?w = _ =>
        pose proof (Hmod w ltac:(lia) 0) as H0; rewrite !Z.add_0_r in H0; exact H0
    end.
Qed.

(** X1. The integer branches store a value [x] of the range of the
    column's element type unchanged when the 64 bits of the field hold it
    modulo 2^64 (negative values travel as their two's complement): for a
    UInt64 field in every branch, and for an Int64 field in every branch
    but that of Int32, which reads an Int64 field as a 24-bit value.
    Whatever an integer field of either variant holds, what is stored lies
    in the range of the element type. *)
Theorem X1_integer_branch_round_trip (T : NumberType) (lo hi x v : Z) (data : list Z) :
  integer_range T = Some (lo, hi) ->
  lo <= x < hi ->
  v mod 2 ^ 64 = x mod 2 ^ 64 ->
  branch_convert T (Field_UInt64 v) = Ok x
  /\ (T <> Int32 -> branch_convert T (Field_Int64 v) = Ok x)
  /\ writeFieldsToColumn false (ColumnVector T data) [[Field_UInt64 v]] 0%nat [] []
     = Ok (ColumnVector T (data ++ [x]), [])
  /\ (forall f, not_an_integer f = false ->
        exists z, branch_convert T f = Ok z /\ lo <= z < hi).
Proof.
  intros HT Hx Hv.
  assert (Hcast : static_cast_integer T (to_UInt64 v) = x).
  { pose proof (static_cast_integer_wrapped T lo hi x HT Hx) as H.
    unfold to_UInt64, to_unsigned in *. rewrite Z.mod_mod in H by lia. now rewrite Hv. }
  assert (Hcast32 : T = Int32 -> to_Int32 v = x).
  { intros ->. rewrite <- Hcast. cbn [static_cast_integer]. unfold to_Int32, to_UInt64, to_unsigned.
    symmetry. exact (static_cast_integer_mod Int32 lo hi v HT). }
  assert (Hconv : branch_convert T (Field_UInt64 v) = Ok x).
  { unfold branch_convert. destruct T; try discriminate HT;
      cbv [bool_decide decide_rel NumberType_eq_dec NumberType_rec NumberType_rect
           Int32_of_field Field_get_Int32 convert_number Field_get_UInt64 mbind Result_bind];
      try (f_equal; exact Hcast).
    f_equal. exact (Hcast32 eq_refl). }
  split; [exact Hconv|]. split; [|split].
  - intros Hne. unfold branch_convert. destruct T; try discriminate HT; try (now destruct Hne);
      cbv [bool_decide decide_rel NumberType_eq_dec NumberType_rec NumberType_rect
           convert_number Field_get_UInt64 mbind Result_bind];
      f_equal; exact Hcast.
  - unfold branch_convert in Hconv.
    destruct T; try discriminate HT;
      cbn [writeFieldsToColumn write_loop for_rows];
      unfold write_step; cbn [Tuple_at lookup list_lookup write_data_to_null_map mbind Result_bind];
      cbv [bool_decide decide_rel NumberType_eq_dec NumberType_rec NumberType_rect] in Hconv;
      rewrite Hconv; reflexivity.
  - intros f Hf. destruct f as [|u|i|bits|str]; try discriminate Hf;
      unfold branch_convert; destruct T; try discriminate HT;
      cbv [bool_decide decide_rel NumberType_eq_dec NumberType_rec NumberType_rect
           Int32_of_field Field_get_Int32 convert_number Field_get_UInt64 mbind Result_bind];
      eexists; (split; [reflexivity|]);
      try apply (static_cast_integer_range _ lo hi _ HT);
      injection HT as <- <-; first [apply to_Int32_range | apply (to_signed_range 32); lia].
Qed.

Lemma to_Int32_mod (x : Z) : to_Int32 x mod 2 ^ 32 = x mod 2 ^ 32.
Proof.
  unfold to_Int32, to_signed. change (32 - 1) with 31.
  rewrite <- (Zminus_mod_idemp_l ((x + 2 ^ 31) mod 2 ^ 32)), Z.mod_mod by lia.
  rewrite Zminus_mod_idemp_l. f_equal. lia.
Qed.

Lemma to_UInt32_to_Int32 (x : Z) : to_UInt32 (to_Int32 x) = to_UInt32 x.
Proof. apply to_Int32_mod. Qed.

Lemma to_Int32_testbit (x i : Z) : 0 <= i < 32 -> Z.testbit (to_Int32 x) i = Z.testbit x i.
Proof.
  intros Hi. rewrite <- (Z.mod_pow2_bits_low (to_Int32 x) 32 i) by lia.
  rewrite to_Int32_mod. apply Z.mod_pow2_bits_low. lia.
Qed.

Lemma lor_high_byte_absorbs (y : Z) :
  0xFF800000 <= y < 2 ^ 32 -> Z.lor y 0xFF000000 = y.
Proof.
  intros Hy. pose proof (lor_high_byte (y - 0xFF000000) ltac:(lia)) as H.
  replace y with (Z.lor (y - 0xFF000000) 0xFF000000) at 1 by lia.
  rewrite <- Z.lor_assoc, Z.lor_diag. lia.
Qed.

Lemma to_UInt32_lor_high_byte (x : Z) :
  to_UInt32 (Z.lor (to_UInt32 x) 0xFF000000) = Z.lor (to_UInt32 x) 0xFF000000.
Proof.
  unfold to_UInt32, to_unsigned. rewrite <- Z.land_ones by lia.
  rewrite Z.land_lor_distr_l, !Z.land_ones by lia.
  rewrite Z.mod_mod by lia. reflexivity.
Qed.

(** X2. The MEDIUMINT arm of the [ColumnInt32] branch leaves a signed
    field in -2^23 .. 2^23 - 1 unchanged, extending twice is extending
    once, and a 24-bit payload always lands in -2^23 .. 2^23 - 1. *)
Theorem X2_mediumint_extension_is_stable :
  (forall x, - 2 ^ 23 <= x < 2 ^ 23 -> Int32_of_field (Field_Int64 x) = Ok x)
  /\ (forall num, int24_extend (int24_extend num) = int24_extend num)
  /\ (forall v, exists z, Int32_of_field (Field_Int64 (v mod 2 ^ 24)) = Ok z
                          /\ - 2 ^ 23 <= z < 2 ^ 23).
Proof.
  split; [|split].
  - intros x Hx. cbv [Int32_of_field Field_get_Int32 mbind Result_bind]. f_equal.
    rewrite (to_Int32_small x) by lia. rewrite int24_extend_testbit.
    destruct (Z.ltb_spec x 0) as [Hneg|Hpos].
    + assert (Hlog : Z.log2 (Z.pred (- x)) < 23).
      { destruct (Z.eq_dec (Z.pred (- x)) 0) as [->|Hne];
          [reflexivity | apply Z.log2_lt_pow2; lia]. }
      rewrite (Z.bits_above_log2_neg x 23 Hneg Hlog).
      assert (Hu : to_UInt32 x = x + 2 ^ 32).
      { unfold to_UInt32, to_unsigned. symmetry. apply (Z.mod_unique _ _ (-1)); lia. }
      rewrite Hu, lor_high_byte_absorbs by lia.
      rewrite <- Hu, to_Int32_to_UInt32. apply to_Int32_small. lia.
    + assert (Hlog : Z.log2 x < 23).
      { destruct (Z.eq_dec x 0) as [->|Hne]; [reflexivity | apply Z.log2_lt_pow2; lia]. }
      rewrite (Z.bits_above_log2 x 23 Hpos Hlog).
      rewrite to_Int32_to_UInt32. apply to_Int32_small. lia.
  - intros num. rewrite (int24_extend_testbit (int24_extend num)).
    rewrite (int24_extend_testbit num).
    rewrite to_Int32_testbit by lia. rewrite to_UInt32_to_Int32.
    destruct (Z.testbit num 23) eqn:Hb.
    + assert (Hb' : Z.testbit (Z.lor (to_UInt32 num) 0xFF000000) 23 = true).
      { rewrite Z.lor_spec. unfold to_UInt32, to_unsigned.
        rewrite Z.mod_pow2_bits_low by lia. now rewrite Hb. }
      rewrite Hb', to_UInt32_lor_high_byte.
      rewrite <- Z.lor_assoc, Z.lor_diag. reflexivity.
    + assert (Hb' : Z.testbit (to_UInt32 num) 23 = false).
      { unfold to_UInt32, to_unsigned. now rewrite Z.mod_pow2_bits_low by lia. }
      rewrite Hb'. unfold to_UInt32, to_unsigned. now rewrite Z.mod_mod by lia.
  - intros v. eexists. split.
    + cbv [Int32_of_field Field_get_Int32 mbind Result_bind]. reflexivity.
    + rewrite int24_extend_sign_extends. apply (to_signed_range 24 v). lia.
Qed.

(** ** The writer at its edges *)

Lemma for_rows_app {St} (body : nat -> Tuple -> St -> Result St) (l1 l2 : list Tuple) :
  forall (index : nat) (s : St),
    for_rows body index (l1 ++ l2) s
    = (s' ← for_rows body index l1 s; for_rows body (index + length l1) l2 s').
Proof.
  induction l1 as [|r l1 IH]; intros index s; cbn [app for_rows length].
  - cbn. now rewrite Nat.add_0_r.
  - destruct (body index r s) as [s1|e]; cbn; [|reflexivity].
    rewrite IH. now replace (S index + length l1)%nat with (index + S (length l1))%nat by lia.
Qed.

(** X3. An [Int32] column that is not nullable throws LOGICAL_ERROR at the
    first row whose field is neither of the two integer variants (a
    string, a float or a null), whatever rows follow it. *)
Theorem X3_int32_column_rejects_other_fields
    (data : list Z) (good : list Tuple) (bad : Tuple) (rest : list Tuple)
    (column_index : nat) (f : Field) :
  Forall (fun r => exists g, r !! column_index = Some g /\ not_an_integer g = false) good ->
  bad !! column_index = Some f ->
  not_an_integer f = true ->
  writeFieldsToColumn false (ColumnVector Int32 data) (good ++ bad :: rest) column_index [] []
  = Throw (Exception "LOGICAL ERROR: it is a bug." LOGICAL_ERROR).
Proof.
  intros Hgood Hbad Hf.
  assert (Hstep : forall index t,
            write_step false 0 Int32_of_field column_index [] index bad t
            = Throw (Exception "LOGICAL ERROR: it is a bug." LOGICAL_ERROR)).
  { intros index t. unfold write_step, Tuple_at. rewrite Hbad.
    cbn [mbind Result_bind write_data_to_null_map].
    destruct f; try discriminate Hf; reflexivity. }
  cbn [writeFieldsToColumn]. unfold write_loop.
  rewrite for_rows_app.
  rewrite (write_loop_spec false 0 Int32_of_field (fun g => unwrap 0 (Int32_of_field g))
             column_index [] good 0 (mkTarget data [])).
  - cbn [mbind Result_bind for_rows]. rewrite Hstep. reflexivity.
  - now left.
  - eapply Forall_impl; [exact Hgood|]. intros r (g & Hg & _). rewrite Hg. eauto.
  - rewrite select_rows_nil. eapply Forall_impl; [exact Hgood|]. intros r (g & Hg & Hint).
    cbn. unfold field_of. rewrite Hg. cbn.
    destruct g; try discriminate Hint; reflexivity.
Qed.

Lemma writeFieldsToColumn_other (c : IColumn) :
  bottoms_in_other c = true ->
  forall assert_nullable rows_data column_index mask null_map_column,
    writeFieldsToColumn assert_nullable c rows_data column_index mask null_map_column
    = Throw (Exception "Unsupported data type from MySQL." NOT_IMPLEMENTED).
Proof.
  induction c as [T d|d|n d|nested IH nm|rows]; intros H; try discriminate H; intros.
  - cbn [writeFieldsToColumn]. rewrite IH by exact H. reflexivity.
  - reflexivity.
Qed.

(** X4. A column of a class the writer has no branch for, also under
    [ColumnNullable], makes it throw NOT_IMPLEMENTED before any row is
    looked at, so also for an event without rows; in
    [onWriteOrDeleteData] the throw leaves the column moved out of the
    block and the trailers untouched. *)
Theorem X4_unsupported_column_fails_even_without_rows
    (c : IColumn) (n : string) (rest : Block) (sign : Z) (rows_data : list Tuple) (version : Z) :
  bottoms_in_other c = true ->
  (2 <= length rest)%nat ->
  Block_columns (mkColumn (Some c) n :: rest) < 2 ^ 64 ->
  Forall (fun elem => is_Some (column elem)) rest ->
  (forall assert_nullable column_index mask null_map_column,
     writeFieldsToColumn assert_nullable c rows_data column_index mask null_map_column
     = Throw (Exception "Unsupported data type from MySQL." NOT_IMPLEMENTED))
  /\ onWriteOrDeleteData sign rows_data version (mkColumn (Some c) n :: rest)
     = (Throw (Exception "Unsupported data type from MySQL." NOT_IMPLEMENTED),
        mkColumn None n :: rest).
Proof.
  intros Hc Hlen Hn Hrest. split.
  - intros. now apply writeFieldsToColumn_other.
  - set (b := mkColumn (Some c) n :: rest).
    destruct (Block_bytes_Ok b) as [n0 Hn0].
    { constructor; [cbn; eauto|exact Hrest]. }
    unfold onWriteOrDeleteData.
    erewrite M_bind_Ok by exact Hn0.
    erewrite M_bind_Throw; [reflexivity|].
    unfold write_user_columns. erewrite M_bind_Ok by reflexivity.
    assert (Hp2 : columns_minus b 2 = (length b - 2)%nat).
    { apply (columns_minus_small b 2); [cbn; lia|exact Hn]. }
    rewrite Hp2. destruct (length b - 2)%nat as [|k] eqn:Hk; [cbn in Hk; lia|].
    cbn [for_range]. erewrite M_bind_Throw; [reflexivity|].
    unfold write_user_column. erewrite M_bind_Ok by reflexivity.
    erewrite M_bind_Throw; [reflexivity|].
    unfold lift. rewrite writeFieldsToColumn_other by exact Hc. reflexivity.
Qed.

(** ** Nullable columns *)

(** X28. Rows written to a nullable column whose nested column has a
    branch leave, for each row the mask lets through, one entry in the null
    map, 1 under a null field and 0 otherwise, and one value in the nested
    column, its default under a null field and the converted field
    otherwise; the null map handed in from outside is not touched, and the
    rows the mask leaves out add nothing. *)
Theorem X28_null_fields_store_the_default_and_flag_the_null_map
    (assert_nullable : bool) (nested : IColumn) (null_map : list Z) (rows_data : list Tuple)
    (column_index : nat) (mask : list bool) (null_map_column : list Z) :
  is_plain nested = true ->
  mask = [] \/ length mask = length rows_data ->
  Forall (fun r => is_Some (r !! column_index)) rows_data ->
  Forall (fun r => Field_isNull (field_of r column_index) = true
                   \/ is_Some (spec_materialize nested (field_of r column_index)))
    (select_rows mask 0 rows_data) ->
  exists nested',
    writeFieldsToColumn assert_nullable (ColumnNullable nested null_map) rows_data column_index
      mask null_map_column
    = Ok (ColumnNullable nested'
            (null_map ++
             ((fun r => if Field_isNull (field_of r column_index) then 1 else 0)
                <$> select_rows mask 0 rows_data)),
          null_map_column)
    /\ same_class nested nested'
    /\ IColumn_cells nested'
       = IColumn_cells nested ++
         ((fun r => if Field_isNull (field_of r column_index) then default_cell nested
                    else default COpaque (spec_materialize nested (field_of r column_index)))
            <$> select_rows mask 0 rows_data).
Proof.
  intros Hplain Hmask Hsome Hfits.
  destruct (writeFieldsToColumn_plain true nested rows_data column_index mask null_map
              Hplain Hmask Hsome) as (nested' & Hrun & Hclass & Hcells).
  { eapply Forall_impl; [exact Hfits|]. intros r [Hn|Hm]; [left|right]; assumption. }
  exists nested'. cbn [writeFieldsToColumn]. rewrite Hrun.
  split; [reflexivity|]. split; [exact Hclass|exact Hcells].
Qed.

(** ** Rows the mask leaves out *)

Lemma user_columns_selected (b : Block) (rows_data : list Tuple) (mask : list bool) :
  Block_ready b = true ->
  mask = [] \/ length mask = length rows_data ->
  Forall (fun r : Tuple => (length b - 2 <= length r)%nat) rows_data ->
  Forall (fun r => row_fits b r = true) (select_rows mask 0 rows_data) ->
  exists b1,
    write_user_columns rows_data mask b = (Ok tt, b1)
    /\ length b1 = length b
    /\ (forall ci, (length b - 2 <= ci)%nat -> b1 !! ci = b !! ci)
    /\ (forall ci elem c, (ci < length b - 2)%nat ->
          b !! ci = Some elem -> column elem = Some c ->
          exists c', b1 !! ci = Some (mkColumn (Some c') (name elem))
             /\ written c c' (column_cells c ci (select_rows mask 0 rows_data))).
Proof.
  intros Hready Hmask Hlong Hfits.
  destruct (Block_ready_inv b Hready) as (Hcols & Htr & Hn).
  destruct (trailers_ready_inv b Htr) as (_ & _ & _ & _ & Hlen2 & _).
  destruct (for_range_write rows_data mask Hmask (length b - 2) 0 b) as (b1 & Hrun & Hl & Hout & Hin).
  { lia. }
  { intros ci elem Hci Hlk. destruct (Hcols ci elem Hlk) as (c & Hc & Hsup & _).
    exists c. split; [assumption|]. split; [assumption|]. split.
    - eapply Forall_impl; [exact Hlong|]. intros r Hr. cbv beta in Hr.
      apply lookup_lt_is_Some_2. lia.
    - eapply Forall_impl; [exact Hfits|]. intros r Hr.
      eapply (row_fits_inv b r Hr ci elem c); [lia|assumption..]. }
  exists b1. split; [|split; [exact Hl|split]].
  - assert (Hp2 : columns_minus b 2 = (length b - 2)%nat)
      by (apply (columns_minus_small b 2); assumption || lia).
    unfold write_user_columns. erewrite M_bind_Ok by reflexivity.
    rewrite Hp2. exact Hrun.
  - intros ci Hci. apply Hout. lia.
  - intros ci elem c Hci. apply Hin. lia.
Qed.

Lemma onUpdateData_selected (pairs : list (Tuple * Tuple)) (v : Z) (sorting : list nat) (b : Block) :
  Block_ready b = true ->
  Forall (fun i => (i < length b - 2)%nat) sorting ->
  Forall (fun r : Tuple => (length b - 2 <= length r)%nat) (rows_of_pairs pairs) ->
  Forall (fun r => row_fits b r = true) ((update_emitted sorting pairs).*1) ->
  exists bytes b',
    onUpdateData (rows_of_pairs pairs) v sorting b = (Ok bytes, b')
    /\ Block_extended b b' (spec_update_rows b sorting v pairs).
Proof.
  intros Hready Hsort Hlong Hfits.
  destruct (Block_ready_inv b Hready) as (Hcols & Htr & Hn).
  destruct (trailers_ready_inv b Htr) as (e1 & e2 & d1 & d2 & Hlen2 & H1 & Hc1 & H2 & Hc2).
  destruct (Block_bytes_Ok b (Block_ready_columns b Hready)) as [n0 Hn0].
  assert (Hmask : writeable_rows_mask (rows_of_pairs pairs) sorting = Ok (update_mask sorting pairs)).
  { apply writeable_rows_mask_pairs. clear - Hlong Hsort.
    induction pairs as [|[pre post] rest IH]; [constructor|].
    change (rows_of_pairs ((pre, post) :: rest)) with (pre :: post :: rows_of_pairs rest) in Hlong.
    apply Forall_cons in Hlong as [Hpre Hlong]. apply Forall_cons in Hlong as [Hpost Hlong].
    constructor; [|auto].
    eapply Forall_impl; [exact Hsort|]. intros i Hi. cbv beta in Hi.
    split; apply lookup_lt_is_Some_2; lia. }
  set (mask := update_mask sorting pairs) in *.
  assert (Hml : mask = [] \/ length mask = length (rows_of_pairs pairs)).
  { right. unfold mask. now rewrite update_mask_length, rows_of_pairs_length. }
  pose proof (select_rows_emitted sorting pairs []) as Hsel. cbn [app length] in Hsel.
  fold mask in Hsel.
  destruct (user_columns_selected b (rows_of_pairs pairs) mask Hready Hml Hlong)
    as (b1 & Hrun & Hl & Hout & Hin).
  { rewrite Hsel. exact Hfits. }
  rewrite Hsel in Hin.
  pose proof (extended_of_parts b b1 (update_emitted sorting pairs) v e1 e2 d1 d2
                Hready Hlen2 H1 Hc1 H2 Hc2 Hfits Hl Hout Hin) as Hext.
  rewrite <- spec_update_rows_emitted in Hext.
  rewrite <- update_signs_emitted in Hext. fold mask in Hext.
  destruct (Block_bytes_Ok _ (Block_extended_columns _ _ _ Hext)) as [n1 Hn1].
  eexists _, _. split; [|exact Hext].
  unfold onUpdateData. rewrite rows_of_pairs_length.
  replace (2 * length pairs mod 2)%nat with 0%nat
    by (symmetry; rewrite Nat.mul_comm; apply Nat.Div0.mod_mul).
  cbn [Nat.eqb negb].
  erewrite M_bind_Ok by exact Hn0.
  erewrite M_bind_Ok by (unfold lift; rewrite Hmask; reflexivity).
  erewrite M_bind_Ok by exact Hrun.
  rewrite (trailers_written_then _ b1 e1 e2 d1 d2); rewrite ?Hl; try assumption.
  - erewrite M_bind_Ok by (rewrite <- Hl; exact Hn1). rewrite <- Hl. reflexivity.
  - unfold Block_columns in *. now rewrite Hl.
  - rewrite Hout by lia. exact H1.
  - rewrite Hout by lia. exact H2.
Qed.

Lemma spec_update_rows_lengths (b : Block) (sorting : list nat) (v : Z)
    (pairs : list (Tuple * Tuple)) :
  Block_ready b = true ->
  Forall (fun img => length img = length b) (spec_update_rows b sorting v pairs).
Proof.
  intros Hready.
  destruct (Block_ready_inv b Hready) as (_ & Htr & _).
  destruct (trailers_ready_inv b Htr) as (_ & _ & _ & _ & Hlen2 & _).
  rewrite spec_update_rows_emitted. apply Forall_fmap, Forall_true.
  intros [r sg]. now apply spec_row_length.
Qed.

(** X5. In an update, a pre-image whose sorting key is unchanged is read
    (it must have a field for every user column) but never converted: it
    may hold fields its columns could not take, and the event still appends
    exactly the rows of the post-images and of the changed pre-images. *)
Theorem X5_unchanged_pre_images_are_read_but_not_converted
    (pairs : list (Tuple * Tuple)) (v : Z) (sorting : list nat) (b : Block) :
  Block_ready b = true ->
  Forall (fun i => (i < length b - 2)%nat) sorting ->
  Forall (fun '(pre, post) =>
            (length b - 2 <= length pre)%nat
            /\ row_fits b post = true
            /\ (spec_sorting_changed pre post sorting = true -> row_fits b pre = true))
    pairs ->
  exists bytes b',
    onUpdateData (rows_of_pairs pairs) v sorting b = (Ok bytes, b')
    /\ Block_ready b' = true
    /\ Block_table b' = Block_table b ++ spec_update_rows b sorting v pairs.
Proof.
  intros Hready Hsort Hpairs.
  destruct (Block_ready_inv b Hready) as (Hcols & _ & _).
  assert (Hlong : Forall (fun r : Tuple => (length b - 2 <= length r)%nat) (rows_of_pairs pairs)).
  { clear - Hpairs Hcols. induction Hpairs as [|[pre post] rest (Hpre & Hpost & _) _ IH]; [constructor|].
    change (rows_of_pairs ((pre, post) :: rest)) with (pre :: post :: rows_of_pairs rest).
    constructor; [exact Hpre|]. constructor; [|exact IH].
    apply Nat.le_ngt. intros Hlt.
    destruct (lookup_lt_is_Some_2 b (length post)) as [elem Hlk]; [lia|].
    destruct (Hcols _ elem Hlk) as (c & Hc & _).
    destruct (row_fits_inv b post Hpost (length post) elem c Hlt Hlk Hc) as [[f Hf] _].
    apply lookup_lt_Some in Hf. lia. }
  assert (Hfits : Forall (fun r => row_fits b r = true) ((update_emitted sorting pairs).*1)).
  { clear - Hpairs. induction Hpairs as [|[pre post] rest (_ & Hpost & Hpre) _ IH]; [constructor|].
    unfold update_emitted in *. cbn. rewrite fmap_app. apply Forall_app. split; [|exact IH].
    destruct (spec_sorting_changed pre post sorting); repeat constructor; auto. }
  destruct (onUpdateData_selected pairs v sorting b Hready Hsort Hlong Hfits)
    as (bytes & b' & Hrun & Hext).
  destruct (Block_extended_table b b' _ Hready Hext (spec_update_rows_lengths b sorting v pairs Hready))
    as (Hready' & _ & Htable).
  exists bytes, b'. auto.
Qed.

(** ** The comparison of sorting keys *)

(** X6. For sorting indices inside both images, [differenceSortingKeys]
    returns, and it returns [true] exactly when the images differ at some
    sorting index, [false] exactly when they agree at all of them. *)
Theorem X6_differenceSortingKeys_iff_some_sorting_column_differs
    (row_old_data row_new_data : Tuple) (sorting_columns_index : list nat) :
  Forall (fun i => (i < length row_old_data)%nat /\ (i < length row_new_data)%nat)
    sorting_columns_index ->
  (exists changed, differenceSortingKeys row_old_data row_new_data sorting_columns_index = Ok changed)
  /\ (differenceSortingKeys row_old_data row_new_data sorting_columns_index = Ok true
      <-> exists i, i ∈ sorting_columns_index /\ row_old_data !! i <> row_new_data !! i)
  /\ (differenceSortingKeys row_old_data row_new_data sorting_columns_index = Ok false
      <-> forall i, i ∈ sorting_columns_index -> row_old_data !! i = row_new_data !! i).
Proof.
  intros Hin.
  assert (Hrun : differenceSortingKeys row_old_data row_new_data sorting_columns_index
                 = Ok (spec_sorting_changed row_old_data row_new_data sorting_columns_index)).
  { apply differenceSortingKeys_spec. eapply Forall_impl; [exact Hin|].
    intros i [H1 H2]. split; apply lookup_lt_is_Some_2; assumption. }
  rewrite Hrun. unfold spec_sorting_changed. split; [eauto|]. split.
  - split.
    + intros [= H]. apply existsb_exists in H as (i & Hi & Hd).
      exists i. split; [now apply list_elem_of_In|]. now apply bool_decide_eq_true in Hd.
    + intros (i & Hi & Hd). f_equal. apply existsb_exists. exists i.
      split; [now apply list_elem_of_In|]. now apply bool_decide_eq_true.
  - split.
    + intros [= H] i Hi. destruct (decide (row_old_data !! i = row_new_data !! i)) as [|Hne]; [assumption|].
      assert (Ht : existsb (fun i => bool_decide (row_old_data !! i ≠ row_new_data !! i))
                     sorting_columns_index = true).
      { apply existsb_exists. exists i. split; [now apply list_elem_of_In|].
        now apply bool_decide_eq_true. }
      congruence.
    + intros Hall. f_equal. apply not_true_is_false. intros H.
      apply existsb_exists in H as (i & Hi & Hd). apply bool_decide_eq_true in Hd.
      apply Hd, Hall. now apply list_elem_of_In.
Qed.

(** X7. [differenceSortingKeys] returns [true] at the first sorting index
    where the images differ and does not read the indices after it, which
    may lie outside the images. *)
Theorem X7_differenceSortingKeys_stops_at_the_first_difference
    (row_old_data row_new_data : Tuple) (equal : list nat) (i : nat) (rest : list nat)
    (old new : Field) :
  Forall (fun j => is_Some (row_old_data !! j) /\ row_old_data !! j = row_new_data !! j) equal ->
  row_old_data !! i = Some old ->
  row_new_data !! i = Some new ->
  old <> new ->
  differenceSortingKeys row_old_data row_new_data (equal ++ i :: rest) = Ok true.
Proof.
  intros Heq Hold Hnew Hne.
  induction Heq as [|j equal [[f Hf] Hj] _ IH]; cbn [app differenceSortingKeys].
  - unfold Tuple_at. rewrite Hold, Hnew. cbn. now rewrite bool_decide_eq_true_2.
  - unfold Tuple_at. rewrite <- Hj, Hf. cbn.
    rewrite bool_decide_eq_false_2 by auto. exact IH.
Qed.

(** ** The buffer of a table *)

Lemma Block_find_Some (n : string) (b : Block) :
  forall (k p : nat) (elem : ColumnWithTypeAndName),
    Block_find b n k = Some (p, elem) ->
    (k <= p)%nat /\ b !! (p - k)%nat = Some elem /\ name elem = n
    /\ forall j e, (j < p - k)%nat -> b !! j = Some e -> name e <> n.
Proof.
  induction b as [|x b IH]; intros k p elem H; [discriminate H|].
  cbn [Block_find] in H. case_bool_decide as Hx.
  - injection H as <- <-. rewrite Nat.sub_diag. repeat split; auto. intros j e Hj. lia.
  - destruct (IH _ _ _ H) as (Hk & Hlk & Hn & Hfirst).
    split; [lia|]. replace (p - k)%nat with (S (p - S k)) by lia.
    split; [exact Hlk|]. split; [exact Hn|].
    intros [|j] e Hj He; [cbn in He; congruence|].
    apply (Hfirst j e); [lia|exact He].
Qed.

Lemma Block_find_None (n : string) (b : Block) :
  forall k, Forall (fun elem => name elem <> n) b -> Block_find b n k = None.
Proof.
  induction b as [|x b IH]; intros k H; [reflexivity|].
  apply Forall_cons in H as [Hx H]. cbn [Block_find].
  rewrite bool_decide_eq_false_2 by exact Hx. now apply IH.
Qed.

Lemma Block_getPositionByName_first (b : Block) (n : string) (p : nat) :
  Block_getPositionByName b n = Ok p ->
  exists elem, b !! p = Some elem /\ name elem = n
    /\ forall j e, (j < p)%nat -> b !! j = Some e -> name e <> n.
Proof.
  unfold Block_getPositionByName. destruct (Block_find b n 0) as [[q elem]|] eqn:E; [|discriminate].
  intros [= ->]. destruct (Block_find_Some n b 0 p elem E) as (_ & Hlk & Hn & Hfirst).
  rewrite Nat.sub_0_r in *. eauto.
Qed.

Lemma set_data_insert_twice (table : string) (x y : BufferAndSortingColumns) (s : SyncState) :
  set_buffers (set_data (insert table x)) (set_buffers (set_data (insert table y)) s)
  = set_buffers (set_data (insert table x)) s.
Proof.
  destruct s as [[db d m1 m2 t1 t2] md st cp]. unfold set_buffers, set_data.
  cbn [buffers data metadata store client_position
       database max_block_rows max_block_bytes total_blocks_rows total_blocks_bytes].
  now rewrite insert_insert_eq.
Qed.

Lemma set_data_insert_same (table : string) (x : BufferAndSortingColumns) (s : SyncState) :
  data (buffers s) !! table = Some x ->
  set_buffers (set_data (insert table x)) s = s.
Proof.
  destruct s as [[db d m1 m2 t1 t2] md st cp]. unfold set_buffers, set_data.
  cbn [buffers data metadata store client_position
       database max_block_rows max_block_bytes total_blocks_rows total_blocks_bytes].
  intros H. now rewrite insert_id.
Qed.

Lemma data_set_data_insert (table : string) (x : BufferAndSortingColumns) (s : SyncState) :
  data (buffers (set_buffers (set_data (insert table x)) s)) !! table = Some x.
Proof. unfold set_buffers, set_data. cbn [buffers data]. apply lookup_insert_eq. Qed.

Lemma push_sorting_column (table required_name : string) (rest : list string)
    (s : SyncState) (block : Block) (sorting : list nat) :
  data (buffers s) !! table = Some (block, sorting) ->
  push_sorting_columns table (required_name :: rest) s
  = match Block_getPositionByName block required_name with
    | Ok position =>
        push_sorting_columns table rest
          (set_buffers (set_data (insert table (block, sorting ++ [position]))) s)
    | Throw e => (Throw e, s)
    end.
Proof.
  intros Hdata. cbn [push_sorting_columns].
  destruct (Block_getPositionByName block required_name) as [position|e] eqn:E.
  - erewrite M_bind_Ok by (eapply on_block_run; [exact Hdata|]; rewrite E; reflexivity).
    rewrite (set_data_insert_same table (block, sorting) s Hdata).
    erewrite M_bind_Ok; [reflexivity|].
    unfold modify. f_equal.
    destruct s as [[db d m1 m2 t1 t2] md st cp]. unfold set_buffers, set_data.
    cbn [buffers data metadata store client_position
         database max_block_rows max_block_bytes total_blocks_rows total_blocks_bytes] in *.
    now rewrite Hdata.
  - erewrite M_bind_Throw; [reflexivity|].
    erewrite on_block_run; [|exact Hdata|rewrite E; reflexivity].
    now rewrite (set_data_insert_same table (block, sorting) s Hdata).
Qed.

Lemma push_sorting_columns_found (table : string) (block : Block)
    (names : list string) (positions : list nat) :
  Forall2 (fun n p => Block_getPositionByName block n = Ok p) names positions ->
  forall (tail : list string) (s : SyncState) (sorting : list nat),
    data (buffers s) !! table = Some (block, sorting) ->
    push_sorting_columns table (names ++ tail) s
    = push_sorting_columns table tail
        (set_buffers (set_data (insert table (block, sorting ++ positions))) s).
Proof.
  induction 1 as [|n p names positions Hp _ IH]; intros tail s sorting Hdata.
  - rewrite app_nil_r. now rewrite (set_data_insert_same table (block, sorting) s Hdata).
  - cbn [app]. rewrite (push_sorting_column table n _ s block sorting Hdata), Hp.
    rewrite (IH tail _ (sorting ++ [p])) by apply data_set_data_insert.
    rewrite set_data_insert_twice, <- app_assoc. reflexivity.
Qed.

Lemma getTableDataBuffer_absent (table : string) (s : SyncState) (storage : StorageInMemoryMetadata) :
  data (buffers s) !! table = None ->
  catalog (store s) !! (database (buffers s), table) = Some storage ->
  getTableDataBuffer table s
  = push_sorting_columns table (getColumnsRequiredForSortingKey storage)
      (set_buffers (set_data (insert table (getSampleBlock storage, []))) s).
Proof.
  intros Hdata Hcat. unfold getTableDataBuffer. rewrite Hdata.
  erewrite M_bind_Ok.
  2:{ unfold on_store, getTable. rewrite Hcat. reflexivity. }
  erewrite M_bind_Ok by reflexivity.
  reflexivity.
Qed.

(** X8. The first [getTableDataBuffer] for a table of the catalog stores
    its sample block with, for each column of the sorting key in order, the
    position of the first column of that name; nothing else of the state
    changes, and a second call returns the same buffer without touching the
    state. *)
Theorem X8_getTableDataBuffer_creates_the_buffer_once
    (table : string) (s : SyncState) (storage : StorageInMemoryMetadata) (positions : list nat) :
  data (buffers s) !! table = None ->
  catalog (store s) !! (database (buffers s), table) = Some storage ->
  Forall2 (fun n p => Block_getPositionByName (getSampleBlock storage) n = Ok p)
    (getColumnsRequiredForSortingKey storage) positions ->
  let s' := set_buffers (set_data (insert table (getSampleBlock storage, positions))) s in
  getTableDataBuffer table s = (Ok tt, s')
  /\ getTableDataBuffer table s' = (Ok tt, s')
  /\ Forall2 (fun n p =>
        exists elem, getSampleBlock storage !! p = Some elem /\ name elem = n
          /\ forall j e, (j < p)%nat -> getSampleBlock storage !! j = Some e -> name e <> n)
       (getColumnsRequiredForSortingKey storage) positions.
Proof.
  intros Hdata Hcat Hpos s'. split; [|split].
  - rewrite (getTableDataBuffer_absent table s storage Hdata Hcat).
    rewrite <- (app_nil_r (getColumnsRequiredForSortingKey storage)).
    rewrite (push_sorting_columns_found table _ _ _ Hpos [] _ []) by apply data_set_data_insert.
    rewrite set_data_insert_twice. reflexivity.
  - eapply getTableDataBuffer_present. apply data_set_data_insert.
  - eapply Forall2_impl; [exact Hpos|]. intros n p. apply Block_getPositionByName_first.
Qed.

(** X9. [getTableDataBuffer] for a table without a buffer throws
    UNKNOWN_TABLE and leaves the state as it was when the catalog has no
    such table. When a column of the sorting key is missing from the sample
    block it throws NOT_FOUND_COLUMN_IN_BLOCK, but the buffer is already in
    [data] with the positions found so far, and a later call returns that
    buffer. *)
Theorem X9_getTableDataBuffer_failures
    (table : string) (s : SyncState) :
  data (buffers s) !! table = None ->
  (catalog (store s) !! (database (buffers s), table) = None ->
   exists message,
     getTableDataBuffer table s = (Throw (Exception message UNKNOWN_TABLE), s))
  /\ (forall storage found positions missing rest,
        catalog (store s) !! (database (buffers s), table) = Some storage ->
        getColumnsRequiredForSortingKey storage = found ++ missing :: rest ->
        Forall2 (fun n p => Block_getPositionByName (getSampleBlock storage) n = Ok p)
          found positions ->
        Forall (fun elem => name elem <> missing) (getSampleBlock storage) ->
        let s' := set_buffers (set_data (insert table (getSampleBlock storage, positions))) s in
        getTableDataBuffer table s = (Throw (not_found_column missing), s')
        /\ getTableDataBuffer table s' = (Ok tt, s')).
Proof.
  intros Hdata. split.
  - intros Hcat. eexists. unfold getTableDataBuffer. rewrite Hdata.
    erewrite M_bind_Throw; [reflexivity|].
    unfold on_store, getTable. rewrite Hcat. destruct s as [bf md st cp]. reflexivity.
  - intros storage found positions missing rest Hcat Hnames Hpos Hmiss s'. split.
    + rewrite (getTableDataBuffer_absent table s storage Hdata Hcat), Hnames.
      rewrite (push_sorting_columns_found table _ _ _ Hpos _ _ []) by apply data_set_data_insert.
      rewrite set_data_insert_twice. cbn [app].
      rewrite (push_sorting_column table missing rest _ (getSampleBlock storage) positions)
        by apply data_set_data_insert.
      unfold Block_getPositionByName. now rewrite (Block_find_None missing _ 0 Hmiss).
    + eapply getTableDataBuffer_present. apply data_set_data_insert.
Qed.

(** ** Thresholds and the flush *)

Lemma flushBuffersData_Ok (s s' : SyncState) :
  flushBuffersData s = (Ok tt, s') ->
  buffers s' = mkBuffers (database (buffers s)) ∅ 0 0 0 0
  /\ metadata s' = mkMetadata (binlog_name (client_position s)) (binlog_pos (client_position s))
                     (version (metadata s))
  /\ client_position s' = client_position s
  /\ exists effects,
       journal (store s') = journal (store s) ++ effects ++ [CommitPosition (client_position s)]
       /\ flushed (database (buffers s)) global_context (map_to_list (data (buffers s))) effects.
Proof.
  unfold flushBuffersData, transaction.
  destruct (commit global_context s) as [[[]|e] s1] eqn:E; [|intros [=]].
  intros [= <-]. pose proof (commit_frame _ _ _ _ E) as (Hmd & Hcp).
  apply commit_Ok in E as (Hb & effects & Hj & Hf).
  unfold set_metadata, set_store. cbn [buffers metadata store client_position journal].
  rewrite Hmd. repeat split; try assumption.
  exists effects. split; [|exact Hf]. rewrite Hj, <- app_assoc. reflexivity.
Qed.

(** X10. [commit] always leaves [data] empty. After a commit that
    succeeded a threshold is reached only if it is zero or less; after one
    that threw, [checkThresholds] answers as before the commit. *)
Theorem X10_commit_rearms_the_thresholds
    (context : Context) (s s' : SyncState) (r : Result unit)
    (check_block_rows check_block_bytes check_total_rows check_total_bytes : Z) :
  commit context s = (r, s') ->
  data (buffers s') = ∅
  /\ match r with
     | Ok _ =>
         checkThresholds check_block_rows check_block_bytes check_total_rows check_total_bytes
           (buffers s')
         = (check_block_rows <=? 0) || (check_block_bytes <=? 0)
           || (check_total_rows <=? 0) || (check_total_bytes <=? 0)
     | Throw _ =>
         checkThresholds check_block_rows check_block_bytes check_total_rows check_total_bytes
           (buffers s')
         = checkThresholds check_block_rows check_block_bytes check_total_rows check_total_bytes
             (buffers s)
     end.
Proof.
  intros H. destruct r as [[]|e].
  - apply commit_Ok in H as (Hb & _). rewrite Hb. split; reflexivity.
  - apply commit_Throw in H. rewrite H. split; reflexivity.
Qed.

(** ** What an update event adds to the counters *)

Lemma update_event_applied (s s0 : SyncState) (table : string) (rows : list Tuple)
    (b b' : Block) (sorting : list nat) (bytes : Z) :
  getTableDataBuffer table s = (Ok tt, s0) ->
  data (buffers s0) !! table = Some (b, sorting) ->
  onUpdateData rows (to_UInt64 (version (metadata s0) + 1)) sorting b = (Ok bytes, b') ->
  Forall (fun elem => is_Some (column elem)) b' ->
  exists block_bytes,
    onEvent (UpdateRowsEvent table rows) s
    = (Ok tt, after_row_event s0 table b' sorting (length rows) bytes block_bytes).
Proof.
  intros Hget Hdata Hw Hcols.
  destruct (Block_bytes_Ok b' Hcols) as [bb Hbb]. exists bb.
  cbn [onEvent].
  erewrite M_bind_Ok by exact Hget.
  erewrite M_bind_Ok by reflexivity.
  erewrite M_bind_Ok by (unfold sorting_columns, increment_version, set_metadata;
                         cbn [buffers]; rewrite Hdata; reflexivity).
  erewrite M_bind_Ok.
  2:{ eapply on_block_run; [exact Hdata|]. exact Hw. }
  unfold account.
  erewrite M_bind_Ok.
  2:{ eapply on_block_run; [|reflexivity].
      unfold set_buffers, set_metadata, set_data. cbn [buffers data]. apply lookup_insert_eq. }
  erewrite M_bind_Ok.
  2:{ eapply on_block_run; [|exact Hbb].
      unfold set_buffers, set_metadata, set_data. cbn [buffers data]. apply lookup_insert_eq. }
  unfold modify, after_row_event. f_equal.
  destruct s0 as [[db d m1 m2 t1 t2] md st cp].
  unfold set_buffers, set_metadata, set_data, Buffers_add.
  cbn [buffers data metadata store client_position
       database max_block_rows max_block_bytes total_blocks_rows total_blocks_bytes
       version binlog_file binlog_position].
  rewrite !insert_insert_eq. reflexivity.
Qed.

Lemma spec_update_rows_length (b : Block) (sorting : list nat) (v : Z)
    (pairs : list (Tuple * Tuple)) :
  length (spec_update_rows b sorting v pairs)
  = (length pairs + changed_pairs sorting pairs)%nat.
Proof.
  unfold changed_pairs.
  induction pairs as [|[pre post] rest IH]; [reflexivity|].
  unfold spec_update_rows in *. cbn [mbind list_bind]. rewrite length_app, IH.
  cbn [List.filter]. destruct (spec_sorting_changed pre post sorting); cbn [length]; lia.
Qed.

Lemma changed_pairs_le (sorting : list nat) (pairs : list (Tuple * Tuple)) :
  (changed_pairs sorting pairs <= length pairs)%nat.
Proof. unfold changed_pairs. apply List.filter_length_le. Qed.

(** X11. An update event of n pairs appends n rows plus one for every
    pair whose sorting key changes, between n and 2n in all, and adds 2n,
    the length of its row sequence, to [total_blocks_rows];
    [max_block_rows] becomes the maximum of its old value and the rows of
    the table's block. *)
Theorem X11_update_event_counts_two_rows_per_pair
    (s s0 : SyncState) (table : string) (pairs : list (Tuple * Tuple))
    (b : Block) (sorting : list nat) :
  getTableDataBuffer table s = (Ok tt, s0) ->
  data (buffers s0) !! table = Some (b, sorting) ->
  Block_ready b = true ->
  Forall (fun i => (i < length b - 2)%nat) sorting ->
  Forall (fun r => row_fits b r = true) (rows_of_pairs pairs) ->
  exists s' b',
    onEvent (UpdateRowsEvent table (rows_of_pairs pairs)) s = (Ok tt, s')
    /\ data (buffers s') !! table = Some (b', sorting)
    /\ Block_rows b' = (Block_rows b + length pairs + changed_pairs sorting pairs)%nat
    /\ (length pairs <= Block_rows b' - Block_rows b <= 2 * length pairs)%nat
    /\ total_blocks_rows (buffers s')
       = to_UInt64 (total_blocks_rows (buffers s0) + Z.of_nat (2 * length pairs))
    /\ max_block_rows (buffers s')
       = Z.max (Z.of_nat (Block_rows b')) (max_block_rows (buffers s0)).
Proof.
  intros Hget Hdata Hready Hsort Hfits.
  set (v := to_UInt64 (version (metadata s0) + 1)).
  destruct (onUpdateData_extends pairs v sorting b Hready Hsort Hfits) as (bytes & b' & Hw & Hext).
  destruct (update_event_applied s s0 table _ b b' sorting bytes Hget Hdata Hw
              (Block_extended_columns _ _ _ Hext)) as (bb & Hrun).
  destruct (Block_extended_table b b' _ Hready Hext (spec_update_rows_lengths b sorting v pairs Hready))
    as (_ & Hrows & _).
  rewrite spec_update_rows_length in Hrows.
  pose proof (changed_pairs_le sorting pairs) as Hle.
  eexists _, b'. split; [exact Hrun|].
  unfold after_row_event, Buffers_add, set_data.
  cbn [buffers data total_blocks_rows max_block_rows].
  split; [apply lookup_insert_eq|]. split; [lia|]. split; [lia|].
  rewrite rows_of_pairs_length. split; reflexivity.
Qed.

(** ** The turns of the loop *)

(** X12. A flush of empty buffers reaches the store only as the commit
    of the client's position, and resets the counters. A turn of the loop
    that reads no event while the buffers are empty does not even do that:
    it leaves buffers, metadata and store as they are, whatever the
    time. *)
Theorem X12_empty_flush_commits_only_the_position (s : SyncState) :
  data (buffers s) = ∅ ->
  flushBuffersData s
  = (Ok tt,
     mkSync (mkBuffers (database (buffers s)) ∅ 0 0 0 0)
       (mkMetadata (binlog_name (client_position s)) (binlog_pos (client_position s))
          (version (metadata s)))
       (mkStore (catalog (store s))
          (journal (store s) ++ [CommitPosition (client_position s)]))
       (client_position s))
  /\ forall settings elapsed_at_read readOneBinlogEvent elapsed_after_event position,
       readOneBinlogEvent (read_deadline (max_flush_data_time settings) elapsed_at_read)
       = (None, position) ->
       exists over,
         synchronization_turn settings elapsed_at_read readOneBinlogEvent elapsed_after_event s
         = (Ok over, mkSync (buffers s) (metadata s) (store s) position).
Proof.
  intros Hempty. split.
  - unfold flushBuffersData, transaction, commit, on_store.
    rewrite Hempty, map_to_list_empty. cbn [commit_loop].
    destruct s as [bf md [cat jr] cp]. reflexivity.
  - intros settings e1 reader e2 position Hread.
    unfold synchronization_turn. rewrite Hread.
    erewrite M_bind_Ok by reflexivity. erewrite M_bind_Ok by reflexivity.
    erewrite M_bind_Ok by reflexivity. cbn [buffers].
    destruct (_ || _); [|eexists; reflexivity].
    erewrite M_bind_Ok by reflexivity. cbn [buffers].
    rewrite bool_decide_eq_true_2 by exact Hempty.
    eexists. reflexivity.
Qed.

Lemma synchronization_turn_run (settings : MaterializeMySQLSettings)
    (elapsed_at_read : Z) (readOneBinlogEvent : Z -> option BinlogEvent * Position)
    (elapsed_after_event : Z) (s : SyncState) (binlog_event : option BinlogEvent)
    (position : Position) (r : Result unit) (s1 : SyncState) :
  readOneBinlogEvent (read_deadline (max_flush_data_time settings) elapsed_at_read)
  = (binlog_event, position) ->
  match binlog_event with
  | Some event => onEvent event (mkSync (buffers s) (metadata s) (store s) position)
  | None => (Ok tt, mkSync (buffers s) (metadata s) (store s) position)
  end = (r, s1) ->
  synchronization_turn settings elapsed_at_read readOneBinlogEvent elapsed_after_event s
  = match r with
    | Throw e => (Throw e, s1)
    | Ok _ =>
        if (max_flush_data_time settings <? elapsed_after_event)
           || checkThresholds (max_rows_in_buffer settings) (max_bytes_in_buffer settings)
                (max_rows_in_buffers settings) (max_bytes_in_buffers settings) (buffers s1)
        then
          if bool_decide (data (buffers s1) = ∅) then (Ok true, s1)
          else match flushBuffersData s1 with
               | (Ok _, s2) => (Ok true, s2)
               | (Throw e, s2) => (Throw e, s2)
               end
        else (Ok false, s1)
    end.
Proof.
  intros Hread Hevent. unfold synchronization_turn. rewrite Hread.
  erewrite M_bind_Ok by reflexivity.
  destruct r as [[]|e].
  - erewrite M_bind_Ok.
    2:{ destruct binlog_event; exact Hevent. }
    erewrite M_bind_Ok by reflexivity.
    destruct (_ || _); [|reflexivity].
    erewrite M_bind_Ok by reflexivity.
    destruct (bool_decide _); [reflexivity|].
    unfold mbind at 1, M_bind at 1.
    destruct (flushBuffersData s1) as [[[]|e] s2]; reflexivity.
  - erewrite M_bind_Throw; [reflexivity|].
    destruct binlog_event; exact Hevent.
Qed.

(** X13. When a turn of the loop returns having restarted the watch, the
    buffers are empty; when it returns without restarting it, the flush
    time has not passed and every counter is below its threshold. *)
Theorem X13_restarting_the_watch_means_empty_buffers
    (settings : MaterializeMySQLSettings) (elapsed_at_read : Z)
    (readOneBinlogEvent : Z -> option BinlogEvent * Position) (elapsed_after_event : Z)
    (s s' : SyncState) (restarted : bool) :
  synchronization_turn settings elapsed_at_read readOneBinlogEvent elapsed_after_event s
  = (Ok restarted, s') ->
  if restarted
  then data (buffers s') = ∅
  else elapsed_after_event <= max_flush_data_time settings
       /\ max_block_rows (buffers s') < max_rows_in_buffer settings
       /\ max_block_bytes (buffers s') < max_bytes_in_buffer settings
       /\ total_blocks_rows (buffers s') < max_rows_in_buffers settings
       /\ total_blocks_bytes (buffers s') < max_bytes_in_buffers settings.
Proof.
  destruct (readOneBinlogEvent (read_deadline (max_flush_data_time settings) elapsed_at_read))
    as [binlog_event position] eqn:Hread.
  destruct (match binlog_event with
            | Some event => onEvent event (mkSync (buffers s) (metadata s) (store s) position)
            | None => (Ok tt, mkSync (buffers s) (metadata s) (store s) position)
            end) as [r s1] eqn:Hevent.
  rewrite (synchronization_turn_run settings elapsed_at_read readOneBinlogEvent elapsed_after_event
             s binlog_event position r s1 Hread Hevent).
  destruct r as [[]|e]; [|intros [=]].
  destruct (_ || _) eqn:Hover.
  - case_bool_decide as Hempty.
    + intros [= <- <-]. exact Hempty.
    + destruct (flushBuffersData s1) as [[[]|e] s2] eqn:Hflush; intros [= <- <-].
      apply flushBuffersData_Ok in Hflush as (Hb & _). now rewrite Hb.
  - intros [= <- <-]. unfold checkThresholds in Hover.
    repeat (apply orb_false_iff in Hover as [Hover ?]).
    repeat split; lia.
Qed.

(** X14. A write event that brings the rows of its table's block to
    [max_rows_in_buffer] or more is flushed in the turn that read it: the
    turn ends as the flush of the state the event left, with the position
    the client reported after the read. *)
Theorem X14_block_threshold_flushes_within_the_turn
    (settings : MaterializeMySQLSettings) (elapsed_at_read : Z)
    (readOneBinlogEvent : Z -> option BinlogEvent * Position) (elapsed_after_event : Z)
    (table : string) (rows : list Tuple) (position : Position)
    (s s0 : SyncState) (b : Block) (sorting : list nat) :
  readOneBinlogEvent (read_deadline (max_flush_data_time settings) elapsed_at_read)
  = (Some (WriteRowsEvent table rows), position) ->
  getTableDataBuffer table (mkSync (buffers s) (metadata s) (store s) position) = (Ok tt, s0) ->
  data (buffers s0) !! table = Some (b, sorting) ->
  Block_ready b = true ->
  Forall (fun r => row_fits b r = true) rows ->
  max_rows_in_buffer settings <= Z.of_nat (Block_rows b + length rows) ->
  exists s1 b',
    onEvent (WriteRowsEvent table rows) (mkSync (buffers s) (metadata s) (store s) position)
    = (Ok tt, s1)
    /\ data (buffers s1) !! table = Some (b', sorting)
    /\ Block_rows b' = (Block_rows b + length rows)%nat
    /\ client_position s1 = position
    /\ synchronization_turn settings elapsed_at_read readOneBinlogEvent elapsed_after_event s
       = match flushBuffersData s1 with
         | (Ok _, s2) => (Ok true, s2)
         | (Throw e, s2) => (Throw e, s2)
         end.
Proof.
  intros Hread Hget Hdata Hready Hfits Hmax.
  set (s_in := mkSync (buffers s) (metadata s) (store s) position) in *.
  set (v := to_UInt64 (version (metadata s0) + 1)).
  destruct (onWriteOrDeleteData_extends 1 rows v b Hready Hfits) as (bytes & b' & Hw & Hext).
  destruct (row_event_applied s_in s0 table b b' sorting (onWriteOrDeleteData 1 rows)
              (length rows) bytes Hget Hdata Hw (Block_extended_columns _ _ _ Hext))
    as (bb & Hrun).
  destruct (Block_extended_table b b' _ Hready Hext) as (_ & Hrows & _).
  { apply Forall_fmap, Forall_true. intros r. apply spec_row_length.
    destruct (Block_ready_inv b Hready) as (_ & Htr & _).
    destruct (trailers_ready_inv b Htr) as (_ & _ & _ & _ & Hlen2 & _). exact Hlen2. }
  rewrite length_fmap in Hrows.
  pose proof (getTableDataBuffer_frame _ _ _ _ Hget) as (_ & _ & Hcp & _).
  set (s1 := after_row_event s0 table b' sorting (length rows) bytes bb) in *.
  assert (Hlk : data (buffers s1) !! table = Some (b', sorting)).
  { unfold s1, after_row_event, Buffers_add, set_data. cbn [buffers data]. apply lookup_insert_eq. }
  exists s1, b'. split; [exact Hrun|]. split; [exact Hlk|]. split; [exact Hrows|].
  split; [exact Hcp|].
  rewrite (synchronization_turn_run settings elapsed_at_read readOneBinlogEvent elapsed_after_event
             s _ position (Ok tt) s1 Hread Hrun).
  assert (Hover : checkThresholds (max_rows_in_buffer settings) (max_bytes_in_buffer settings)
                    (max_rows_in_buffers settings) (max_bytes_in_buffers settings) (buffers s1)
                  = true).
  { unfold checkThresholds.
    assert (Hm : (max_rows_in_buffer settings <=? max_block_rows (buffers s1)) = true).
    { apply Z.leb_le. unfold s1, after_row_event, Buffers_add. cbn [buffers max_block_rows]. lia. }
    now rewrite Hm. }
  rewrite Hover, orb_true_r.
  rewrite bool_decide_eq_false_2; [reflexivity|].
  intros Hempty. rewrite Hempty, lookup_empty in Hlk. discriminate.
Qed.

Lemma idle_late_turn_flushes
    (settings : MaterializeMySQLSettings) (elapsed_at_read : Z)
    (readOneBinlogEvent : Z -> option BinlogEvent * Position) (elapsed_after_event : Z)
    (position : Position) (s : SyncState) :
  readOneBinlogEvent (read_deadline (max_flush_data_time settings) elapsed_at_read)
  = (None, position) ->
  max_flush_data_time settings < elapsed_after_event ->
  data (buffers s) <> ∅ ->
  synchronization_turn settings elapsed_at_read readOneBinlogEvent elapsed_after_event s
  = match flushBuffersData (mkSync (buffers s) (metadata s) (store s) position) with
    | (Ok _, s2) => (Ok true, s2)
    | (Throw e, s2) => (Throw e, s2)
    end.
Proof.
  intros Hread Hlate Hdata.
  rewrite (synchronization_turn_run settings elapsed_at_read readOneBinlogEvent
             elapsed_after_event s None position (Ok tt) _ Hread eq_refl).
  assert (Hl : (max_flush_data_time settings <? elapsed_after_event) = true)
    by (apply Z.ltb_lt; exact Hlate).
  rewrite Hl. cbn [orb].
  rewrite bool_decide_eq_false_2 by exact Hdata. reflexivity.
Qed.

(** X20. A turn that reads no event after the flush time has passed,
    with rows buffered, ends as the flush of the buffers at the position
    the client reported; when the flush succeeds the buffers are empty and
    the metadata holds that position. *)
Theorem X20_idle_turn_past_the_flush_time_flushes_at_the_reported_position
    (settings : MaterializeMySQLSettings) (elapsed_at_read : Z)
    (readOneBinlogEvent : Z -> option BinlogEvent * Position) (elapsed_after_event : Z)
    (position : Position) (s : SyncState) :
  readOneBinlogEvent (read_deadline (max_flush_data_time settings) elapsed_at_read)
  = (None, position) ->
  max_flush_data_time settings < elapsed_after_event ->
  data (buffers s) <> ∅ ->
  let s1 := mkSync (buffers s) (metadata s) (store s) position in
  synchronization_turn settings elapsed_at_read readOneBinlogEvent elapsed_after_event s
  = match flushBuffersData s1 with
    | (Ok _, s2) => (Ok true, s2)
    | (Throw e, s2) => (Throw e, s2)
    end
  /\ forall s2, flushBuffersData s1 = (Ok tt, s2) ->
       data (buffers s2) = ∅
       /\ binlog_file (metadata s2) = binlog_name position
       /\ binlog_position (metadata s2) = binlog_pos position
       /\ exists effects,
            journal (store s2) = journal (store s) ++ effects ++ [CommitPosition position]
            /\ flushed (database (buffers s)) global_context (map_to_list (data (buffers s)))
                 effects.
Proof.
  intros Hread Hlate Hdata s1. split.
  - now apply idle_late_turn_flushes.
  - intros s2 Hflush. apply flushBuffersData_Ok in Hflush as (Hb & Hmd & _ & effects & Hj & Hf).
    rewrite Hb, Hmd. cbn [data binlog_file binlog_position]. repeat split.
    exists effects. split; assumption.
Qed.

(** ** The bytes the buffers hold *)






(** ** The read deadline in general *)

(** X15. The read deadline always lies in 1 .. 2^64 - 1. It is the time
    left while the flush time has not passed, 1 when it has just passed,
    and after that 2^64 minus the time past it, which exceeds the flush
    time itself. *)
Theorem X15_read_deadline_in_general (max_flush_time elapsed : Z) :
  1 <= read_deadline max_flush_time elapsed < 2 ^ 64
  /\ (0 <= elapsed < max_flush_time -> max_flush_time < 2 ^ 64 ->
      read_deadline max_flush_time elapsed = max_flush_time - elapsed)
  /\ (elapsed = max_flush_time -> read_deadline max_flush_time elapsed = 1)
  /\ (0 <= max_flush_time < elapsed -> elapsed < 2 ^ 64 ->
      read_deadline max_flush_time elapsed = 2 ^ 64 - (elapsed - max_flush_time)
      /\ max_flush_time < read_deadline max_flush_time elapsed).
Proof.
  split; [|split; [|split]].
  - unfold read_deadline, to_UInt64, to_unsigned.
    pose proof (Z.mod_pos_bound (max_flush_time - elapsed) (2 ^ 64) ltac:(lia)). lia.
  - intros H1 H2. rewrite read_deadline_in_time by lia. lia.
  - intros ->. unfold read_deadline. now rewrite Z.sub_diag.
  - intros H1 H2. rewrite read_deadline_late by lia. split; [reflexivity|]. lia.
Qed.

(** ** The preflight check in general *)

(** X16. When the source answers the variables query with at least one
    row and a number of rows other than four, the preflight check throws
    ILLEGAL_MYSQL_VARIABLE, and the requirements its text lists are exactly
    those whose variable name is not among the rows returned, each of them
    once, in the order the map has them. (An answer without rows arrives as
    the empty block, which has no [Variable_name] column to ask for.) *)
Theorem X16_preflight_lists_the_requirements_not_met
    (names values : list string) (version_block : Block) :
  names <> [] ->
  length names <> 4%nat ->
  exists unmet : list (string * string),
    checkVariableAndGetVersion
      [mkColumn (Some (ColumnString names)) "Variable_name";
       mkColumn (Some (ColumnString values)) "Value"] version_block
    = Throw (Exception
               ("Illegal MySQL variables, the MaterializeMySQL engine requires "
                +:+ String.concat ", " (unmet.*2))
               ILLEGAL_MYSQL_VARIABLE)
    /\ NoDup (unmet.*1)
    /\ forall name text,
         (name, text) ∈ unmet
         <-> variables_error_message !! name = Some text /\ name ∉ names.
Proof.
  intros _ Hlen.
  destruct (preflight_lists_unmet names values version_block Hlen) as (unmet & Hrun & Hspec).
  exists (map_to_list unmet). split; [exact Hrun|]. split; [apply NoDup_fst_map_to_list|].
  intros name text. rewrite elem_of_map_to_list. apply Hspec.
Qed.

(** X17. When the source answers the variables query with four rows, the
    names in them are not looked at: the result is the one string of the
    version answer, and LOGICAL_ERROR when that answer is empty or has
    another number of rows. *)
Theorem X17_preflight_with_four_rows_only_reads_the_version
    (names values : list string) (version_block : Block) :
  length names = 4%nat ->
  let variables_block :=
    [mkColumn (Some (ColumnString names)) "Variable_name";
     mkColumn (Some (ColumnString values)) "Value"] in
  (forall versions n,
     version_block = [mkColumn (Some (ColumnString versions)) n] ->
     checkVariableAndGetVersion variables_block version_block
     = match versions with
       | [v] => Ok v
       | _ => Throw (Exception "LOGICAL ERROR: cannot get mysql version." LOGICAL_ERROR)
       end)
  /\ (version_block = [] ->
      checkVariableAndGetVersion variables_block version_block
      = Throw (Exception "LOGICAL ERROR: cannot get mysql version." LOGICAL_ERROR)).
Proof.
  intros Hlen variables_block.
  assert (Hrows : Block_rows variables_block = 4%nat) by exact Hlen.
  split.
  - intros versions n ->. unfold checkVariableAndGetVersion.
    rewrite Hrows. cbn [Block_bool variables_block Nat.eqb negb orb].
    cbn [Block_rows column IColumn_size].
    destruct versions as [|v [|v' versions]]; reflexivity.
  - intros ->. unfold checkVariableAndGetVersion.
    rewrite Hrows. reflexivity.
Qed.



(** ** The dump *)

Lemma scoped_scoped (query_context : Context) (database : string) :
  scoped (scoped query_context database) database = scoped query_context database.
Proof.
  unfold scoped. cbn [current_database insert_allow_materialized_columns secondary_query].
  destruct (String.eqb database ""); reflexivity.
Qed.

Lemma drop_tables_journal (database_name_ : string) (context : Context) (names : list string) :
  forall st r st',
    drop_tables database_name_ context names st = (r, st') ->
    exists reached,
      journal st' = journal st ++ (dropped database_name_ context <$> reached)
      /\ reached `prefix_of` names
      /\ match r with
         | Ok _ => reached = names
         | Throw _ => reached <> []
         end.
Proof.
  induction names as [|n rest IH]; intros st r st'.
  - cbn. intros [= <- <-]. exists []. rewrite app_nil_r. auto.
  - cbn [drop_tables]. unfold mbind at 1, M_bind at 1. rewrite tryToExecuteQuery_run. cbv zeta.
    destruct (executeQuery_outcome _ _ (catalog st)) as [[res tables]|e].
    + intros H. apply IH in H as (reached & Hj & Hp & Hr). cbn [journal] in Hj.
      exists (n :: reached). split; [rewrite Hj, <- app_assoc; reflexivity|].
      split; [now apply prefix_cons|].
      destruct r; [now f_equal|discriminate].
    + intros [= <- <-]. exists [n]. cbn [journal]. split; [reflexivity|].
      split; [|discriminate]. exists rest. reflexivity.
Qed.

(** X18. [cleanOutdatedTables] sends one DROP TABLE for each table the
    target database had on entry, in the order of the iterator, each under
    a query context scoped to that database, and nothing else; a throw
    stops it at the table whose DROP threw. *)
Theorem X18_cleanOutdatedTables_drops_the_tables_of_the_database
    (database_name_ : string) (context : Context) (st st' : Store) (r : Result unit) :
  cleanOutdatedTables database_name_ context st = (r, st') ->
  exists reached,
    journal st' = journal st ++ (dropped database_name_ context <$> reached)
    /\ reached `prefix_of` database_tables database_name_ (catalog st)
    /\ (forall table, table ∈ reached -> is_Some (catalog st !! (database_name_, table)))
    /\ match r with
       | Ok _ => reached = database_tables database_name_ (catalog st)
       | Throw _ => reached <> []
       end.
Proof.
  unfold cleanOutdatedTables. intros H.
  apply drop_tables_journal in H as (reached & Hj & Hp & Hr).
  exists reached. split; [exact Hj|]. split; [exact Hp|]. split; [|exact Hr].
  intros table Hin. destruct Hp as [rest Hp].
  assert (Hall : table ∈ database_tables database_name_ (catalog st)).
  { rewrite Hp. apply elem_of_app. now left. }
  unfold database_tables in Hall. apply list_elem_of_fmap in Hall as ([[db t] storage] & -> & Hf).
  apply list_elem_of_filter in Hf as [Hdb Hin']. cbn in Hdb. subst db.
  apply elem_of_map_to_list in Hin'. cbn. rewrite Hin'. eauto.
Qed.

Lemma dumpDataForTables_journal (connection : Connection) (query_prefix database_name_ mysql_database_name_ : string)
    (context : Context) (is_cancelled : nat -> bool) (need_dumping_tables : list (string * string)) :
  forall iteration st st',
    dumpDataForTables connection need_dumping_tables query_prefix database_name_ mysql_database_name_
      context is_cancelled iteration st = (Ok tt, st') ->
    exists effects,
      journal st' = journal st ++ effects
      /\ dumped connection query_prefix database_name_ mysql_database_name_ context
           (until_cancelled is_cancelled iteration need_dumping_tables)
           (catalog st) effects (catalog st').
Proof.
  induction need_dumping_tables as [|[table_name create_query] rest IH]; intros iteration st st'.
  - cbn. intros [= <-]. exists []. now rewrite app_nil_r.
  - cbn [dumpDataForTables until_cancelled]. destruct (is_cancelled iteration).
    { intros [= <-]. exists []. now rewrite app_nil_r. }
    unfold mbind at 1, M_bind at 1. rewrite tryToExecuteQuery_run. cbv zeta.
    destruct (executeQuery_outcome _ _ (catalog st)) as [[res tables]|e] eqn:Hcreate;
      [|intros [=]].
    unfold mbind at 1, M_bind at 1.
    unfold getTableOutput at 1. unfold mbind at 1, M_bind at 1. unfold getTable at 1.
    cbn [catalog].
    destruct (tables !! (database_name_, table_name)) as [storage|] eqn:Hstorage; [|intros [=]].
    unfold mbind at 1, M_bind at 1. rewrite tryToExecuteQuery_run. cbv zeta.
    rewrite scoped_scoped. cbn [catalog journal].
    destruct (executeQuery_outcome _ _ tables) as [[[[|]] tables']|e] eqn:Hinsert;
      cbn [out]; [|intros [=]|intros [=]].
    unfold mret at 1, M_ret at 1. unfold mbind at 1, M_bind at 1.
    unfold dump_copy at 1. cbn [sink_table sink_columns catalog journal].
    destruct (connection _) as [blocks [e|]] eqn:Hcopy; [intros [=]|].
    intros H. apply IH in H as (effects & Hj & Hd). cbn [journal catalog] in Hj, Hd.
    eexists. split; [rewrite Hj, <- !app_assoc; reflexivity|].
    cbn [dumped]. exists res, tables, storage, tables', effects. rewrite Hcopy.
    split; [exact Hcreate|]. split; [exact Hstorage|]. split; [exact Hinsert|].
    split; [reflexivity|exact Hd].
Qed.

(** X19. A dump that returns has, for each table before the first
    iteration at which it read that it was cancelled, first run the
    table's CREATE query behind the prefix, then opened an INSERT over the
    ordinary columns only of the storage the catalog held for the table
    after that query, and copied the source's blocks into it. Cancelled at
    its first iteration it returns normally without any effect; never
    cancelled it goes through all tables. *)
Theorem X19_dump_creates_then_fills_each_table_until_cancelled
    (connection : Connection) (need_dumping_tables : list (string * string))
    (query_prefix database_name_ mysql_database_name_ : string) (context : Context)
    (is_cancelled : nat -> bool) (st : Store) :
  (forall st',
     dumpDataForTables connection need_dumping_tables query_prefix database_name_ mysql_database_name_
       context is_cancelled 0 st = (Ok tt, st') ->
     exists effects,
       journal st' = journal st ++ effects
       /\ dumped connection query_prefix database_name_ mysql_database_name_ context
            (until_cancelled is_cancelled 0 need_dumping_tables)
            (catalog st) effects (catalog st'))
  /\ (is_cancelled 0%nat = true ->
      dumpDataForTables connection need_dumping_tables query_prefix database_name_ mysql_database_name_
        context is_cancelled 0 st = (Ok tt, st))
  /\ ((forall iteration, is_cancelled iteration = false) ->
      until_cancelled is_cancelled 0 need_dumping_tables = need_dumping_tables).
Proof.
  split; [|split].
  - intros st'. apply dumpDataForTables_journal.
  - intros Hc. destruct need_dumping_tables as [|[t q] rest]; [reflexivity|].
    cbn [dumpDataForTables]. now rewrite Hc.
  - intros Hnever. generalize 0%nat.
    induction need_dumping_tables as [|x rest IH]; intros k; [reflexivity|].
    cbn [until_cancelled]. now rewrite Hnever, IH.
Qed.

(** ** Preparation *)

Lemma prepare_try_loaded (around : Surroundings) (a : Attempt) (st : Preparing)
    (entry : PoolEntry) (metadata : MaterializeMetadata)
    (need_dumping_tables : list (string * string)) :
  pool_get a = Ok entry ->
  getDatabase (DatabaseCatalog_getDatabase around) database_name = Ok tt ->
  MaterializeMetadata_new a = Ok (metadata, need_dumping_tables) ->
  prepare_try around a st
  = (metadata ← dump_in_transaction entry a metadata need_dumping_tables;
     opened ← gets opened_transaction;
     _ ← (if (opened : bool) then connection_query "COMMIT" else mret tt);
     _ ← to_source ClientConnect (client_connect a);
     _ ← to_source
           (ClientStartBinlogDump (randomNumber a) mysql_database_name
              (binlog_file metadata) (binlog_position metadata))
           (client_startBinlogDump a);
     mret metadata)
      (mkPreparing (target st) (source st) (MaterializeMetadata_opened_transaction a)
         (Some entry)).
Proof.
  intros Hpool Hdb Hnew. unfold prepare_try.
  erewrite M_bind_Ok by (rewrite Hpool; reflexivity).
  erewrite M_bind_Ok by reflexivity.
  erewrite M_bind_Ok by (unfold lift; rewrite Hdb; reflexivity).
  erewrite M_bind_Ok by reflexivity.
  erewrite M_bind_Ok by (unfold lift; rewrite Hnew; reflexivity).
  reflexivity.
Qed.

Lemma prepare_try_started (a : Attempt) (st : Preparing) (entry : PoolEntry)
    (metadata : MaterializeMetadata) :
  connection st = Some entry ->
  (opened_transaction st = true -> entry_execute entry "COMMIT" = None) ->
  client_connect a = None ->
  client_startBinlogDump a = None ->
  (opened ← gets opened_transaction;
   _ ← (if (opened : bool) then connection_query "COMMIT" else mret tt);
   _ ← to_source ClientConnect (client_connect a);
   _ ← to_source
         (ClientStartBinlogDump (randomNumber a) mysql_database_name
            (binlog_file metadata) (binlog_position metadata))
         (client_startBinlogDump a);
   mret metadata) st
  = (Ok metadata,
     mkPreparing (target st)
       (source st
        ++ (if opened_transaction st then [ConnectionQuery "COMMIT"] else [])
        ++ [ClientConnect;
            ClientStartBinlogDump (randomNumber a) mysql_database_name
              (binlog_file metadata) (binlog_position metadata)])
       (opened_transaction st) (connection st)).
Proof.
  intros Hconn Hcommit Hconnect Hstart.
  erewrite M_bind_Ok by reflexivity.
  destruct st as [tg src opened conn]. cbn [connection opened_transaction target source] in *.
  subst conn. rewrite Hconnect, Hstart.
  destruct opened.
  - erewrite M_bind_Ok.
    2:{ unfold connection_query, to_source. cbn [connection]. rewrite Hcommit by reflexivity.
        reflexivity. }
    unfold to_source, mbind, M_bind, mret, M_ret.
    cbn [target source opened_transaction connection app].
    rewrite <- !app_assoc. reflexivity.
  - unfold to_source, mbind, M_bind, mret, M_ret.
    cbn [target source opened_transaction connection app].
    rewrite <- !app_assoc. reflexivity.
Qed.

(** X22. With no table to dump, a first attempt that is not cancelled and
    on which the source answers leaves the target store untouched, commits
    the transaction of the source exactly when the metadata opened one,
    then connects the client and starts the binlog dump at the file and
    position of the metadata, which it returns. *)
Theorem X22_preparation_without_tables_to_dump_only_starts_the_stream
    (around : Surroundings) (a : Attempt) (rest : list Attempt) (st : Preparing)
    (entry : PoolEntry) (metadata : MaterializeMetadata) :
  prepare_isCancelled around 0%nat = false ->
  pool_get a = Ok entry ->
  getDatabase (DatabaseCatalog_getDatabase around) database_name = Ok tt ->
  MaterializeMetadata_new a = Ok (metadata, []) ->
  (MaterializeMetadata_opened_transaction a = true -> entry_execute entry "COMMIT" = None) ->
  client_connect a = None ->
  client_startBinlogDump a = None ->
  prepareSynchronized around 0 (a :: rest) st
  = Some (Ok (Some metadata),
          mkPreparing (target st)
            (source st
             ++ (if MaterializeMetadata_opened_transaction a
                 then [ConnectionQuery "COMMIT"] else [])
             ++ [ClientConnect;
                 ClientStartBinlogDump (randomNumber a) mysql_database_name
                   (binlog_file metadata) (binlog_position metadata)])
            (MaterializeMetadata_opened_transaction a) (Some entry)).
Proof.
  intros Hgo Hpool Hdb Hnew Hcommit Hconnect Hstart.
  cbn [prepareSynchronized]. rewrite Hgo.
  rewrite (prepare_try_loaded around a st entry metadata [] Hpool Hdb Hnew).
  cbn [dump_in_transaction]. erewrite M_bind_Ok by reflexivity.
  erewrite prepare_try_started;
    [reflexivity|reflexivity|exact Hcommit|exact Hconnect|exact Hstart].
Qed.

(** X23. When the dump reads at its first check that it is cancelled, the
    attempt still succeeds: the outdated tables have been dropped, no
    table has been created or filled, and yet the transaction of the
    metadata commits its position, the transaction of the source is
    committed, and the client is started. *)
Theorem X23_cancelled_dump_still_commits_the_position
    (around : Surroundings) (a : Attempt) (rest : list Attempt) (st : Preparing)
    (entry : PoolEntry) (metadata : MaterializeMetadata)
    (table : string * string) (tables : list (string * string)) (dropped_target : Store) :
  prepare_isCancelled around 0%nat = false ->
  pool_get a = Ok entry ->
  getDatabase (DatabaseCatalog_getDatabase around) database_name = Ok tt ->
  MaterializeMetadata_new a = Ok (metadata, table :: tables) ->
  dump_is_cancelled a 0%nat = true ->
  cleanOutdatedTables database_name global_context (target st) = (Ok tt, dropped_target) ->
  (MaterializeMetadata_opened_transaction a = true -> entry_execute entry "COMMIT" = None) ->
  client_connect a = None ->
  client_startBinlogDump a = None ->
  prepareSynchronized around 0 (a :: rest) st
  = Some (Ok (Some metadata),
          mkPreparing
            (mkStore (catalog dropped_target)
               (journal dropped_target
                ++ [CommitPosition (mkPosition (binlog_file metadata) (binlog_position metadata))]))
            (source st
             ++ (if MaterializeMetadata_opened_transaction a
                 then [ConnectionQuery "COMMIT"] else [])
             ++ [ClientConnect;
                 ClientStartBinlogDump (randomNumber a) mysql_database_name
                   (binlog_file metadata) (binlog_position metadata)])
            (MaterializeMetadata_opened_transaction a) (Some entry))
  /\ journal dropped_target
     = journal (target st)
       ++ (dropped database_name global_context
             <$> database_tables database_name (catalog (target st))).
Proof.
  intros Hgo Hpool Hdb Hnew Hcancel Hclean Hcommit Hconnect Hstart. split.
  - cbn [prepareSynchronized]. rewrite Hgo.
    rewrite (prepare_try_loaded around a st entry metadata _ Hpool Hdb Hnew).
    erewrite M_bind_Ok.
    2:{ cbn [dump_in_transaction]. unfold transaction, on_store, thread_state.
        cbn [store target]. unfold mbind at 1, M_bind at 1. rewrite Hclean.
        destruct table as [table_name create_query]. cbn [dumpDataForTables].
        rewrite Hcancel. cbn. destruct metadata. reflexivity. }
    erewrite prepare_try_started;
      [reflexivity|reflexivity|exact Hcommit|exact Hconnect|exact Hstart].
  - unfold cleanOutdatedTables in Hclean.
    apply drop_tables_journal in Hclean as (reached & Hj & _ & ->). exact Hj.
Qed.

Lemma prepare_catch_run (around : Surroundings) (e : Thrown) (st : Preparing) :
  prepare_catch around e st
  = let rolled :=
      if opened_transaction st then connection_query "ROLLBACK" st else (Ok tt, st) in
    match rolled with
    | (Ok _, st') =>
        if is_ConnectionFailed around e
        then (Ok tt,
              mkPreparing (target st')
                (source st' ++ [SleepForMilliseconds (max_wait_time_when_mysql_unavailable around)])
                (opened_transaction st') (connection st'))
        else (Throw e, st')
    | (Throw e', st') => (Throw e', st')
    end.
Proof.
  unfold prepare_catch. erewrite M_bind_Ok by reflexivity. cbv zeta.
  unfold mbind at 1, M_bind at 1.
  destruct (opened_transaction st).
  - destruct (connection_query "ROLLBACK" st) as [[[]|e'] st']; [|reflexivity].
    destruct (is_ConnectionFailed around e); reflexivity.
  - cbn. destruct (is_ConnectionFailed around e); reflexivity.
Qed.

(** X24. After an attempt that threw, ROLLBACK is sent on the connection
    exactly when [opened_transaction] is set. A throw of the ROLLBACK
    leaves the function. Otherwise a connection failure is followed by a
    sleep of [max_wait_time_when_mysql_unavailable] and the next attempt,
    and every other exception leaves the function at once: it is not
    retried. *)
Theorem X24_only_connection_failures_are_retried
    (around : Surroundings) (iteration : nat) (a : Attempt) (rest : list Attempt)
    (st st1 : Preparing) (e : Thrown) :
  prepare_isCancelled around iteration = false ->
  prepare_try around a st = (Throw e, st1) ->
  let slept (st' : Preparing) :=
    mkPreparing (target st')
      (source st' ++ [SleepForMilliseconds (max_wait_time_when_mysql_unavailable around)])
      (opened_transaction st') (connection st') in
  (opened_transaction st1 = false ->
   prepareSynchronized around iteration (a :: rest) st
   = if is_ConnectionFailed around e
     then prepareSynchronized around (S iteration) rest (slept st1)
     else Some (Throw e, st1))
  /\ (forall entry,
        opened_transaction st1 = true ->
        connection st1 = Some entry ->
        let rolled_back :=
          mkPreparing (target st1) (source st1 ++ [ConnectionQuery "ROLLBACK"]) true
            (Some entry) in
        prepareSynchronized around iteration (a :: rest) st
        = match entry_execute entry "ROLLBACK" with
          | Some e' => Some (Throw e', rolled_back)
          | None =>
              if is_ConnectionFailed around e
              then prepareSynchronized around (S iteration) rest (slept rolled_back)
              else Some (Throw e, rolled_back)
          end).
Proof.
  intros Hgo Htry slept. split.
  - intros Hopened. cbn [prepareSynchronized]. rewrite Hgo, Htry, prepare_catch_run, Hopened.
    cbv zeta. destruct (is_ConnectionFailed around e); reflexivity.
  - intros entry Hopened Hconn rolled_back.
    cbn [prepareSynchronized]. rewrite Hgo, Htry, prepare_catch_run, Hopened.
    cbv zeta. unfold connection_query, to_source. rewrite Hconn, Hopened.
    destruct (entry_execute entry "ROLLBACK") as [e'|]; [reflexivity|].
    destruct (is_ConnectionFailed around e); reflexivity.
Qed.

(** X25. [opened_transaction] is reset only after [pool.get()] has
    returned: when an attempt that opened a transaction fails on a lost
    connection and the next [pool.get()] fails too, ROLLBACK is sent a
    second time, on the entry of the first attempt. *)
Theorem X25_rollback_is_repeated_when_the_pool_fails_next
    (around : Surroundings) (a1 a2 : Attempt) (rest : list Attempt) (st : Preparing)
    (entry : PoolEntry) (e1 e2 : Thrown) :
  prepare_isCancelled around 0%nat = false ->
  prepare_isCancelled around 1%nat = false ->
  pool_get a1 = Ok entry ->
  getDatabase (DatabaseCatalog_getDatabase around) database_name = Ok tt ->
  MaterializeMetadata_opened_transaction a1 = true ->
  MaterializeMetadata_new a1 = Throw e1 ->
  is_ConnectionFailed around e1 = true ->
  entry_execute entry "ROLLBACK" = None ->
  pool_get a2 = Throw e2 ->
  is_ConnectionFailed around e2 = true ->
  let wait := SleepForMilliseconds (max_wait_time_when_mysql_unavailable around) in
  prepareSynchronized around 0 (a1 :: a2 :: rest) st
  = prepareSynchronized around 2 rest
      (mkPreparing (target st)
         (source st ++ [ConnectionQuery "ROLLBACK"; wait; ConnectionQuery "ROLLBACK"; wait])
         true (Some entry)).
Proof.
  intros Hgo0 Hgo1 Hpool1 Hdb Hopened Hnew He1 Hroll Hpool2 He2 wait.
  assert (Htry1 : prepare_try around a1 st
                  = (Throw e1, mkPreparing (target st) (source st) true (Some entry))).
  { unfold prepare_try.
    erewrite M_bind_Ok by (rewrite Hpool1; reflexivity).
    erewrite M_bind_Ok by reflexivity.
    erewrite M_bind_Ok by (unfold lift; rewrite Hdb; reflexivity).
    erewrite M_bind_Ok by reflexivity.
    erewrite M_bind_Throw; [|unfold lift; rewrite Hnew; reflexivity].
    rewrite Hopened. reflexivity. }
  cbn [prepareSynchronized]. rewrite Hgo0, Htry1, prepare_catch_run.
  cbn [opened_transaction]. unfold connection_query at 1, to_source at 1.
  cbn [connection target source opened_transaction]. rewrite Hroll, He1.
  rewrite Hgo1.
  assert (Htry2 : forall st', prepare_try around a2 st' = (Throw e2, st')).
  { intros st'. unfold prepare_try. erewrite M_bind_Throw; [reflexivity|].
    rewrite Hpool2. reflexivity. }
  rewrite Htry2, prepare_catch_run.
  cbn [opened_transaction]. unfold connection_query, to_source.
  cbn [connection target source opened_transaction]. rewrite Hroll, He2.
  cbn [connection target source opened_transaction].
  rewrite <- !app_assoc. reflexivity.
Qed.

(** ** The thread *)

(** X26. [synchronization] lets no exception out as long as the database
    is still a [DatabaseMaterializeMySQL]: what preparation or a turn of
    the loop throws ends up on the database. Cancelled at the first check
    of preparation it ends without any effect and without an exception.
    But when the database is of another class, the first attempt that gets
    a connection throws the LOGICAL_ERROR of [getDatabase], the handler
    throws it again, and it leaves the function. *)
Theorem X26_the_thread_records_what_is_thrown
    (around : Surroundings) (attempts : list Attempt) (settings : MaterializeMySQLSettings)
    (isCancelled : nat -> bool) (now_at_start : Z) (turns : list Turn) (st : Preparing) :
  (getDatabase (DatabaseCatalog_getDatabase around) database_name = Ok tt ->
   forall thread_end,
     synchronization around attempts settings isCancelled now_at_start turns st
     = Some thread_end ->
     escaped thread_end = None
     /\ (forall e st',
           prepareSynchronized around 0 attempts st = Some (Throw e, st') ->
           thread_end = mkThreadEnd (target st') (source st') (Some e) None))
  /\ (prepare_isCancelled around 0%nat = true ->
      synchronization around attempts settings isCancelled now_at_start turns st
      = Some (mkThreadEnd (target st) (source st) None None))
  /\ (forall a rest entry e,
        attempts = a :: rest ->
        prepare_isCancelled around 0%nat = false ->
        pool_get a = Ok entry ->
        getDatabase (DatabaseCatalog_getDatabase around) database_name = Throw e ->
        is_ConnectionFailed around e = false ->
        synchronization around attempts settings isCancelled now_at_start turns st
        = Some (mkThreadEnd (target st) (source st) None (Some e))).
Proof.
  split; [|split].
  - intros Hdb thread_end. unfold synchronization, synchronization_catch. rewrite Hdb.
    destruct (prepareSynchronized around 0 attempts st) as [[[[metadata|]|e] st']|]; [| | |intros [=]].
    + destruct (synchronization_loop _ _ _ _ _ _) as [[[[]|e] s]|]; [| |intros [=]];
        intros [= <-]; (split; [reflexivity|intros ? ? [=]]).
    + intros [= <-]. split; [reflexivity|intros ? ? [=]].
    + intros [= <-]. split; [reflexivity|]. intros e0 st0 [= <- <-]. reflexivity.
  - intros Hc. unfold synchronization.
    destruct attempts; cbn [prepareSynchronized]; rewrite Hc; reflexivity.
  - intros a rest entry e -> Hgo Hpool Hdb He.
    assert (Htry : prepare_try around a st
                   = (Throw e, mkPreparing (target st) (source st) false (Some entry))).
    { unfold prepare_try.
      erewrite M_bind_Ok by (rewrite Hpool; reflexivity).
      erewrite M_bind_Ok by reflexivity.
      erewrite M_bind_Throw; [reflexivity|]. unfold lift. rewrite Hdb. reflexivity. }
    unfold synchronization. cbn [prepareSynchronized].
    rewrite Hgo, Htry, prepare_catch_run. cbn [opened_transaction]. cbv zeta. rewrite He.
    unfold synchronization_catch. rewrite Hdb. reflexivity.
Qed.

(** X27. Rows that one turn of the loop leaves buffered are flushed by the
    next turn that reads no event once the clock is past the flush time
    counted from the last restart of the watch: the first turn does not
    restart the watch, the second flushes at the position the client
    reports to it, and the loop goes on with the watch restarted. *)
Theorem X27_buffered_rows_are_flushed_by_the_next_late_turn
    (settings : MaterializeMySQLSettings) (isCancelled : nat -> bool) (iteration : nat)
    (turn1 turn2 : Turn) (rest : list Turn) (watch : Z) (s s1 : SyncState)
    (position : Position) :
  isCancelled iteration = false ->
  isCancelled (S iteration) = false ->
  synchronization_turn settings
    (elapsedMilliseconds watch (now_at_read turn1)) (readOneBinlogEvent turn1)
    (elapsedMilliseconds watch (now_after_event turn1)) s = (Ok false, s1) ->
  data (buffers s1) <> ∅ ->
  readOneBinlogEvent turn2
    (read_deadline (max_flush_data_time settings) (elapsedMilliseconds watch (now_at_read turn2)))
  = (None, position) ->
  max_flush_data_time settings < elapsedMilliseconds watch (now_after_event turn2) ->
  synchronization_loop settings isCancelled iteration (turn1 :: turn2 :: rest) watch s
  = match flushBuffersData (mkSync (buffers s1) (metadata s1) (store s1) position) with
    | (Ok _, s2) =>
        synchronization_loop settings isCancelled (S (S iteration)) rest (now_at_restart turn2) s2
    | (Throw e, s2) => Some (Throw e, s2)
    end.
Proof.
  intros Hgo1 Hgo2 Hturn1 Hdata Hread Hlate.
  cbn [synchronization_loop]. rewrite Hgo1, Hturn1, Hgo2.
  rewrite (idle_late_turn_flushes settings _ _ _ position s1 Hread Hlate Hdata).
  destruct (flushBuffersData _) as [[[]|e] s2]; reflexivity.
Qed.

(** ** The contexts of the queries *)

Lemma flushed_as_secondary (database : string) (context : Context)
    (tables : list (string * BufferAndSortingColumns)) :
  forall effects, flushed database context tables effects -> Forall as_secondary_query effects.
Proof.
  induction tables as [|[table_name [block sorting]] rest IH]; intros effects.
  - cbn. intros ->. constructor.
  - cbn [flushed]. intros (storage & rest_effects & -> & Hrest).
    constructor; [split; reflexivity|]. constructor; [exact I|]. now apply IH.
Qed.

Lemma flushBuffersData_Throw_store (s s' : SyncState) (e : Thrown) :
  flushBuffersData s = (Throw e, s') -> store s' = store s.
Proof.
  unfold flushBuffersData, transaction.
  destruct (commit global_context s) as [[[]|e'] s1]; [intros [=]|].
  intros [= _ <-]. reflexivity.
Qed.

Lemma row_event_store (table : string) (tail : Z -> M SyncState unit) (s s' : SyncState) r :
  (forall v s1 s2 r', tail v s1 = (r', s2) -> store s2 = store s1) ->
  (_ ← getTableDataBuffer table; v ← increment_version; tail v) s = (r, s') ->
  store s' = store s.
Proof.
  intros Htail. unfold mbind at 1, M_bind at 1.
  destruct (getTableDataBuffer table s) as [[[]|e] s0] eqn:Hget;
    pose proof (getTableDataBuffer_frame _ _ _ _ Hget) as (_ & Hst & _).
  - unfold mbind at 1, M_bind at 1. unfold increment_version at 1.
    intros H. apply Htail in H. rewrite H. exact Hst.
  - intros [= _ <-]. exact Hst.
Qed.

Lemma catch_syntax_error_state (m : M SyncState unit) (s s' : SyncState) r :
  catch_syntax_error m s = (r, s') -> exists r1, m s = (r1, s').
Proof.
  unfold catch_syntax_error.
  destruct (m s) as [[u|[msg code|w|w]] s1]; try (intros [= _ <-]; eauto).
  destruct (negb (ErrorCode_eqb code SYNTAX_ERROR)); intros [= _ <-]; eauto.
Qed.

Lemma query_journal (query : string) (query_context : Context) (database comment : string)
    (s s' : SyncState) r :
  (_ ← on_store (tryToExecuteQuery query query_context database comment); mret tt) s = (r, s') ->
  journal (store s')
  = journal (store s)
    ++ [ExecuteQuery (scoped query_context database) ("/*" +:+ comment +:+ "*/ " +:+ query)].
Proof.
  unfold mbind, M_bind, on_store. rewrite tryToExecuteQuery_run. cbv zeta.
  destruct (executeQuery_outcome _ _ (catalog (store s))) as [[res tables]|e];
    intros [= _ <-]; reflexivity.
Qed.

(** X29. Every query an event sends to the store, the INSERTs of the flush
    and the DDL of a query event, runs under a context made by
    [createQueryContext]: as a secondary query and with materialized
    columns allowed; row events send none. The DROPs of
    [cleanOutdatedTables] run under such a context too. *)
Theorem X29_every_query_runs_as_a_secondary_query :
  (forall (event : BinlogEvent) (s s' : SyncState) (r : Result unit),
     onEvent event s = (r, s') ->
     exists effects,
       journal (store s') = journal (store s) ++ effects
       /\ Forall as_secondary_query effects
       /\ (is_Some (row_event_table event) -> effects = []))
  /\ (forall (database_name_ : string) (context : Context) (st st' : Store) (r : Result unit),
        cleanOutdatedTables database_name_ context st = (r, st') ->
        exists effects,
          journal st' = journal st ++ effects /\ Forall as_secondary_query effects).
Proof.
  split.
  - intros event s s' r Hrun.
    assert (Hrow : forall table (m : M Block Z) (n : nat) s1 s2 r',
              (bytes ← on_block table m; account table n bytes) s1 = (r', s2) ->
              store s2 = store s1).
    { intros table m n s1 s2 r' H.
      exact (proj2 (row_tail_frame table m n (fun x => x) s1 s2 r' H)). }
    destruct event as [table rows|table rows|table rows|schema query| |]; cbn [onEvent] in Hrun.
    + exists []. rewrite app_nil_r. split; [|split; [constructor|reflexivity]]. f_equal.
      eapply (row_event_store table); [|exact Hrun]. intros v s1 s2 r'. apply Hrow.
    + exists []. rewrite app_nil_r. split; [|split; [constructor|reflexivity]]. f_equal.
      eapply (row_event_store table); [|exact Hrun]. intros v s1 s2 r' H.
      unfold mbind at 1, M_bind at 1 in H. unfold sorting_columns at 1 in H.
      destruct (data (buffers s1) !! table) as [[block sorting]|].
      * now apply Hrow in H.
      * now injection H as _ <-.
    + exists []. rewrite app_nil_r. split; [|split; [constructor|reflexivity]]. f_equal.
      eapply (row_event_store table); [|exact Hrun]. intros v s1 s2 r'. apply Hrow.
    + unfold mbind at 1, M_bind at 1 in Hrun.
      destruct (flushBuffersData s) as [[[]|e] s1] eqn:Hflush.
      * apply flushBuffersData_Ok in Hflush as (_ & _ & _ & effects & Hj & Hf).
        apply flushed_as_secondary in Hf.
        apply catch_syntax_error_state in Hrun as [r1 Hrun].
        apply query_journal in Hrun.
        eexists. split; [rewrite Hrun, Hj, <- !app_assoc; reflexivity|].
        split; [|intros [t [=]]].
        apply Forall_app. split; [exact Hf|].
        constructor; [exact I|]. constructor; [split; reflexivity|constructor].
      * injection Hrun as _ <-. exists []. rewrite app_nil_r.
        split; [|split; [constructor|intros [t [=]]]].
        f_equal. now apply flushBuffersData_Throw_store in Hflush.
    + injection Hrun as _ <-. exists []. rewrite app_nil_r.
      split; [reflexivity|split; [constructor|intros [t [=]]]].
    + injection Hrun as _ <-. exists []. rewrite app_nil_r.
      split; [reflexivity|split; [constructor|intros [t [=]]]].
  - intros database_name_ context st st' r H. unfold cleanOutdatedTables in H.
    apply drop_tables_journal in H as (reached & Hj & _).
    exists (dropped database_name_ context <$> reached). split; [exact Hj|].
    apply Forall_fmap, Forall_true. intros table. split; reflexivity.
Qed.

End SyncThread.

(* ================================================================= *)
(** * The scenarios, run *)

(** C6. A flush whose insert throws clears the buffers and rethrows, and
    leaves the four counters as they were: they are reset on the path that
    succeeds only. On that path every buffer is inserted with the
    materialized trailers among its columns, the buffers are cleared and
    the counters are zero. *)
Theorem C6_failed_flush_clears_buffers_but_keeps_counters :
  (let '(r, s') :=
     commit accept_query refuse_copy example_backQuote scenario_context scenario_buffered in
   r = Throw (Exception "Cannot write to table" (OTHER_ERROR 1))
   /\ data (buffers s') = ∅
   /\ max_block_rows (buffers s') = 1 /\ max_block_bytes (buffers s') = 14
   /\ total_blocks_rows (buffers s') = 1 /\ total_blocks_bytes (buffers s') = 14)
  /\ (let '(r, s') :=
        commit accept_query accept_copy example_backQuote scenario_context scenario_buffered in
      r = Ok tt
      /\ buffers s' = mkBuffers "db" ∅ 0 0 0 0
      /\ journal (store s')
         = [ExecuteQuery (mkContext "db" true true)
              "/*Materialize MySQL step 1: execute dump data*/ INSERT INTO t(k, v, _sign, _version) VALUES";
            CopyData "t" ["k"; "v"; "_sign"; "_version"]
              [mkColumn (Some (ColumnVector Int32 [5])) "k";
               mkColumn (Some (ColumnString ["a"])) "v";
               mkColumn (Some (ColumnVector Int8 [1])) "_sign";
               mkColumn (Some (ColumnVector UInt64 [42])) "_version"]]).
Proof. split; vm_compute; repeat split. Qed.

(** C3 at the scenario table: the first write creates the buffer and
    appends the row. *)
Lemma C3_witness :
  getTableDataBuffer "t" scenario_state = (Ok tt, scenario_fetched)
  /\ data (buffers scenario_fetched) !! "t" = Some (scenario_block, [0%nat])
  /\ Block_ready scenario_block = true
  /\ Forall (fun r => row_fits example_narrow example_fixed_insert scenario_block r = true)
       [scenario_row]
  /\ exists s' b',
       onEvent example_narrow example_fixed_insert example_byteSize accept_query accept_copy
         example_backQuote scenario_context "db" "src"
         (WriteRowsEvent "t" [scenario_row]) scenario_state = (Ok tt, s')
       /\ data (buffers s') !! "t" = Some (b', [0%nat])
       /\ Block_table b' = [[CNumber 5; CString "a"; CNumber 1; CNumber 42]].
Proof.
  assert (H1 : getTableDataBuffer "t" scenario_state = (Ok tt, scenario_fetched))
    by (vm_compute; reflexivity).
  assert (H2 : data (buffers scenario_fetched) !! "t" = Some (scenario_block, [0%nat]))
    by (vm_compute; reflexivity).
  assert (H3 : Block_ready scenario_block = true) by reflexivity.
  assert (H4 : Forall (fun r => row_fits example_narrow example_fixed_insert scenario_block r = true)
                 [scenario_row])
    by (repeat constructor).
  repeat (split; [assumption|]).
  destruct (C3_write_and_delete_append_one_row_per_source_row
              example_narrow example_fixed_insert example_byteSize accept_query accept_copy
              example_backQuote scenario_context "db" "src"
              scenario_state scenario_fetched "t" [scenario_row] scenario_block [0%nat]
              H1 H2 H3 H4) as [(s' & b' & Hrun & Hdata & _ & _ & _ & Htable) _].
  exists s', b'. split; [exact Hrun|]. split; [exact Hdata|]. rewrite Htable. reflexivity.
Defined.

(** C1 at the scenario table: one pair keeps the key, one changes it. *)
Lemma C1_witness :
  getTableDataBuffer "t" scenario_state = (Ok tt, scenario_fetched)
  /\ data (buffers scenario_fetched) !! "t" = Some (scenario_block, [0%nat])
  /\ Block_ready scenario_block = true
  /\ Forall (fun i => (i < length scenario_block - 2)%nat) [0%nat]
  /\ Forall (fun r => row_fits example_narrow example_fixed_insert scenario_block r = true)
       (rows_of_pairs scenario_pairs)
  /\ exists s' b',
       onEvent example_narrow example_fixed_insert example_byteSize accept_query accept_copy
         example_backQuote scenario_context "db" "src"
         (UpdateRowsEvent "t" (rows_of_pairs scenario_pairs)) scenario_state = (Ok tt, s')
       /\ data (buffers s') !! "t" = Some (b', [0%nat])
       /\ Block_table b'
          = [[CNumber 1; CString "b"; CNumber 1; CNumber 42];
             [CNumber 1; CString "b"; CNumber (-1); CNumber 42];
             [CNumber 2; CString "b"; CNumber 1; CNumber 42]].
Proof.
  assert (H1 : getTableDataBuffer "t" scenario_state = (Ok tt, scenario_fetched))
    by (vm_compute; reflexivity).
  assert (H2 : data (buffers scenario_fetched) !! "t" = Some (scenario_block, [0%nat]))
    by (vm_compute; reflexivity).
  assert (H3 : Block_ready scenario_block = true) by reflexivity.
  assert (H4 : Forall (fun i => (i < length scenario_block - 2)%nat) [0%nat])
    by (repeat constructor).
  assert (H5 : Forall (fun r => row_fits example_narrow example_fixed_insert scenario_block r = true)
                 (rows_of_pairs scenario_pairs))
    by (repeat constructor).
  repeat (split; [assumption|]).
  destruct (C1_update_appends_one_or_two_rows_per_pair
              example_narrow example_fixed_insert example_byteSize accept_query accept_copy
              example_backQuote scenario_context "db" "src"
              scenario_state scenario_fetched "t" scenario_pairs scenario_block [0%nat]
              H1 H2 H3 H4 H5) as (s' & b' & Hrun & Hdata & _ & _ & Htable).
  exists s', b'. split; [exact Hrun|]. split; [exact Hdata|]. rewrite Htable. reflexivity.
Defined.

(** C4 at the scenario table: a write of one row takes the version from 41
    to 42. *)
Lemma C4_witness :
  0 <= version (metadata scenario_state) < 2 ^ 64 - 1
  /\ version (metadata
       (onEvent example_narrow example_fixed_insert example_byteSize accept_query accept_copy
          example_backQuote scenario_context "db" "src"
          (WriteRowsEvent "t" [scenario_row]) scenario_state).2) = 42.
Proof.
  assert (H1 : 0 <= version (metadata scenario_state) < 2 ^ 64 - 1) by (cbn; lia).
  split; [exact H1|].
  pose proof (C4_version_incremented_once_per_row_event
                example_narrow example_fixed_insert example_byteSize accept_query accept_copy
                example_backQuote scenario_context "db" "src"
                (WriteRowsEvent "t" [scenario_row]) scenario_state _ _
                (surjective_pairing _)) as (_ & _ & _ & Hinc & _).
  rewrite Hinc; [reflexivity|vm_compute; reflexivity|exact H1].
Defined.

(** The counter at its last value: a write of one row is applied and takes
    the version from 2^64 - 1 to 0, so the version after the event is not
    above the one before it. *)
Lemma C4_counterexample :
  exists s',
    onEvent example_narrow example_fixed_insert example_byteSize accept_query accept_copy
      example_backQuote scenario_context "db" "src"
      (WriteRowsEvent "t" [scenario_row]) (scenario_at (2 ^ 64 - 1)) = (Ok tt, s')
    /\ version (metadata (scenario_at (2 ^ 64 - 1))) = 18446744073709551615
    /\ version (metadata s') = 0
    /\ ~ version (metadata (scenario_at (2 ^ 64 - 1))) < version (metadata s').
Proof.
  eexists. split; [vm_compute; reflexivity|]. split; [reflexivity|].
  split; [reflexivity|]. cbn [version metadata]. vm_compute. discriminate.
Qed.

(** C10 at the scenario table: an update of a single image. *)
Lemma C10_witness :
  (length [scenario_row] mod 2 = 1)%nat
  /\ onUpdateData example_narrow example_fixed_insert example_byteSize
       [scenario_row] 42 [0%nat] scenario_block
     = (Throw (Exception "LOGICAL ERROR: It is a bug." LOGICAL_ERROR), scenario_block).
Proof.
  assert (H1 : (length [scenario_row] mod 2 = 1)%nat) by reflexivity.
  split; [exact H1|].
  apply (C10_odd_update_throws_before_any_write
           example_narrow example_fixed_insert example_byteSize accept_query accept_copy
           example_backQuote scenario_context "db" "src"
           [scenario_row] "t" scenario_state H1).
Defined.

(** C7 at the scenario table with one buffered row: the row is flushed,
    the position committed, and the DDL of the source database runs under
    the target database. *)
Lemma C7_witness :
  "db" <> ""
  /\ exists s',
       onEvent example_narrow example_fixed_insert example_byteSize accept_query accept_copy
         example_backQuote scenario_context "db" "src"
         (QueryEvent "src" "DROP TABLE t") scenario_buffered = (Ok tt, s')
       /\ data (buffers s') = ∅
       /\ journal (store s')
          = [ExecuteQuery (mkContext "db" true true)
               "/*Materialize MySQL step 1: execute dump data*/ INSERT INTO t(k, v, _sign, _version) VALUES";
             CopyData "t" ["k"; "v"; "_sign"; "_version"]
               [mkColumn (Some (ColumnVector Int32 [5])) "k";
                mkColumn (Some (ColumnString ["a"])) "v";
                mkColumn (Some (ColumnVector Int8 [1])) "_sign";
                mkColumn (Some (ColumnVector UInt64 [42])) "_version"];
             CommitPosition (mkPosition "binlog.000001" 190);
             ExecuteQuery (mkContext "db" true true)
               "/*Materialize MySQL step 2: execute MySQL DDL for sync data*/ EXTERNAL DDL FROM MySQL(db, src) DROP TABLE t"].
Proof.
  assert (H1 : "db" <> "") by discriminate.
  split; [exact H1|].
  pose proof (C7_query_event_flushes_then_runs_ddl
                example_narrow example_fixed_insert example_byteSize
                accept_query accept_copy example_backQuote scenario_context "db" "src"
                "src" "DROP TABLE t" scenario_buffered H1) as W.
  vm_compute in W. destruct W as (_ & _ & s' & Hrun & Hj).
  exists s'. vm_compute. inversion Hrun; subst s'. repeat split.
Defined.

(** ** The further properties, at work *)

Lemma X1_witness :
  integer_range Int8 = Some (-128, 128)
  /\ -128 <= -1 < 128
  /\ 18446744073709551615 mod 2 ^ 64 = -1 mod 2 ^ 64
  /\ writeFieldsToColumn example_narrow example_fixed_insert false (ColumnVector Int8 [])
       [[Field_UInt64 18446744073709551615]] 0%nat [] []
     = Ok (ColumnVector Int8 [-1], [])
  /\ branch_convert example_narrow Int8 (Field_Int64 (-1)) = Ok (-1).
Proof.
  assert (H1 : integer_range Int8 = Some (-128, 128)) by reflexivity.
  assert (H2 : -128 <= -1 < 128) by lia.
  assert (H3 : 18446744073709551615 mod 2 ^ 64 = -1 mod 2 ^ 64) by reflexivity.
  split; [exact H1|]. split; [exact H2|]. split; [exact H3|]. split.
  - exact (proj1 (proj2 (proj2 (X1_integer_branch_round_trip example_narrow example_fixed_insert
                                  Int8 (-128) 128 (-1) 18446744073709551615 [] H1 H2 H3)))).
  - apply (proj1 (proj2 (X1_integer_branch_round_trip example_narrow example_fixed_insert
                           Int8 (-128) 128 (-1) (-1) [] H1 H2 eq_refl))).
    discriminate.
Defined.

Lemma X3_witness :
  writeFieldsToColumn example_narrow example_fixed_insert false (ColumnVector Int32 [])
    ([[Field_UInt64 1]] ++ [Field_String "x"] :: [[Field_UInt64 2]]) 0%nat [] []
  = Throw (Exception "LOGICAL ERROR: it is a bug." LOGICAL_ERROR).
Proof.
  apply (X3_int32_column_rejects_other_fields example_narrow example_fixed_insert
           [] [[Field_UInt64 1]] [Field_String "x"] [[Field_UInt64 2]] 0%nat (Field_String "x")).
  - constructor; [|constructor]. exists (Field_UInt64 1). split; reflexivity.
  - reflexivity.
  - reflexivity.
Defined.

Lemma X4_witness :
  onWriteOrDeleteData example_narrow example_fixed_insert example_byteSize 1 [] 42
    (mkColumn (Some (ColumnNullable (ColumnOther 0) [])) "d" :: drop 2 scenario_block)
  = (Throw (Exception "Unsupported data type from MySQL." NOT_IMPLEMENTED),
     mkColumn None "d" :: drop 2 scenario_block).
Proof.
  apply (X4_unsupported_column_fails_even_without_rows example_narrow example_fixed_insert
           example_byteSize (ColumnNullable (ColumnOther 0) []) "d" (drop 2 scenario_block)
           1 [] 42).
  - reflexivity.
  - cbn. lia.
  - reflexivity.
  - repeat constructor; cbn; eauto.
Defined.

Lemma X5_witness :
  row_fits example_narrow example_fixed_insert scenario_block [Field_UInt64 1; Field_Null] = false
  /\ exists bytes b',
       onUpdateData example_narrow example_fixed_insert example_byteSize
         (rows_of_pairs [([Field_UInt64 1; Field_Null], [Field_UInt64 1; Field_String "b"])])
         42 [0%nat] scenario_block = (Ok bytes, b')
       /\ Block_table b' = [[CNumber 1; CString "b"; CNumber 1; CNumber 42]].
Proof.
  split; [reflexivity|].
  destruct (X5_unchanged_pre_images_are_read_but_not_converted
              example_narrow example_fixed_insert example_byteSize
              [([Field_UInt64 1; Field_Null], [Field_UInt64 1; Field_String "b"])]
              42 [0%nat] scenario_block) as (bytes & b' & Hrun & _ & Htable).
  - reflexivity.
  - repeat constructor.
  - constructor; [|constructor]. split; [cbn; lia|]. split; [reflexivity|].
    intros H. vm_compute in H. discriminate H.
  - exists bytes, b'. split; [exact Hrun|]. rewrite Htable. reflexivity.
Defined.

Lemma X6_witness :
  differenceSortingKeys [Field_UInt64 1; Field_String "a"] [Field_UInt64 2; Field_String "a"]
    [0%nat] = Ok true.
Proof.
  destruct (X6_differenceSortingKeys_iff_some_sorting_column_differs
              [Field_UInt64 1; Field_String "a"] [Field_UInt64 2; Field_String "a"] [0%nat])
    as (_ & [_ Hyes] & _).
  - repeat constructor.
  - apply Hyes. exists 0%nat. split; [apply list_elem_of_here|discriminate].
Defined.

Lemma X7_witness :
  differenceSortingKeys [Field_UInt64 1; Field_String "a"] [Field_UInt64 1; Field_String "b"]
    ([0%nat] ++ 1%nat :: [7%nat]) = Ok true.
Proof.
  apply (X7_differenceSortingKeys_stops_at_the_first_difference
           [Field_UInt64 1; Field_String "a"] [Field_UInt64 1; Field_String "b"]
           [0%nat] 1%nat [7%nat] (Field_String "a") (Field_String "b")).
  - constructor; [|constructor]. split; [cbn; eauto|reflexivity].
  - reflexivity.
  - reflexivity.
  - discriminate.
Defined.

Lemma X8_witness :
  getTableDataBuffer "t" scenario_state
  = (Ok tt, set_buffers (set_data (insert "t" (scenario_block, [0%nat]))) scenario_state).
Proof.
  apply (X8_getTableDataBuffer_creates_the_buffer_once "t" scenario_state scenario_storage
           [0%nat]).
  - vm_compute. reflexivity.
  - vm_compute. reflexivity.
  - constructor; [reflexivity|constructor].
Defined.

Lemma X9_witness :
  let storage := mkStorage scenario_block ["k"; "id"] ["k"; "v"; "_sign"; "_version"] ["k"; "v"] in
  let s := mkSync (mkBuffers "db" ∅ 0 0 0 0) (mkMetadata "binlog.000001" 4 41)
             (mkStore {[ ("db", "t") := storage ]} []) (mkPosition "binlog.000001" 120) in
  getTableDataBuffer "t" s
  = (Throw (not_found_column "id"),
     set_buffers (set_data (insert "t" (scenario_block, [0%nat]))) s).
Proof.
  intros storage s.
  assert (H1 : data (buffers s) !! "t" = None) by (vm_compute; reflexivity).
  refine (proj1 (proj2 (X9_getTableDataBuffer_failures "t" s H1)
                   storage ["k"] [0%nat] "id" [] _ _ _ _)).
  - vm_compute. reflexivity.
  - reflexivity.
  - constructor; [reflexivity|constructor].
  - repeat constructor; discriminate.
Defined.

Lemma X10_witness :
  data (buffers (commit accept_query accept_copy example_backQuote scenario_context
                   scenario_buffered).2) = ∅.
Proof.
  exact (proj1 (X10_commit_rearms_the_thresholds accept_query accept_copy example_backQuote
                  scenario_context scenario_buffered _ _ 1 1 1 1 (surjective_pairing _))).
Defined.

Lemma X11_witness :
  exists s' b',
    onEvent example_narrow example_fixed_insert example_byteSize accept_query accept_copy
      example_backQuote scenario_context "db" "src"
      (UpdateRowsEvent "t" (rows_of_pairs scenario_pairs)) scenario_state = (Ok tt, s')
    /\ data (buffers s') !! "t" = Some (b', [0%nat])
    /\ Block_rows b' = 3%nat
    /\ total_blocks_rows (buffers s') = 4.
Proof.
  destruct (X11_update_event_counts_two_rows_per_pair
              example_narrow example_fixed_insert example_byteSize accept_query accept_copy
              example_backQuote scenario_context "db" "src"
              scenario_state scenario_fetched "t" scenario_pairs scenario_block [0%nat])
    as (s' & b' & Hrun & Hdata & Hrows & _ & Htotal & _).
  - vm_compute. reflexivity.
  - vm_compute. reflexivity.
  - reflexivity.
  - repeat constructor.
  - repeat constructor.
  - exists s', b'. split; [exact Hrun|]. split; [exact Hdata|].
    split; [rewrite Hrows; reflexivity|rewrite Htotal; reflexivity].
Defined.

Lemma X12_witness :
  (flushBuffersData accept_query accept_copy example_backQuote scenario_context
     scenario_state).1 = Ok tt
  /\ journal (store (flushBuffersData accept_query accept_copy example_backQuote scenario_context
                       scenario_state).2)
     = [CommitPosition (mkPosition "binlog.000001" 120)].
Proof.
  assert (H1 : data (buffers scenario_state) = ∅) by reflexivity.
  rewrite (proj1 (X12_empty_flush_commits_only_the_position
                    example_narrow example_fixed_insert example_byteSize accept_query accept_copy
                    example_backQuote scenario_context "db" "src" scenario_state H1)).
  split; reflexivity.
Defined.

Lemma X13_witness :
  synchronization_turn example_narrow example_fixed_insert example_byteSize accept_query
    accept_copy example_backQuote scenario_context "db" "src"
    scenario_settings 10 waiting_client 20 scenario_state
  = (Ok false,
     mkSync (buffers scenario_state) (metadata scenario_state) (store scenario_state)
       (mkPosition "deadline" 990))
  /\ 20 <= max_flush_data_time scenario_settings.
Proof.
  assert (H1 : synchronization_turn example_narrow example_fixed_insert example_byteSize
                 accept_query accept_copy example_backQuote scenario_context "db" "src"
                 scenario_settings 10 waiting_client 20 scenario_state
               = (Ok false,
                  mkSync (buffers scenario_state) (metadata scenario_state) (store scenario_state)
                    (mkPosition "deadline" 990)))
    by (vm_compute; reflexivity).
  split; [exact H1|].
  exact (proj1 (X13_restarting_the_watch_means_empty_buffers
                  example_narrow example_fixed_insert example_byteSize accept_query accept_copy
                  example_backQuote scenario_context "db" "src"
                  scenario_settings 10 waiting_client 20 scenario_state _ false H1)).
Defined.

Lemma X14_witness :
  let settings := mkSettings 1 1048576 1048576 1073741824 1000 in
  let client := fun _ : Z =>
    (Some (WriteRowsEvent "t" [scenario_row]), mkPosition "binlog.000001" 190) in
  exists s1 b',
    onEvent example_narrow example_fixed_insert example_byteSize accept_query accept_copy
      example_backQuote scenario_context "db" "src" (WriteRowsEvent "t" [scenario_row])
      (mkSync (buffers scenario_state) (metadata scenario_state) (store scenario_state)
         (mkPosition "binlog.000001" 190))
    = (Ok tt, s1)
    /\ Block_rows b' = 1%nat
    /\ client_position s1 = mkPosition "binlog.000001" 190
    /\ synchronization_turn example_narrow example_fixed_insert example_byteSize accept_query
         accept_copy example_backQuote scenario_context "db" "src"
         settings 0 client 5 scenario_state
       = match flushBuffersData accept_query accept_copy example_backQuote scenario_context s1 with
         | (Ok _, s2) => (Ok true, s2)
         | (Throw e, s2) => (Throw e, s2)
         end.
Proof.
  intros settings client.
  destruct (X14_block_threshold_flushes_within_the_turn
              example_narrow example_fixed_insert example_byteSize accept_query accept_copy
              example_backQuote scenario_context "db" "src"
              settings 0 client 5 "t" [scenario_row] (mkPosition "binlog.000001" 190)
              scenario_state
              (mkSync (mkBuffers "db" {[ "t" := (scenario_block, [0%nat]) ]} 0 0 0 0)
                 (mkMetadata "binlog.000001" 4 41)
                 (mkStore {[ ("db", "t") := scenario_storage ]} [])
                 (mkPosition "binlog.000001" 190))
              scenario_block [0%nat])
    as (s1 & b' & Hrun & _ & Hrows & Hcp & Hturn).
  - reflexivity.
  - vm_compute. reflexivity.
  - vm_compute. reflexivity.
  - reflexivity.
  - repeat constructor.
  - cbn. lia.
  - exists s1, b'. split; [exact Hrun|]. split; [exact Hrows|]. split; [exact Hcp|exact Hturn].
Defined.

Lemma X16_witness :
  exists unmet,
    checkVariableAndGetVersion
      [mkColumn (Some (ColumnString ["log_bin"])) "Variable_name";
       mkColumn (Some (ColumnString ["ON"])) "Value"] []
    = Throw (Exception
               ("Illegal MySQL variables, the MaterializeMySQL engine requires "
                +:+ String.concat ", " (unmet.*2))
               ILLEGAL_MYSQL_VARIABLE)
    /\ ("binlog_format", "binlog_format='ROW'") ∈ unmet
    /\ ("log_bin", "log_bin = 'ON'") ∉ unmet.
Proof.
  destruct (X16_preflight_lists_the_requirements_not_met ["log_bin"] ["ON"] [])
    as (unmet & Hrun & Hdup & Hspec).
  - discriminate.
  - cbn. lia.
  - exists unmet. split; [exact Hrun|]. split.
    + apply Hspec. split; [reflexivity|]. rewrite list_elem_of_singleton. discriminate.
    + intros Hin. apply Hspec in Hin as [_ Hin]. apply Hin, list_elem_of_singleton. reflexivity.
Defined.

Lemma X17_witness :
  checkVariableAndGetVersion variables_all_four version_answer = Ok "8.0.21".
Proof.
  refine (proj1 (X17_preflight_with_four_rows_only_reads_the_version
                   ["binlog_format"; "binlog_row_image"; "default_authentication_plugin"; "log_bin"]
                   ["ROW"; "FULL"; "mysql_native_password"; "ON"] version_answer _)
            ["8.0.21"] "version" _); reflexivity.
Defined.

Lemma X18_witness :
  exists reached,
    journal (cleanOutdatedTables accept_query example_backQuote "db" scenario_context
               (store scenario_state)).2
    = journal (store scenario_state)
      ++ (dropped example_backQuote "db" scenario_context <$> reached)
    /\ reached = ["t"].
Proof.
  destruct (X18_cleanOutdatedTables_drops_the_tables_of_the_database
              accept_query example_backQuote "db" scenario_context (store scenario_state)
              _ _ (surjective_pairing _)) as (reached & Hj & _ & _ & Hr).
  exists reached. split; [exact Hj|]. vm_compute in Hr. exact Hr.
Defined.

Lemma X20_witness :
  synchronization_turn example_narrow example_fixed_insert example_byteSize accept_query
    accept_copy example_backQuote scenario_context "db" "src"
    scenario_settings 1001 waiting_client 1001 scenario_buffered
  = match flushBuffersData accept_query accept_copy example_backQuote scenario_context
            (mkSync (buffers scenario_buffered) (metadata scenario_buffered)
               (store scenario_buffered) (mkPosition "deadline" 18446744073709551615)) with
    | (Ok _, s2) => (Ok true, s2)
    | (Throw e, s2) => (Throw e, s2)
    end.
Proof.
  refine (proj1 (X20_idle_turn_past_the_flush_time_flushes_at_the_reported_position
                   example_narrow example_fixed_insert example_byteSize accept_query accept_copy
                   example_backQuote scenario_context "db" "src"
                   scenario_settings 1001 waiting_client 1001
                   (mkPosition "deadline" 18446744073709551615) scenario_buffered _ _ _)).
  - reflexivity.
  - cbn. lia.
  - intros H. apply (f_equal (fun m => m !! "t")) in H. vm_compute in H. discriminate H.
Defined.


Lemma X19_witness :
  let connection := fun _ : string => ([scenario_block], @None Thrown) in
  let need_dumping_tables := [("t", "CREATE TABLE t (k INT, v TEXT)")] in
  let st' :=
    (dumpDataForTables accept_query example_backQuote connection need_dumping_tables
       "EXTERNAL DDL FROM MySQL(db, src) " "db" "src" scenario_context (fun _ => false) 0
       (store scenario_state)).2 in
  (exists effects,
     journal st' = journal (store scenario_state) ++ effects
     /\ dumped accept_query example_backQuote connection "EXTERNAL DDL FROM MySQL(db, src) "
          "db" "src" scenario_context need_dumping_tables
          (catalog (store scenario_state)) effects (catalog st'))
  /\ journal st'
     = [ExecuteQuery (mkContext "db" true true)
          "/*Materialize MySQL step 1: execute MySQL DDL for dump data*/ EXTERNAL DDL FROM MySQL(db, src)  CREATE TABLE t (k INT, v TEXT)";
        ExecuteQuery (mkContext "db" true true)
          "/*Materialize MySQL step 1: execute dump data*/ INSERT INTO t(k, v) VALUES";
        CopyData "t" ["k"; "v"] scenario_block].
Proof.
  intros connection need_dumping_tables st'. split; [|vm_compute; reflexivity].
  apply (proj1 (X19_dump_creates_then_fills_each_table_until_cancelled
                  accept_query example_backQuote connection need_dumping_tables
                  "EXTERNAL DDL FROM MySQL(db, src) " "db" "src" scenario_context
                  (fun _ => false) (store scenario_state))).
  vm_compute. reflexivity.
Defined.

Lemma X22_witness :
  let entry := mkEntry (fun _ => ([scenario_block], None)) (fun _ => None) in
  let metadata := mkMetadata "binlog.000001" 4 0 in
  let a := mkAttempt (Ok entry) true (Ok (metadata, [])) (fun _ => false) None 7 None in
  let around :=
    mkSurroundings (fun _ => Ok DatabaseMaterializeMySQL)
      (fun e => match e with StdException _ => true | _ => false end) 500 (fun _ => false) in
  prepareSynchronized accept_query example_backQuote scenario_context "db" "src" around 0 [a]
    (mkPreparing (store scenario_state) [] false None)
  = Some (Ok (Some metadata),
          mkPreparing (store scenario_state)
            [ConnectionQuery "COMMIT"; ClientConnect;
             ClientStartBinlogDump 7 "src" "binlog.000001" 4]
            true (Some entry)).
Proof.
  intros entry metadata a around.
  apply (X22_preparation_without_tables_to_dump_only_starts_the_stream
           accept_query example_backQuote scenario_context "db" "src" around a []
           (mkPreparing (store scenario_state) [] false None) entry metadata);
    reflexivity.
Defined.

Lemma X23_witness :
  let entry := mkEntry (fun _ => ([scenario_block], None)) (fun _ => None) in
  let metadata := mkMetadata "binlog.000001" 4 0 in
  let a := mkAttempt (Ok entry) true (Ok (metadata, [("t", "CREATE TABLE t (k INT, v TEXT)")]))
             (fun _ => true) None 7 None in
  let around :=
    mkSurroundings (fun _ => Ok DatabaseMaterializeMySQL)
      (fun e => match e with StdException _ => true | _ => false end) 500 (fun _ => false) in
  exists st',
    prepareSynchronized accept_query example_backQuote scenario_context "db" "src" around 0 [a]
      (mkPreparing (store scenario_state) [] false None)
    = Some (Ok (Some metadata), st')
    /\ journal (target st')
       = [ExecuteQuery (mkContext "db" true true)
            "/*Materialize MySQL step 1: execute MySQL DDL for dump data*/  DROP TABLE db.t";
          CommitPosition (mkPosition "binlog.000001" 4)]
    /\ source st'
       = [ConnectionQuery "COMMIT"; ClientConnect;
          ClientStartBinlogDump 7 "src" "binlog.000001" 4].
Proof.
  intros entry metadata a around.
  destruct (X23_cancelled_dump_still_commits_the_position
              accept_query example_backQuote scenario_context "db" "src" around a []
              (mkPreparing (store scenario_state) [] false None) entry metadata
              ("t", "CREATE TABLE t (k INT, v TEXT)") []
              (cleanOutdatedTables accept_query example_backQuote "db" scenario_context
                 (store scenario_state)).2) as [Hrun _].
  - reflexivity.
  - reflexivity.
  - reflexivity.
  - reflexivity.
  - reflexivity.
  - vm_compute. reflexivity.
  - reflexivity.
  - reflexivity.
  - reflexivity.
  - eexists. split; [exact Hrun|]. split; vm_compute; reflexivity.
Defined.

Lemma X24_witness :
  let entry := mkEntry (fun _ => ([scenario_block], None)) (fun _ => None) in
  let e := Exception "Access denied" (OTHER_ERROR 1045) in
  let a := mkAttempt (Ok entry) false (Throw e) (fun _ => false) None 7 None in
  let around :=
    mkSurroundings (fun _ => Ok DatabaseMaterializeMySQL)
      (fun e => match e with StdException _ => true | _ => false end) 500 (fun _ => false) in
  prepareSynchronized accept_query example_backQuote scenario_context "db" "src" around 0 [a; a]
    (mkPreparing (store scenario_state) [] false None)
  = Some (Throw e, mkPreparing (store scenario_state) [] false (Some entry)).
Proof.
  intros entry e a around.
  refine (proj1 (X24_only_connection_failures_are_retried
                   accept_query example_backQuote scenario_context "db" "src" around 0%nat a [a]
                   (mkPreparing (store scenario_state) [] false None)
                   (mkPreparing (store scenario_state) [] false (Some entry)) e _ _) _);
    reflexivity.
Defined.

Lemma X25_witness :
  let entry := mkEntry (fun _ => ([scenario_block], None)) (fun _ => None) in
  let lost := StdException "mysqlxx::ConnectionFailed" in
  let a1 := mkAttempt (Ok entry) true (Throw lost) (fun _ => false) None 7 None in
  let a2 := mkAttempt (Throw lost) false (Throw lost) (fun _ => false) None 7 None in
  let around :=
    mkSurroundings (fun _ => Ok DatabaseMaterializeMySQL)
      (fun e => match e with StdException _ => true | _ => false end) 500
      (fun iteration => (2 <=? iteration)%nat) in
  prepareSynchronized accept_query example_backQuote scenario_context "db" "src" around 0
    [a1; a2] (mkPreparing (store scenario_state) [] false None)
  = Some (Ok None,
          mkPreparing (store scenario_state)
            [ConnectionQuery "ROLLBACK"; SleepForMilliseconds 500;
             ConnectionQuery "ROLLBACK"; SleepForMilliseconds 500]
            true (Some entry)).
Proof.
  intros entry lost a1 a2 around.
  rewrite (X25_rollback_is_repeated_when_the_pool_fails_next
             accept_query example_backQuote scenario_context "db" "src" around a1 a2 []
             (mkPreparing (store scenario_state) [] false None) entry lost lost);
    reflexivity.
Defined.

Lemma X26_witness :
  let entry := mkEntry (fun _ => ([scenario_block], None)) (fun _ => None) in
  let a := mkAttempt (Ok entry) false (Ok (mkMetadata "binlog.000001" 4 0, []))
             (fun _ => false) None 7 None in
  let around :=
    mkSurroundings (fun _ => Ok DatabaseOfAnotherClass)
      (fun e => match e with StdException _ => true | _ => false end) 500 (fun _ => false) in
  synchronization example_narrow example_fixed_insert example_byteSize accept_query accept_copy
    example_backQuote scenario_context "db" "src" around [a] scenario_settings (fun _ => false)
    0 [] (mkPreparing (store scenario_state) [] false None)
  = Some (mkThreadEnd (store scenario_state) [] None
            (Some (Exception "LOGICAL_ERROR: cannot cast to DatabaseMaterializeMySQL, it is a bug."
                     LOGICAL_ERROR))).
Proof.
  intros entry a around.
  refine (proj2 (proj2 (X26_the_thread_records_what_is_thrown
                          example_narrow example_fixed_insert example_byteSize accept_query
                          accept_copy example_backQuote scenario_context "db" "src" around [a]
                          scenario_settings (fun _ => false) 0 []
                          (mkPreparing (store scenario_state) [] false None)))
            a [] entry _ _ _ _ _ _); reflexivity.
Defined.

Lemma X27_witness :
  let turn1 :=
    mkTurn 10 (fun _ => (Some (WriteRowsEvent "t" [scenario_row]), mkPosition "binlog.000001" 190))
      20 21 in
  let turn2 := mkTurn 1500 (fun _ => (None, mkPosition "binlog.000001" 190)) 1501 1502 in
  exists s2,
    synchronization_loop example_narrow example_fixed_insert example_byteSize accept_query
      accept_copy example_backQuote scenario_context "db" "src" scenario_settings
      (fun iteration => (2 <=? iteration)%nat) 0 [turn1; turn2] 0 scenario_state
    = Some (Ok tt, s2)
    /\ data (buffers s2) = ∅
    /\ journal (store s2)
       = [ExecuteQuery (mkContext "db" true true)
            "/*Materialize MySQL step 1: execute dump data*/ INSERT INTO t(k, v, _sign, _version) VALUES";
          CopyData "t" ["k"; "v"; "_sign"; "_version"]
            [mkColumn (Some (ColumnVector Int32 [5])) "k";
             mkColumn (Some (ColumnString ["a"])) "v";
             mkColumn (Some (ColumnVector Int8 [1])) "_sign";
             mkColumn (Some (ColumnVector UInt64 [42])) "_version"];
          CommitPosition (mkPosition "binlog.000001" 190)].
Proof.
  intros turn1 turn2.
  pose proof (X27_buffered_rows_are_flushed_by_the_next_late_turn
                example_narrow example_fixed_insert example_byteSize accept_query accept_copy
                example_backQuote scenario_context "db" "src" scenario_settings
                (fun iteration => (2 <=? iteration)%nat) 0%nat turn1 turn2 [] 0 scenario_state
                (synchronization_turn example_narrow example_fixed_insert example_byteSize
                   accept_query accept_copy example_backQuote scenario_context "db" "src"
                   scenario_settings 10 (readOneBinlogEvent turn1) 20 scenario_state).2
                (mkPosition "binlog.000001" 190)) as H.
  rewrite H.
  - eexists. split; [vm_compute; reflexivity|]. split; vm_compute; reflexivity.
  - reflexivity.
  - reflexivity.
  - vm_compute. reflexivity.
  - intros Hempty. apply (f_equal (fun m => m !! "t")) in Hempty. vm_compute in Hempty.
    discriminate Hempty.
  - reflexivity.
  - vm_compute. reflexivity.
Defined.

Lemma X28_witness :
  exists nested',
    writeFieldsToColumn example_narrow example_fixed_insert false
      (ColumnNullable (ColumnString ["x"]) [0]) [[Field_Null]; [Field_String "a"]] 0%nat [] []
    = Ok (ColumnNullable nested' [0; 1; 0], [])
    /\ IColumn_cells nested' = [CString "x"; CString ""; CString "a"].
Proof.
  destruct (X28_null_fields_store_the_default_and_flag_the_null_map
              example_narrow example_fixed_insert false (ColumnString ["x"]) [0]
              [[Field_Null]; [Field_String "a"]] 0%nat [] [])
    as (nested' & Hrun & _ & Hcells).
  - reflexivity.
  - left. reflexivity.
  - repeat constructor; cbn; eauto.
  - constructor; [left; reflexivity|]. constructor; [right; cbn; eauto|constructor].
  - exists nested'. split; [exact Hrun|exact Hcells].
Defined.

Lemma X2_witness :
  Int32_of_field (Field_Int64 (-5)) = Ok (-5)
  /\ int24_extend (int24_extend 8388608) = int24_extend 8388608.
Proof.
  split.
  - apply (proj1 X2_mediumint_extension_is_stable (-5)). vm_compute. split; [discriminate|reflexivity].
  - apply (proj1 (proj2 X2_mediumint_extension_is_stable) 8388608).
Defined.

Lemma X15_witness :
  read_deadline 1000 400 = 600
  /\ read_deadline 1000 1000 = 1
  /\ read_deadline 1000 1500 = 18446744073709551116.
Proof.
  destruct (X15_read_deadline_in_general 1000 400) as (_ & Hearly & _).
  destruct (X15_read_deadline_in_general 1000 1000) as (_ & _ & Hdue & _).
  destruct (X15_read_deadline_in_general 1000 1500) as (_ & _ & _ & Hlate).
  split; [|split].
  - apply Hearly; lia.
  - apply Hdue. reflexivity.
  - apply Hlate; lia.
Defined.

Lemma X29_witness :
  exists effects,
    journal (store (onEvent example_narrow example_fixed_insert example_byteSize accept_query
                      accept_copy example_backQuote scenario_context "db" "src"
                      (QueryEvent "src" "DROP TABLE t") scenario_buffered).2)
    = journal (store scenario_buffered) ++ effects
    /\ Forall as_secondary_query effects
    /\ effects <> [].
Proof.
  destruct (proj1 (X29_every_query_runs_as_a_secondary_query
                     example_narrow example_fixed_insert example_byteSize accept_query
                     accept_copy example_backQuote scenario_context "db" "src")
              (QueryEvent "src" "DROP TABLE t") scenario_buffered _ _
              (surjective_pairing _)) as (effects & Hjournal & Hsecondary & _).
  exists effects. split; [exact Hjournal|]. split; [exact Hsecondary|].
  intros ->. vm_compute in Hjournal. discriminate Hjournal.
Defined.
